(** * The entity simulation engine: genes, entities, collisions, logo letters

    A shallow embedding of dna.js, entity.js, evolution.js, logoLetter.js and
    logoController.js, followed by the properties of the specification.

    Numbers.  A JavaScript number is modelled as a finite real or NaN.  The
    arithmetic is the exact one of the reals: rounding, overflow, the two
    infinities and the sign of zero are outside the model (a division by zero
    yields NaN here).  NaN is kept because the code can produce it from
    [undefined] operands.  The theorems on positions, velocities and delays
    are stated accordingly: a position or a velocity is given as the
    expression that the code assigns, a bound is one that a clamp or a
    comparison of the code enforces, and they avoid the identities that
    hold for the reals only, such as the length of a normalised vector
    being exactly 1.

    Randomness.  [Math.random()] reads the next element of a stream of reals;
    the stream is threaded through the code by a small state monad. *)

From Stdlib Require Import Reals Lra Lia String Bool ZArith List.
Import ListNotations.

Set Implicit Arguments.
Set Warnings "-register-all".

(* ================================================================== *)
(** * Part I: the embedding                                            *)
(* ================================================================== *)

(** ** JavaScript numbers *)

Inductive number : Type :=
| Fin (r : R)
| NaN.

Declare Scope js_scope.
Delimit Scope js_scope with js.
Bind Scope js_scope with number.

Module Num.

Definition Rltb (x y : R) : bool := if Rlt_dec x y then true else false.
Definition Rleb (x y : R) : bool := if Rle_dec x y then true else false.
Definition Reqb (x y : R) : bool := if Req_dec_T x y then true else false.

Definition lift1 (f : R -> R) (a : number) : number :=
  match a with Fin x => Fin (f x) | NaN => NaN end.

Definition lift2 (f : R -> R -> R) (a b : number) : number :=
  match a, b with Fin x, Fin y => Fin (f x y) | _, _ => NaN end.

Definition add : number -> number -> number := lift2 Rplus.
Definition sub : number -> number -> number := lift2 Rminus.
Definition mul : number -> number -> number := lift2 Rmult.
Definition neg : number -> number := lift1 Ropp.

Definition div (a b : number) : number :=
  match a, b with
  | Fin x, Fin y => if Reqb y 0 then NaN else Fin (x / y)
  | _, _ => NaN
  end.

(** Every comparison with NaN is false. *)
Definition cmp (f : R -> R -> bool) (a b : number) : bool :=
  match a, b with Fin x, Fin y => f x y | _, _ => false end.

Definition lt : number -> number -> bool := cmp Rltb.
Definition le : number -> number -> bool := cmp Rleb.
Definition gt (a b : number) : bool := lt b a.
Definition ge (a b : number) : bool := le b a.
(** [===] on numbers. *)
Definition eq : number -> number -> bool := cmp Reqb.

(** [x % m], the remainder of the division truncated toward zero. *)
Definition Rtrunc (x : R) : Z :=
  if Rle_dec 0 x then Zfloor x else (- Zfloor (- x))%Z.

Definition rem (a b : number) : number :=
  match a, b with
  | Fin x, Fin y =>
      if Reqb y 0 then NaN else Fin (x - y * IZR (Rtrunc (x / y)))
  | _, _ => NaN
  end.

(** An array index: a non-negative integral number. *)
Definition to_index (a : number) : option nat :=
  match a with
  | Fin x =>
      if Reqb (IZR (Zfloor x)) x && Rleb 0 x
      then Some (Z.to_nat (Zfloor x)) else None
  | NaN => None
  end.

Definition of_nat (n : nat) : number := Fin (INR n).

End Num.

Notation "a + b" := (Num.add a b) : js_scope.
Notation "a - b" := (Num.sub a b) : js_scope.
Notation "a * b" := (Num.mul a b) : js_scope.
Notation "a / b" := (Num.div a b) : js_scope.
Notation "- a" := (Num.neg a) : js_scope.
Notation "a <? b" := (Num.lt a b) (at level 70, no associativity) : js_scope.
Notation "a <=? b" := (Num.le a b) (at level 70, no associativity) : js_scope.
Notation "a >? b" := (Num.gt a b) (at level 70, no associativity) : js_scope.
Notation "a >=? b" := (Num.ge a b) (at level 70, no associativity) : js_scope.
Notation "a === b" := (Num.eq a b) (at level 70, no associativity) : js_scope.
Notation "a 'mod' b" := (Num.rem a b)
  (at level 40, no associativity) : js_scope.

(** ** The random stream and its monad *)

Definition RNG : Type := nat -> R.

(** [Math.random()] returns a value of the half-open interval from 0 to 1. *)
Definition rng_ok (s : RNG) : Prop := forall n : nat, (0 <= s n < 1)%R.

Definition Rand (A : Type) : Type := RNG -> A * RNG.

Definition ret {A} (a : A) : Rand A := fun s => (a, s).

Definition bind {A B} (m : Rand A) (k : A -> Rand B) : Rand B :=
  fun s => let (a, s') := m s in k a s'.

Notation "x <- m ;; k" := (bind m (fun x => k))
  (at level 61, m at next level, right associativity).

Definition rng_tail (s : RNG) : RNG := fun n => s (S n).

(** ** The [Math] object *)

Module Math.

Definition PI : number := Fin Rtrigo1.PI.

Definition abs : number -> number := Num.lift1 Rabs.
Definition max : number -> number -> number := Num.lift2 Rmax.
Definition min : number -> number -> number := Num.lift2 Rmin.
Definition floor : number -> number := Num.lift1 (fun x => IZR (Zfloor x)).
(** [Math.round] rounds half-way cases up. *)
Definition round : number -> number :=
  Num.lift1 (fun x => IZR (Zfloor (x + 1 / 2))).
Definition hypot : number -> number -> number :=
  Num.lift2 (fun x y => sqrt (x * x + y * y)).
Definition cos : number -> number := Num.lift1 Rtrigo_def.cos.
Definition sin : number -> number := Num.lift1 Rtrigo_def.sin.

(** The angle of the point (x, y), in the closed interval from -PI to PI. *)
Definition Ratan2 (y x : R) : R :=
  if Rlt_dec 0 x then atan (y / x)
  else if Rlt_dec x 0 then
    (if Rle_dec 0 y then atan (y / x) + Rtrigo1.PI
     else atan (y / x) - Rtrigo1.PI)
  else if Rlt_dec 0 y then Rtrigo1.PI / 2
  else if Rlt_dec y 0 then - (Rtrigo1.PI / 2)
  else 0.

Definition atan2 : number -> number -> number := Num.lift2 Ratan2.

Definition random : Rand number := fun s => (Fin (s 0%nat), rng_tail s).

End Math.

(** ** [Map] objects with string keys

    A [Map] keeps its entries in insertion order; [set] on a present key
    replaces the value in place, on an absent one it appends. *)

Module JsMap.

Definition t (V : Type) : Type := list (string * V).

Fixpoint get {V} (m : t V) (k : string) : option V :=
  match m with
  | [] => None
  | (k', v) :: rest => if String.eqb k' k then Some v else get rest k
  end.

Definition has {V} (m : t V) (k : string) : bool :=
  match get m k with Some _ => true | None => false end.

Fixpoint set {V} (m : t V) (k : string) (v : V) : t V :=
  match m with
  | [] => [(k, v)]
  | (k', v') :: rest =>
      if String.eqb k' k then (k', v) :: rest else (k', v') :: set rest k v
  end.

Fixpoint delete {V} (m : t V) (k : string) : t V :=
  match m with
  | [] => []
  | (k', v') :: rest =>
      if String.eqb k' k then rest else (k', v') :: delete rest k
  end.

Definition keys {V} (m : t V) : list string := map fst m.

Definition size {V} (m : t V) : nat := length m.

(** [new Map(entries)] *)
Definition of_entries {V} (entries : list (string * V)) : t V :=
  fold_left (fun m kv => set m (fst kv) (snd kv)) entries [].

(** The keys of a [Map] are pairwise distinct. *)
Definition wf {V} (m : t V) : Prop := NoDup (keys m).

End JsMap.

(** ** Plain values, as [JSON.parse] and object literals build them *)

Inductive value : Type :=
| VUndefined
| VNull
| VBool (b : bool)
| VNumber (n : number)
| VString (s : string)
| VObject (props : list (string * value)).

(** An element of an array, [undefined] when the index is out of range. *)
Definition array_get {A} (l : list A) (i : number) : option A :=
  match Num.to_index i with
  | Some n => nth_error l n
  | None => None
  end.

(** ** dna.js *)

Module Gene.

Record GeneDef : Type := {
  min : R;
  max : R;
  default : R;
  hueShift : R;
  satShift : R;
  applies : string
}.

(** The own properties of [GENE_DEFS], in the order of the literal. *)
Definition GENE_DEFS : list (string * GeneDef) :=
  [ ("speed"%string,
     {| min := 0.7; max := 1.5; default := 1.0;
        hueShift := 40; satShift := 0; applies := "cell" |});
    ("resistance"%string,
     {| min := 0.0; max := 0.60; default := 0.0;
        hueShift := -25; satShift := 10; applies := "cell" |});
    ("shield"%string,
     {| min := 0.0; max := 1.0; default := 0.0;
        hueShift := 30; satShift := 12; applies := "cell" |});
    ("division_rate"%string,
     {| min := 0.5; max := 2.5; default := 1.0;
        hueShift := 10; satShift := -8; applies := "cell" |});
    ("hunt_speed"%string,
     {| min := 0.8; max := 2.0; default := 1.0;
        hueShift := 20; satShift := 10; applies := "virus" |});
    ("lethality"%string,
     {| min := 0.0; max := 0.35; default := 0.0;
        hueShift := -15; satShift := 15; applies := "virus" |}) ].

(** [GENE_DEFS] is an object literal, so a property read that misses the
    own properties continues in [Object.prototype].  These are its
    property names; each holds a function or an object, hence a truthy
    value with none of the fields of a gene definition. *)
Definition Object_prototype : list string :=
  [ "constructor"; "__defineGetter__"; "__defineSetter__";
    "hasOwnProperty"; "__lookupGetter__"; "__lookupSetter__";
    "isPrototypeOf"; "propertyIsEnumerable"; "toString"; "valueOf";
    "__proto__"; "toLocaleString" ]%string.

(** The result of the property read [GENE_DEFS[key]]. *)
Inductive lookup : Type :=
| Own (def : GeneDef)
| Inherited
| Undefined.

Definition GENE_DEFS_get (key : string) : lookup :=
  match JsMap.get GENE_DEFS key with
  | Some def => Own def
  | None =>
      if in_dec string_dec key Object_prototype then Inherited
      else Undefined
  end.

(** A field of [def] read as a number: [undefined] converts to NaN. *)
Definition field (f : GeneDef -> R) (def : lookup) : number :=
  match def with Own d => Fin (f d) | _ => NaN end.

(** [def.applies === pool] *)
Definition applies_to (def : lookup) (pool : string) : bool :=
  match def with Own d => String.eqb (applies d) pool | _ => false end.

End Gene.

(** CSS colours: a literal such as [#a8ffb8], or the [hsl(h, s%, l%)] string
    that [computeColor] formats from three numbers. *)
Inductive Color : Type :=
| Css (s : string)
| Hsl (h s l : number).

Module DNA.
Import Gene.

Record t : Type := make { genes : JsMap.t number }.

Definition empty : t := make [].

Definition get (d : t) (gene : string) : number :=
  match JsMap.get (genes d) gene with
  | Some v => v
  | None =>
      match GENE_DEFS_get gene with
      | Own def => Fin (default def)
      | _ => Fin 0
      end
  end.

Definition has (d : t) (gene : string) : bool := JsMap.has (genes d) gene.

Definition size (d : t) : nat := JsMap.size (genes d).

(** Step 1 of [reproduce]: the loop over the entries of [newGenes]. *)
Fixpoint drift (mutationRate : number) (entries : list (string * number))
    (newGenes : JsMap.t number) : Rand (JsMap.t number) :=
  match entries with
  | [] => ret newGenes
  | (gene, value) :: rest =>
      r <- Math.random ;;
      if (r <? mutationRate)%js then
        match GENE_DEFS_get gene with
        | Undefined => drift mutationRate rest newGenes
        | def =>
            r' <- Math.random ;;
            let drift_ :=
              ((field max def - field min def) * Fin 0.15
               * (r' * Fin 2 - Fin 1))%js in
            drift mutationRate rest
              (JsMap.set newGenes gene
                 (Math.max (field min def)
                    (Math.min (field max def) (value + drift_)%js)))
        end
      else drift mutationRate rest newGenes
  end.

(** Step 2: the genes of the pool that are not active yet. *)
Definition candidates (pool : string) (newGenes : JsMap.t number)
    : list string :=
  map fst
    (filter (fun kd => applies_to (Own (snd kd)) pool
                       && negb (JsMap.has newGenes (fst kd)))
       GENE_DEFS).

Definition emerge (mutationRate : number) (pool : string)
    (newGenes : JsMap.t number) : Rand (JsMap.t number) :=
  r <- Math.random ;;
  if (r <? mutationRate * Fin 0.4)%js then
    let cs := candidates pool newGenes in
    if (0 <? length cs)%nat then
      r' <- Math.random ;;
      match array_get cs (Math.floor (r' * Num.of_nat (length cs))%js) with
      | Some key =>
          let def := GENE_DEFS_get key in
          ret (JsMap.set newGenes key
                 (field min def
                  + (field max def - field min def) * Fin 0.1)%js)
      | None => ret newGenes  (* not reached when 0 <= r' < 1 *)
      end
    else ret newGenes
  else ret newGenes.

(** Step 3 *)
Definition silence (mutationRate : number) (newGenes : JsMap.t number)
    : Rand (JsMap.t number) :=
  if (0 <? JsMap.size newGenes)%nat then
    r <- Math.random ;;
    if (r <? mutationRate * Fin 0.15)%js then
      let keys := JsMap.keys newGenes in
      r' <- Math.random ;;
      match array_get keys (Math.floor (r' * Num.of_nat (length keys))%js) with
      | Some key => ret (JsMap.delete newGenes key)
      | None => ret newGenes  (* [delete(undefined)] removes nothing *)
      end
    else ret newGenes
  else ret newGenes.

Definition reproduce (d : t) (mutationRate : number) (pool : string)
    : Rand t :=
  let newGenes := genes d in
  newGenes <- drift mutationRate newGenes newGenes ;;
  newGenes <- emerge mutationRate pool newGenes ;;
  newGenes <- silence mutationRate newGenes ;;
  ret (make newGenes).

Fixpoint computeColor_loop (entries : list (string * number))
    (h s : number) : number * number :=
  match entries with
  | [] => (h, s)
  | (gene, value) :: rest =>
      match GENE_DEFS_get gene with
      | Undefined => computeColor_loop rest h s
      | def =>
          let range := (field max def - field min def)%js in
          let norm :=
            if (range >? Fin 0)%js then ((value - field min def) / range)%js
            else Fin 0 in
          computeColor_loop rest (h + norm * field hueShift def)%js
                                 (s + norm * field satShift def)%js
      end
  end.

Definition computeColor (d : t) (baseH baseS baseL : number) : Color :=
  let (h, s) := computeColor_loop (genes d) baseH baseS in
  let h := (((h mod Fin 360) + Fin 360) mod Fin 360)%js in
  let s := Math.max (Fin 0) (Math.min (Fin 100) s) in
  Hsl (Math.round h) (Math.round s) baseL.

(** [Object.fromEntries(this.#genes)]: one property per entry, in the
    order of the entries (no gene name is an integer index, which an
    object would list first). *)
Definition serialise (d : t) : value :=
  VObject (JsMap.of_entries (map (fun kv => (fst kv, VNumber (snd kv)))
                                 (genes d))).

Fixpoint deserialise_loop (entries : list (string * value))
    (genes : JsMap.t number) : JsMap.t number :=
  match entries with
  | [] => genes
  | (key, VNumber value) :: rest =>
      match GENE_DEFS_get key with
      | Undefined => deserialise_loop rest genes
      | def =>
          deserialise_loop rest
            (JsMap.set genes key
               (Math.max (field min def) (Math.min (field max def) value)))
      end
  | _ :: rest => deserialise_loop rest genes
  end.

Definition deserialise (obj : value) : t :=
  match obj with
  | VObject entries => make (deserialise_loop entries [])
  | _ => empty
  end.

Fixpoint withGenes_loop (geneNames : list string) (genes : JsMap.t number)
    : JsMap.t number :=
  match geneNames with
  | [] => genes
  | name :: rest =>
      match GENE_DEFS_get name with
      | Undefined => withGenes_loop rest genes
      | def =>
          withGenes_loop rest
            (JsMap.set genes name
               (field min def
                + (field max def - field min def) * Fin 0.15)%js)
      end
  end.

Definition withGenes (geneNames : list string) : t :=
  make (withGenes_loop geneNames []).

Definition forVirus (cellDNA : option t) : t :=
  match cellDNA with
  | Some c =>
      let resistance := get c "resistance" in
      if (resistance >? Fin 0.15)%js then
        let def := GENE_DEFS_get "lethality" in
        make (JsMap.set [] "lethality"%string
                (Math.min (field max def) (resistance * Fin 0.55)%js))
      else empty
  | None => empty
  end.

End DNA.

(** ** constants.js

    The values that no code path reassigns.  The two bounds of the logo bump
    threshold are changed by the settings panel at run time; the functions
    that read them take them as arguments. *)

Module DEFAULTS.

Definition ICON_HALF : number := Fin 12.
Definition MOVE_SPEED : number := Fin 5.
Definition BASE_SPEED : number := Fin 0.8.
Definition MAX_SPEED_FACTOR : number := Fin 2.5.
Definition DRIFT_CHANCE : number := Fin 0.02.
Definition DRIFT_MAGNITUDE : number := Fin 0.25.
Definition COLLISION_DIAMETER : number := Fin 24.
Definition VIRUS_KILL_CHANCE : number := Fin 0.9.
Definition MUTATION_RATE : number := Fin 0.10.
Definition DIVISION_INTERVAL_MIN : number := Fin 900.
Definition DIVISION_INTERVAL_MAX : number := Fin 3600.
Definition MIN_CELL_COUNT : nat := 2.
Definition MAX_POPULATION : nat := 50.
Definition LOGO_LETTER_HALF : number := Fin 18.
Definition LOGO_LETTER_GAP : number := Fin 32.
Definition LOGO_COLLISION_DIAMETER : number := Fin 30.
Definition LOGO_EJECT_IMPULSE : number := Fin 2.2.

End DEFAULTS.

(** [window.innerWidth] and [window.innerHeight], read anew at each use. *)
Record Viewport : Type := {
  innerWidth : number;
  innerHeight : number
}.

(** ** entity.js *)

Module Entity.

Record t : Type := make {
  x : number;
  y : number;
  vx : number;
  vy : number;
  rotation : number;
  entityKey : string;
  name : string;
  type : string;
  color : Color;
  alive : bool;
  dna : DNA.t;
  _divisionTimer : number;
  (** [true] when the DOM node is present (not [null]) *)
  el : bool;
  bodyEl : bool;
  infected : bool;
  dying : bool;
  (** Observers, not fields of the class: the calls of [onHit] received,
      and the hit animations that were started. *)
  onHit_calls : nat;
  hit_flashes : nat
}.

(** The argument of the constructor. *)
Record Config : Type := {
  cfg_name : string;
  cfg_type : string;
  cfg_color : Color;
  cfg_dna : DNA.t;
  cfg_x : number;
  cfg_y : number;
  cfg_vx : number;
  cfg_vy : number
}.

Definition set_x (e : t) (v : number) : t :=
  make v (y e) (vx e) (vy e) (rotation e) (entityKey e) (name e) (type e)
    (color e) (alive e) (dna e) (_divisionTimer e) (el e) (bodyEl e)
    (infected e) (dying e) (onHit_calls e) (hit_flashes e).
Definition set_y (e : t) (v : number) : t :=
  make (x e) v (vx e) (vy e) (rotation e) (entityKey e) (name e) (type e)
    (color e) (alive e) (dna e) (_divisionTimer e) (el e) (bodyEl e)
    (infected e) (dying e) (onHit_calls e) (hit_flashes e).
Definition set_vx (e : t) (v : number) : t :=
  make (x e) (y e) v (vy e) (rotation e) (entityKey e) (name e) (type e)
    (color e) (alive e) (dna e) (_divisionTimer e) (el e) (bodyEl e)
    (infected e) (dying e) (onHit_calls e) (hit_flashes e).
Definition set_vy (e : t) (v : number) : t :=
  make (x e) (y e) (vx e) v (rotation e) (entityKey e) (name e) (type e)
    (color e) (alive e) (dna e) (_divisionTimer e) (el e) (bodyEl e)
    (infected e) (dying e) (onHit_calls e) (hit_flashes e).
Definition set_entityKey (e : t) (v : string) : t :=
  make (x e) (y e) (vx e) (vy e) (rotation e) v (name e) (type e)
    (color e) (alive e) (dna e) (_divisionTimer e) (el e) (bodyEl e)
    (infected e) (dying e) (onHit_calls e) (hit_flashes e).
Definition set_dna (e : t) (v : DNA.t) : t :=
  make (x e) (y e) (vx e) (vy e) (rotation e) (entityKey e) (name e) (type e)
    (color e) (alive e) v (_divisionTimer e) (el e) (bodyEl e)
    (infected e) (dying e) (onHit_calls e) (hit_flashes e).
Definition set_divisionTimer (e : t) (v : number) : t :=
  make (x e) (y e) (vx e) (vy e) (rotation e) (entityKey e) (name e) (type e)
    (color e) (alive e) (dna e) v (el e) (bodyEl e)
    (infected e) (dying e) (onHit_calls e) (hit_flashes e).
Definition set_infected (e : t) (v : bool) : t :=
  make (x e) (y e) (vx e) (vy e) (rotation e) (entityKey e) (name e) (type e)
    (color e) (alive e) (dna e) (_divisionTimer e) (el e) (bodyEl e)
    v (dying e) (onHit_calls e) (hit_flashes e).
Definition set_dying (e : t) (v : bool) : t :=
  make (x e) (y e) (vx e) (vy e) (rotation e) (entityKey e) (name e) (type e)
    (color e) (alive e) (dna e) (_divisionTimer e) (el e) (bodyEl e)
    (infected e) v (onHit_calls e) (hit_flashes e).
Definition set_hits (e : t) (calls flashes : nat) : t :=
  make (x e) (y e) (vx e) (vy e) (rotation e) (entityKey e) (name e) (type e)
    (color e) (alive e) (dna e) (_divisionTimer e) (el e) (bodyEl e)
    (infected e) (dying e) calls flashes.

(** [new Entity(config)], with the random orientation the constructor
    draws when the configuration carries none. *)
Definition new (c : Config) : Rand t :=
  r <- Math.random ;;
  ret (make (cfg_x c) (cfg_y c) (cfg_vx c) (cfg_vy c) (r * Fin 360)%js
         (cfg_name c) (cfg_name c) (cfg_type c) (cfg_color c) true
         (cfg_dna c) (Fin (-1)) false false false false 0 0).

(** The four edge tests of [update], in the order of the source; each one
    reads the position and the velocity left by the tests before it. *)
Definition bounce (vp : Viewport) (e : t) : t :=
  let h := DEFAULTS.ICON_HALF in
  let vw := innerWidth vp in
  let vh := innerHeight vp in
  let e := if (x e - h <=? Fin 0)%js
           then set_vx (set_x e h) (Math.abs (vx e)) else e in
  let e := if (x e + h >=? vw)%js
           then set_vx (set_x e (vw - h)%js) (- Math.abs (vx e))%js else e in
  let e := if (y e - h <=? Fin 0)%js
           then set_vy (set_y e h) (Math.abs (vy e)) else e in
  let e := if (y e + h >=? vh)%js
           then set_vy (set_y e (vh - h)%js) (- Math.abs (vy e))%js else e in
  e.

(** The movement step of [update]. *)
Definition move (speedMultiplier : number) (e : t) : t :=
  let geneKey :=
    if String.eqb (entityKey e) "virus-filled" then "hunt_speed"%string
    else "speed"%string in
  let geneMult := DNA.get (dna e) geneKey in
  let e := set_x e (x e + vx e * speedMultiplier * geneMult)%js in
  set_y e (y e + vy e * speedMultiplier * geneMult)%js.

(** The random velocity kick of [update], with the speed cap. *)
Definition kick (e : t) : Rand t :=
  r <- Math.random ;;
  if (r <? DEFAULTS.DRIFT_CHANCE)%js then
    r1 <- Math.random ;;
    let e := set_vx e (vx e + (r1 - Fin 0.5) * DEFAULTS.DRIFT_MAGNITUDE)%js in
    r2 <- Math.random ;;
    let e := set_vy e (vy e + (r2 - Fin 0.5) * DEFAULTS.DRIFT_MAGNITUDE)%js in
    let spd := Math.hypot (vx e) (vy e) in
    let max := (DEFAULTS.BASE_SPEED * DEFAULTS.MAX_SPEED_FACTOR)%js in
    if (spd >? max)%js then
      let e := set_vx e ((vx e / spd) * max)%js in
      ret (set_vy e ((vy e / spd) * max)%js)
    else ret e
  else ret e.

Definition update (vp : Viewport) (e : t) (speedMultiplier : number)
    : Rand t :=
  if negb (el e) || negb (alive e) || dying e then ret e
  else
    let e :=
      if String.eqb (entityKey e) "cell" && (_divisionTimer e >? Fin 0)%js
      then set_divisionTimer e (_divisionTimer e - Fin 1)%js else e in
    let e := move speedMultiplier e in
    let e := bounce vp e in
    kick e.

Definition wantsToDivide (e : t) : bool :=
  String.eqb (entityKey e) "cell"
  && (_divisionTimer e === Fin 0)%js
  && alive e
  && negb (dying e).

Definition resetDivision (e : t) : Rand t :=
  let rate := DNA.get (dna e) "division_rate" in
  let min := Math.round (DEFAULTS.DIVISION_INTERVAL_MIN / rate)%js in
  let max := Math.round (DEFAULTS.DIVISION_INTERVAL_MAX / rate)%js in
  r <- Math.random ;;
  ret (set_divisionTimer e
         (min + Math.floor (r * (max - min + Fin 1)))%js).

(** Base colour of the DNA colouring of cells, [DNA_BASE.cell]. *)
Definition DNA_BASE_cell : number * number * number :=
  (Fin 133, Fin 100, Fin 83).

Definition divide (vp : Viewport) (e : t) : Rand Config :=
  let h := DEFAULTS.ICON_HALF in
  let offset := (DEFAULTS.COLLISION_DIAMETER * Fin 0.65)%js in
  r <- Math.random ;;
  let angle := (r * Math.PI * Fin 2)%js in
  let nx := Math.cos angle in
  let ny := Math.sin angle in
  childDna <- DNA.reproduce (dna e) DEFAULTS.MUTATION_RATE "cell" ;;
  let childColor :=
    if (0 <? DNA.size childDna)%nat then
      let '(bh, bs, bl) := DNA_BASE_cell in DNA.computeColor childDna bh bs bl
    else color e in
  let vw := innerWidth vp in
  let vh := innerHeight vp in
  let cx := Math.max h (Math.min (vw - h)%js (x e + nx * offset)%js) in
  let cy := Math.max h (Math.min (vh - h)%js (y e + ny * offset)%js) in
  ret {| cfg_name := "cell";
         cfg_type := "good";
         cfg_color := childColor;
         cfg_dna := childDna;
         cfg_x := cx;
         cfg_y := cy;
         cfg_vx := (nx * DEFAULTS.BASE_SPEED)%js;
         cfg_vy := (ny * DEFAULTS.BASE_SPEED)%js |}.

Definition onHit (e : t) : t :=
  if negb (bodyEl e) || negb (alive e) || dying e
  then set_hits e (S (onHit_calls e)) (hit_flashes e)
  else set_hits e (S (onHit_calls e)) (S (hit_flashes e)).

(** [die]: the part that runs at the call; the two timers fire later. *)
Definition die (e : t) : t :=
  if dying e || negb (bodyEl e) || negb (alive e) then e
  else set_vy (set_vx (set_dying e true) (Fin 0)) (Fin 0).

(** [infectWith]: the part that runs at the call, up to the first [await];
    the icon swap and the division timer follow in a later task. *)
Definition infectWith (e : t) (iconName : string) (force : bool)
    (newDna : option DNA.t) : t :=
  if dying e || negb (bodyEl e) || negb (alive e) then e
  else if negb force && infected e then e
  else
    let e := set_entityKey (set_infected e true) iconName in
    match newDna with Some d => set_dna e d | None => e end.

End Entity.

(** [arr[i] = v] on a list, for an index within the list. *)
Fixpoint list_set {A} (l : list A) (i : nat) (v : A) : list A :=
  match l, i with
  | [], _ => []
  | _ :: rest, O => v :: rest
  | a :: rest, S i' => a :: list_set rest i' v
  end.

(** ** evolution.js *)

Module Evolution.

(** The fields of the controller that the tick reads. *)
Record Controller : Type := {
  (** [#iconsData] is loaded (not [null]) *)
  iconsData : bool;
  (** [#container] is set *)
  container : bool;
  virusKillChance : number;
  moveSpeed : number
}.

(** [while (cond(d)) d = body(d)], run for at most [fuel] turns. *)
Fixpoint while_ (fuel : nat) (cond : number -> bool)
    (body : number -> number) (d : number) : number :=
  match fuel with
  | O => d
  | S fuel' => if cond d then while_ fuel' cond body (body d) else d
  end.

(** A number of turns after which both loops of the angle normalisation
    have left (lemma [normalise_exits]).  The code applies the loops to the
    difference of two results of [Math.atan2], at most 2 PI in absolute
    value, for which each loop runs at most once; for differences so large
    that subtracting 2 PI no longer changes a binary64 number, the loops of
    the code would not leave, which the model, over the reals, does not
    show. *)
Definition turns (d : number) : nat :=
  match d with
  | Fin r => Z.to_nat (up (Rabs r / (2 * Rtrigo1.PI)))
  | NaN => O
  end.

(** The two [while] loops that bring [diff] between -PI and PI. *)
Definition normalise (diff : number) : number :=
  let diff :=
    while_ (turns diff) (fun d => (d >? Math.PI)%js)
      (fun d => (d - Math.PI * Fin 2)%js) diff in
  while_ (turns diff) (fun d => (d <? - Math.PI)%js)
    (fun d => (d + Math.PI * Fin 2)%js) diff.

(** The shield test of [#resolveVirusContact]: [true] when the function
    returns early, the attack being blocked. *)
Definition shield_blocks (target : Entity.t) (approachAngle : number)
    : bool :=
  let shieldStrength := DNA.get (Entity.dna target) "shield" in
  if (shieldStrength >? Fin 0)%js then
    let spd := Math.hypot (Entity.vx target) (Entity.vy target) in
    if (spd >? Fin 0.01)%js then
      let frontAngle := Math.atan2 (Entity.vy target) (Entity.vx target) in
      let halfWidth := (shieldStrength * (Math.PI / Fin 2))%js in
      let diff := normalise (approachAngle - frontAngle)%js in
      (Math.abs diff <? halfWidth)%js
    else false
  else false.

(** [#resolveVirusContact]; the result is the target. *)
Definition resolveVirusContact (c : Controller) (virus target : Entity.t)
    (approachAngle : number) : Rand Entity.t :=
  if shield_blocks target approachAngle then ret target
  else
    let resistance := DNA.get (Entity.dna target) "resistance" in
    let killChance := Math.max (Fin 0) (virusKillChance c - resistance)%js in
    let lethalBonus := DNA.get (Entity.dna virus) "lethality" in
    let effectiveKill := Math.min (Fin 1) (killChance + lethalBonus)%js in
    r <- Math.random ;;
    if (r <? effectiveKill)%js then ret (Entity.die target)
    else ret target.

Definition bugImmune (key : string) : bool :=
  String.eqb key "bug" || String.eqb key "bacteria".

Definition virusImmune (key : string) : bool :=
  String.eqb key "bug" || String.eqb key "virus-filled"
  || String.eqb key "bacteria".

(** The sections of the body of the two nested loops of [#checkCollisions],
    for the pair [a = entities[i]], [b = entities[j]] and the collision
    normal [(nx, ny)], in the order of the source. *)

(** Elastic impulse along the normal. *)
Definition impulse (a b : Entity.t) (nx ny : number) (aIsBug bIsBug : bool)
    : Entity.t * Entity.t :=
  let dot := ((Entity.vx a - Entity.vx b) * nx
              + (Entity.vy a - Entity.vy b) * ny)%js in
  let a' :=
    Entity.set_vy (Entity.set_vx a (Entity.vx a - dot * nx)%js)
      (Entity.vy a - dot * ny)%js in
  let b' :=
    Entity.set_vy (Entity.set_vx b (Entity.vx b + dot * nx)%js)
      (Entity.vy b + dot * ny)%js in
  if (dot >? Fin 0)%js then
    if aIsBug || bIsBug then
      if aIsBug then (a', b) else (a, b')
    else (a', b')
  else (a, b).

(** Positional correction: push apart equally. *)
Definition separate (a b : Entity.t) (nx ny dist : number)
    : Entity.t * Entity.t :=
  let half := ((DEFAULTS.COLLISION_DIAMETER - dist) / Fin 2)%js in
  (Entity.set_y (Entity.set_x a (Entity.x a - half * nx)%js)
     (Entity.y a - half * ny)%js,
   Entity.set_y (Entity.set_x b (Entity.x b + half * nx)%js)
     (Entity.y b + half * ny)%js).

(** Visual feedback. *)
Definition feedback (a b : Entity.t) (aIsBug bIsBug : bool)
    : Entity.t * Entity.t :=
  if negb aIsBug && negb bIsBug then (Entity.onHit a, Entity.onHit b)
  else if aIsBug then (Entity.onHit a, b)
  else (a, Entity.onHit b).

(** Bug infection. *)
Definition infection (a b : Entity.t) : Entity.t * Entity.t :=
  if String.eqb (Entity.entityKey a) "bug" then
    if String.eqb (Entity.entityKey b) "virus-filled" then
      (a, Entity.infectWith b "cell" true None)
    else if negb (bugImmune (Entity.entityKey b)) then
      (a, Entity.infectWith b "virus-filled" false
            (Some (DNA.forVirus (Some (Entity.dna b)))))
    else (a, b)
  else if String.eqb (Entity.entityKey b) "bug" then
    if String.eqb (Entity.entityKey a) "virus-filled" then
      (Entity.infectWith a "cell" true None, b)
    else if negb (bugImmune (Entity.entityKey a)) then
      (Entity.infectWith a "virus-filled" false
         (Some (DNA.forVirus (Some (Entity.dna a)))), b)
    else (a, b)
  else (a, b).

(** Virus kill. *)
Definition virus_contact (c : Controller) (a b : Entity.t) (nx ny : number)
    : Rand (Entity.t * Entity.t) :=
  let aIsVirus := String.eqb (Entity.entityKey a) "virus-filled" in
  let bIsVirus := String.eqb (Entity.entityKey b) "virus-filled" in
  if aIsVirus && negb (virusImmune (Entity.entityKey b)) then
    let approachAngle := Math.atan2 (- ny)%js (- nx)%js in
    b' <- resolveVirusContact c a b approachAngle ;;
    ret (a, b')
  else if bIsVirus && negb (virusImmune (Entity.entityKey a)) then
    let approachAngle := Math.atan2 ny nx in
    a' <- resolveVirusContact c b a approachAngle ;;
    ret (a', b)
  else ret (a, b).

Definition collide (c : Controller) (a b : Entity.t)
    : Rand (Entity.t * Entity.t) :=
  let diameter := DEFAULTS.COLLISION_DIAMETER in
  if negb (Entity.alive a) || negb (Entity.alive b)
     || Entity.dying a || Entity.dying b then ret (a, b)
  else
    let dx := (Entity.x b - Entity.x a)%js in
    let dy := (Entity.y b - Entity.y a)%js in
    let dist := Math.hypot dx dy in
    if (dist >=? diameter)%js || (dist === Fin 0)%js then ret (a, b)
    else
      let nx := (dx / dist)%js in
      let ny := (dy / dist)%js in
      let aIsBug := String.eqb (Entity.entityKey a) "bug" in
      let bIsBug := String.eqb (Entity.entityKey b) "bug" in
      let '(a, b) := impulse a b nx ny aIsBug bIsBug in
      let '(a, b) := separate a b nx ny dist in
      let '(a, b) := feedback a b aIsBug bIsBug in
      if negb (iconsData c) then ret (a, b)
      else
        let '(a, b) := infection a b in
        virus_contact c a b nx ny.

(** The inner loop: [j] runs over [js] for a fixed [i]. *)
Fixpoint collisions_inner (c : Controller) (i : nat) (js : list nat)
    (entities : list Entity.t) : Rand (list Entity.t) :=
  match js with
  | [] => ret entities
  | j :: js' =>
      match nth_error entities i, nth_error entities j with
      | Some a, Some b =>
          ab <- collide c a b ;;
          collisions_inner c i js'
            (list_set (list_set entities i (fst ab)) j (snd ab))
      | _, _ => collisions_inner c i js' entities
      end
  end.

Fixpoint collisions_outer (c : Controller) (indices : list nat)
    (entities : list Entity.t) : Rand (list Entity.t) :=
  match indices with
  | [] => ret entities
  | i :: indices' =>
      entities <- collisions_inner c i
                    (seq (S i) (length entities - S i)) entities ;;
      collisions_outer c indices' entities
  end.

Definition checkCollisions (c : Controller) (entities : list Entity.t)
    : Rand (list Entity.t) :=
  collisions_outer c (seq 0 (length entities)) entities.

(** [#spawnOffspring], up to its first [await]: the entity is built and
    its mount is pending. *)
Definition spawnOffspring (c : Controller) (config : Entity.Config)
    : Rand (option Entity.t) :=
  if negb (container c) then ret None
  else e <- Entity.new config ;; ret (Some e).

(** The first loop of the tick. *)
Fixpoint update_all (vp : Viewport) (multiplier : number)
    (entities : list Entity.t) : Rand (list Entity.t) :=
  match entities with
  | [] => ret []
  | e :: rest =>
      e' <- Entity.update vp e multiplier ;;
      rest' <- update_all vp multiplier rest ;;
      ret (e' :: rest')
  end.

(** The loop of the division block.  The result pairs the entities, with
    their timers reset, and the descriptors passed to [#spawnOffspring]. *)
Fixpoint division_loop (c : Controller) (vp : Viewport)
    (entities : list Entity.t) : Rand (list Entity.t * list Entity.Config) :=
  match entities with
  | [] => ret ([], [])
  | e :: rest =>
      if Entity.wantsToDivide e then
        e' <- Entity.resetDivision e ;;
        config <- Entity.divide vp e' ;;
        _ <- spawnOffspring c config ;;
        r <- division_loop c vp rest ;;
        ret (e' :: fst r, config :: snd r)
      else
        r <- division_loop c vp rest ;;
        ret (e :: fst r, snd r)
  end.

Definition division_block (c : Controller) (vp : Viewport)
    (entities : list Entity.t) : Rand (list Entity.t * list Entity.Config) :=
  if (length entities <? DEFAULTS.MAX_POPULATION)%nat
  then division_loop c vp entities
  else ret (entities, []).

(** The tick, from its start to the end of the division block. *)
Definition tick_divisions (c : Controller) (vp : Viewport)
    (entities : list Entity.t) : Rand (list Entity.t * list Entity.Config) :=
  let multiplier := (moveSpeed c / DEFAULTS.MOVE_SPEED)%js in
  entities <- update_all vp multiplier entities ;;
  division_block c vp entities.

End Evolution.

(** ** logoLetter.js and logoController.js *)

Module Logo.

Record Letter : Type := mkLetter {
  slotIndex : nat;
  x : number;
  y : number;
  vx : number;
  vy : number;
  ejected : bool;
  bumpCount : number;
  totalHits : number;
  bumpThreshold : number;
  mounted : bool
}.

(** The two mutable bounds [LOGO_BUMP_THRESHOLD_MIN] and [_MAX]. *)
Record Bounds : Type := {
  LOGO_BUMP_THRESHOLD_MIN : number;
  LOGO_BUMP_THRESHOLD_MAX : number
}.

(** [MIN + Math.floor(Math.random() * (MAX - MIN))] *)
Definition random_threshold (bd : Bounds) : Rand number :=
  r <- Math.random ;;
  ret (LOGO_BUMP_THRESHOLD_MIN bd
       + Math.floor (r * (LOGO_BUMP_THRESHOLD_MAX bd
                          - LOGO_BUMP_THRESHOLD_MIN bd)))%js.

(** [onBump]: the letter after the call, and the returned boolean. *)
Definition onBump (l : Letter) : Letter * bool :=
  let l := mkLetter (slotIndex l) (x l) (y l) (vx l) (vy l) (ejected l)
             (bumpCount l + Fin 1)%js (totalHits l + Fin 1)%js
             (bumpThreshold l) (mounted l) in
  (l, negb (ejected l) && (bumpCount l >? bumpThreshold l)%js).

Definition eject (l : Letter) (impulseVx impulseVy : number) : Letter :=
  mkLetter (slotIndex l) (x l) (y l) impulseVx impulseVy true
    (bumpCount l) (totalHits l) (bumpThreshold l) (mounted l).

Definition reattach (bd : Bounds) (l : Letter) : Rand Letter :=
  th <- random_threshold bd ;;
  ret (mkLetter (slotIndex l) (x l) (y l) (Fin 0) (Fin 0) false
         (Fin 0) (totalHits l) th (mounted l)).

(** The end of the body of the loops of [checkCollisionsWithEntities]:
    the letter registers the bump and is ejected, away from the entity,
    when [onBump] says so.  [(nx, ny)] points from the letter to the
    entity. *)
Definition bump (bd : Bounds) (letter : Letter) (nx ny : number)
    : Rand Letter :=
  let '(letter, shouldEject) := onBump letter in
  if shouldEject then
    let ejVx := (- nx * DEFAULTS.LOGO_EJECT_IMPULSE)%js in
    let ejVy := (- ny * DEFAULTS.LOGO_EJECT_IMPULSE)%js in
    let letter := eject letter ejVx ejVy in
    th <- random_threshold bd ;;
    ret (mkLetter (slotIndex letter) (x letter) (y letter) (vx letter)
           (vy letter) (ejected letter) (Fin 0) (totalHits letter)
           th (mounted letter))
  else ret letter.

(** The body of the loops of [checkCollisionsWithEntities], for one
    entity (alive and not dying) and one letter. *)
Definition hit (bd : Bounds) (entity : Entity.t) (letter : Letter)
    : Rand (Entity.t * Letter) :=
  let colDiam := DEFAULTS.LOGO_COLLISION_DIAMETER in
  if negb (mounted letter) then ret (entity, letter)
  else
    let dx := (Entity.x entity - x letter)%js in
    let dy := (Entity.y entity - y letter)%js in
    let dist := Math.hypot dx dy in
    if (dist >=? colDiam)%js || (dist === Fin 0)%js then ret (entity, letter)
    else
      let nx := (dx / dist)%js in
      let ny := (dy / dist)%js in
      let dot := ((Entity.vx entity - vx letter) * nx
                  + (Entity.vy entity - vy letter) * ny)%js in
      let entity :=
        if (dot <? Fin 0)%js then
          Entity.set_vy
            (Entity.set_vx entity (Entity.vx entity - Fin 2 * dot * nx)%js)
            (Entity.vy entity - Fin 2 * dot * ny)%js
        else entity in
      let overlap := (colDiam - dist)%js in
      let entity :=
        Entity.set_y
          (Entity.set_x entity (Entity.x entity + overlap * nx)%js)
          (Entity.y entity + overlap * ny)%js in
      let entity := Entity.onHit entity in
      letter <- bump bd letter nx ny ;;
      ret (entity, letter).

Fixpoint letters_loop (bd : Bounds) (entity : Entity.t)
    (letters : list Letter) : Rand (Entity.t * list Letter) :=
  match letters with
  | [] => ret (entity, [])
  | l :: rest =>
      el <- hit bd entity l ;;
      r <- letters_loop bd (fst el) rest ;;
      ret (fst r, snd el :: snd r)
  end.

Fixpoint entities_loop (bd : Bounds) (entities : list Entity.t)
    (letters : list Letter) : Rand (list Entity.t * list Letter) :=
  match entities with
  | [] => ret ([], letters)
  | e :: rest =>
      if negb (Entity.alive e) || Entity.dying e then
        r <- entities_loop bd rest letters ;;
        ret (e :: fst r, snd r)
      else
        el <- letters_loop bd e letters ;;
        r <- entities_loop bd rest (snd el) ;;
        ret (fst el :: fst r, snd r)
  end.

Definition checkCollisionsWithEntities (bd : Bounds) (ready : bool)
    (entities : list Entity.t) (letters : list Letter)
    : Rand (list Entity.t * list Letter) :=
  if negb ready then ret (entities, letters)
  else entities_loop bd entities letters.

End Logo.


(** ** constants.js, the values read by the spawner and by the logo *)

Module DEFAULTS_more.

Definition SPAWN_DELAY_MIN : number := Fin 3000.
Definition SPAWN_DELAY_MAX : number := Fin 20000.
Definition BUG_SPAWN_CHANCE : number := Fin 0.08.
Definition BUG_MAX_COUNT : number := Fin 2.
Definition LOGO_SPRING_K : number := Fin 0.04.
Definition LOGO_SPRING_DAMPING : number := Fin 0.88.
Definition LOGO_REATTACH_RADIUS : number := Fin 20.
Definition LOGO_EJECT_MAX_SPEED : number := Fin 3.5.

End DEFAULTS_more.

(** [Math.pow].  A zero base with a negative exponent gives an infinity,
    which is outside the model and stands as NaN here; so are the overflow
    and the underflow of the result, which the code meets for bases far
    outside the range of the settings. *)
Definition Math_pow (a b : number) : number :=
  match a, b with
  | _, NaN => NaN
  | NaN, Fin y => if Num.Reqb y 0 then Fin 1 else NaN
  | Fin x, Fin y =>
      if Num.Reqb y 0 then Fin 1
      else if Num.Rltb 0 x then Fin (Rpower x y)
      else if Num.Reqb x 0 then (if Num.Rltb 0 y then Fin 0 else NaN)
      else if Num.Reqb (IZR (Zfloor y)) y then Fin (powerRZ x (Zfloor y))
      else NaN
  end.

(** ** evolution.js: the spawner *)

Module Spawner.

(** The settings of the controller that the spawner reads, and the two
    names of [iconsData.spawn] ([rare] is optional in the data). *)
Record Settings : Type := {
  spawnRate : number;
  bugSpawnChance : number;
  bugMaxCount : number;
  initial : string;
  rare : option string
}.

(** The delay that [#scheduleNextSpawn] passes to [setTimeout]. *)
Definition scheduleNextSpawn (st : Settings) : Rand number :=
  let factor := Math_pow (spawnRate st / Fin 5)%js (Fin 1.5) in
  let min := Math.max (Fin 300)
               (Math.round (DEFAULTS_more.SPAWN_DELAY_MIN / factor)%js) in
  let max := Math.max (Fin 1500)
               (Math.round (DEFAULTS_more.SPAWN_DELAY_MAX / factor)%js) in
  r <- Math.random ;;
  ret (min + r * (max - min))%js.

(** A string in a condition: the empty string is falsy. *)
Definition truthy (s : string) : bool := negb (String.eqb s "").

(** [entities.filter(e => e.entityKey === key).length] *)
Definition count_key (key : string) (entities : list Entity.t) : nat :=
  length (filter (fun e => String.eqb (Entity.entityKey e) key) entities).

(** [!name], for a name that is [null] ([None]) or a string. *)
Definition falsy (name : option string) : bool :=
  match name with Some n => negb (truthy n) | None => true end.

(** The choice of the name in [#spawnEntity], past its guard on the
    container and the icon data: the name to spawn, [None] when the
    function returns without spawning. *)
Definition choose (st : Settings) (entities : list Entity.t)
    : Rand (option string) :=
  name <-
    (if negb (falsy (rare st)) then
       r <- Math.random ;;
       if (r <? bugSpawnChance st)%js then
         let liveBugs := count_key "bug" entities in
         if (Num.of_nat liveBugs <? bugMaxCount st)%js
         then ret (rare st) else ret None
       else ret None
     else ret None) ;;
  let name :=
    if falsy name then
      let liveCells := count_key "cell" entities in
      if (liveCells <? DEFAULTS.MIN_CELL_COUNT)%nat
      then Some (initial st) else name
    else name in
  if falsy name then ret None else ret name.


End Spawner.

(** ** logoLetter.js: the motion of a letter *)

Module LogoLetter.
Import Logo.

Definition set_pos (l : Letter) (px py : number) : Letter :=
  mkLetter (slotIndex l) px py (vx l) (vy l) (ejected l) (bumpCount l)
    (totalHits l) (bumpThreshold l) (mounted l).

Definition set_vel (l : Letter) (pvx pvy : number) : Letter :=
  mkLetter (slotIndex l) (x l) (y l) pvx pvy (ejected l) (bumpCount l)
    (totalHits l) (bumpThreshold l) (mounted l).

Definition set_bumpCount (l : Letter) (n : number) : Letter :=
  mkLetter (slotIndex l) (x l) (y l) (vx l) (vy l) (ejected l) n
    (totalHits l) (bumpThreshold l) (mounted l).




(** [new LogoLetter({ iconName, slotIndex })], without a threshold in the
    configuration: the constructor draws one. *)
Definition new (bd : Bounds) (slot : nat) : Rand Letter :=
  th <- random_threshold bd ;;
  ret (mkLetter slot (Fin 0) (Fin 0) (Fin 0) (Fin 0) false (Fin 0) (Fin 0)
         th false).

Definition slotPosition (l : Letter) (wordX wordY : number)
    : number * number :=
  ((wordX
    + (Num.of_nat (slotIndex l) - Fin 4.5) * DEFAULTS.LOGO_LETTER_GAP)%js,
   wordY).

Definition snapToSlot (l : Letter) (wordX wordY : number) : Letter :=
  set_pos l
    (wordX
     + (Num.of_nat (slotIndex l) - Fin 4.5) * DEFAULTS.LOGO_LETTER_GAP)%js
    wordY.

(** The four edge tests of [updateEjected], in the order of the source. *)
Definition bounce (vp : Viewport) (l : Letter) : Letter :=
  let h := DEFAULTS.LOGO_LETTER_HALF in
  let vw := innerWidth vp in
  let vh := innerHeight vp in
  let l := if (x l - h <=? Fin 0)%js
           then set_vel (set_pos l h (y l)) (Math.abs (vx l)) (vy l)
           else l in
  let l := if (x l + h >=? vw)%js
           then set_vel (set_pos l (vw - h)%js (y l))
                  (- Math.abs (vx l))%js (vy l)
           else l in
  let l := if (y l - h <=? Fin 0)%js
           then set_vel (set_pos l (x l) h) (vx l) (Math.abs (vy l))
           else l in
  let l := if (y l + h >=? vh)%js
           then set_vel (set_pos l (x l) (vh - h)%js) (vx l)
                  (- Math.abs (vy l))%js
           else l in
  l.

(** The spring, the damping and the speed cap of [updateEjected]. *)
Definition accelerate (l : Letter) (wordX wordY : number) : Letter :=
  let '(sx, sy) := slotPosition l wordX wordY in
  let l := set_vel l (vx l + (sx - x l) * DEFAULTS_more.LOGO_SPRING_K)%js
             (vy l + (sy - y l) * DEFAULTS_more.LOGO_SPRING_K)%js in
  let l := set_vel l (vx l * DEFAULTS_more.LOGO_SPRING_DAMPING)%js
             (vy l * DEFAULTS_more.LOGO_SPRING_DAMPING)%js in
  let spd := Math.hypot (vx l) (vy l) in
  if (spd >? DEFAULTS_more.LOGO_EJECT_MAX_SPEED)%js then
    set_vel l ((vx l / spd) * DEFAULTS_more.LOGO_EJECT_MAX_SPEED)%js
      ((vy l / spd) * DEFAULTS_more.LOGO_EJECT_MAX_SPEED)%js
  else l.

Definition updateEjected (vp : Viewport) (l : Letter)
    (wordX wordY multiplier : number) : Letter :=
  let l := accelerate l wordX wordY in
  let l := set_pos l (x l + vx l * multiplier)%js
             (y l + vy l * multiplier)%js in
  bounce vp l.

Definition isNearSlot (l : Letter) (wordX wordY : number) : bool :=
  let '(sx, sy) := slotPosition l wordX wordY in
  (Math.hypot (x l - sx) (y l - sy)
   <=? DEFAULTS_more.LOGO_REATTACH_RADIUS)%js.

End LogoLetter.

(** ** logoController.js: the word *)

Module LogoController.
Import Logo.

Record t : Type := make {
  wordX : number;
  wordY : number;
  wordVx : number;
  wordVy : number;
  letters : list Letter;
  ready : bool
}.

Definition with_letters (w : t) (ls : list Letter) : t :=
  make (wordX w) (wordY w) (wordVx w) (wordVy w) ls (ready w).




(** The four edge tests of the word origin in [update]. *)
Definition bounce_word (vp : Viewport) (w : t) : t :=
  let halfW := (Fin 4.5 * DEFAULTS.LOGO_LETTER_GAP
                + DEFAULTS.LOGO_LETTER_HALF)%js in
  let halfH := DEFAULTS.LOGO_LETTER_HALF in
  let vw := innerWidth vp in
  let vh := innerHeight vp in
  let w := if (wordX w - halfW <=? Fin 0)%js
           then make halfW (wordY w) (Math.abs (wordVx w)) (wordVy w)
                  (letters w) (ready w)
           else w in
  let w := if (wordX w + halfW >=? vw)%js
           then make (vw - halfW)%js (wordY w) (- Math.abs (wordVx w))%js
                  (wordVy w) (letters w) (ready w)
           else w in
  let w := if (wordY w - halfH <=? Fin 0)%js
           then make (wordX w) halfH (wordVx w) (Math.abs (wordVy w))
                  (letters w) (ready w)
           else w in
  let w := if (wordY w + halfH >=? vh)%js
           then make (wordX w) (vh - halfH)%js (wordVx w)
                  (- Math.abs (wordVy w))%js (letters w) (ready w)
           else w in
  w.

(** The body of the loop over the letters in [update]. *)
Definition update_letter (bd : Bounds) (vp : Viewport)
    (wx wy multiplier : number) (l : Letter) : Rand Letter :=
  if ejected l then
    let l := LogoLetter.updateEjected vp l wx wy multiplier in
    if LogoLetter.isNearSlot l wx wy then
      l <- reattach bd l ;;
      ret (LogoLetter.snapToSlot l wx wy)
    else ret l
  else ret (LogoLetter.snapToSlot l wx wy).

Fixpoint update_letters (bd : Bounds) (vp : Viewport)
    (wx wy multiplier : number) (ls : list Letter) : Rand (list Letter) :=
  match ls with
  | [] => ret []
  | l :: rest =>
      l' <- update_letter bd vp wx wy multiplier l ;;
      rest' <- update_letters bd vp wx wy multiplier rest ;;
      ret (l' :: rest')
  end.

Definition update (bd : Bounds) (vp : Viewport) (w : t)
    (multiplier : number) : Rand t :=
  if negb (ready w) then ret w
  else
    let w := make (wordX w + wordVx w * multiplier)%js
               (wordY w + wordVy w * multiplier)%js
               (wordVx w) (wordVy w) (letters w) (ready w) in
    let w := bounce_word vp w in
    ls <- update_letters bd vp (wordX w) (wordY w) multiplier (letters w) ;;
    ret (with_letters w ls).

(** The snapshot of [serialise], after its passage through
    [JSON.stringify] and [JSON.parse]: a number that is not finite is
    stored as [null], read here as [None].  The icon name is not kept by
    the model of a letter and is not read back by the restoration. *)
Record SavedLetter : Type := {
  s_slotIndex : nat;
  s_bumpCount : option number;
  s_ejected : option bool;
  s_x : option number;
  s_y : option number;
  s_vx : option number;
  s_vy : option number
}.

Record Saved : Type := {
  s_wordX : option number;
  s_wordY : option number;
  s_wordVx : option number;
  s_wordVy : option number;
  s_letters : option (list (option SavedLetter))
}.

Definition json_number (n : number) : option number :=
  match n with Fin r => Some (Fin r) | NaN => None end.

(** [serialise()], as it is read back from the storage. *)
Definition serialise (w : t) : Saved :=
  {| s_wordX := json_number (wordX w);
     s_wordY := json_number (wordY w);
     s_wordVx := json_number (wordVx w);
     s_wordVy := json_number (wordVy w);
     s_letters :=
       Some (map (fun l =>
                    Some {| s_slotIndex := slotIndex l;
                            s_bumpCount := json_number (bumpCount l);
                            s_ejected := Some (ejected l);
                            s_x := json_number (x l);
                            s_y := json_number (y l);
                            s_vx := json_number (vx l);
                            s_vy := json_number (vy l) |})
               (letters w)) |}.

(** [a ?? b] *)
Definition nullish {A} (a : option A) (b : A) : A :=
  match a with Some v => v | None => b end.









Definition getHitCounts (w : t) : list number := map bumpCount (letters w).

Fixpoint setHitCounts_loop (counts : list (option number)) (i : nat)
    (ls : list Letter) : list Letter :=
  match ls with
  | [] => []
  | l :: rest =>
      LogoLetter.set_bumpCount l
        (nullish (match nth_error counts i with
                  | Some c => c
                  | None => None
                  end) (Fin 0))
      :: setHitCounts_loop counts (S i) rest
  end.

(** [setHitCounts(counts)]; the argument is [None] when it is no array,
    and an element is [None] when it is [null] or [undefined]. *)
Definition setHitCounts (w : t) (counts : option (list (option number)))
    : t :=
  match counts with
  | Some cs => with_letters w (setHitCounts_loop cs 0 (letters w))
  | None => w
  end.


End LogoController.
(** ** Predicates of the specification *)

(** The invariant of a trait-set: every entry is keyed by a gene of the
    registry and holds a value within the range of that gene. *)
Definition in_range (m : JsMap.t number) : Prop :=
  Forall (fun kv : string * number =>
            exists def v,
              JsMap.get Gene.GENE_DEFS (fst kv) = Some def
              /\ snd kv = Fin v
              /\ (Gene.min def <= v <= Gene.max def)%R) m.

(** A postcondition of a computation, over the streams that
    [Math.random()] can produce. *)
Definition rand_post {A} (m : Rand A) (Q : A -> Prop) : Prop :=
  forall s : RNG, rng_ok s -> Q (fst (m s)) /\ rng_ok (snd (m s)).

(** The position and the velocity of an entity. *)
Definition phys (e : Entity.t) : number * number * number * number :=
  (Entity.x e, Entity.y e, Entity.vx e, Entity.vy e).

(** The computation keeps the random stream within its interval. *)
Abbreviation rng_safe m := (rand_post m (fun _ => True)).

(** An entity that counts as live: alive and not in its death sequence. *)
Definition live (e : Entity.t) : bool :=
  Entity.alive e && negb (Entity.dying e).

(** The fields of an entity that only the positional correction and
    [onHit] write during a collision. *)
Definition placed (e : Entity.t) : number * number * nat :=
  (Entity.x e, Entity.y e, Entity.onHit_calls e).

(** A run of bumps on one letter, each with its collision normal. *)
Fixpoint bumps (bd : Logo.Bounds) (letter : Logo.Letter)
    (normals : list (number * number)) : Rand Logo.Letter :=
  match normals with
  | [] => ret letter
  | (nx, ny) :: rest =>
      letter' <- Logo.bump bd letter nx ny ;;
      bumps bd letter' rest
  end.


(** The centre of an entity. *)
Definition position (e : Entity.t) : number * number :=
  (Entity.x e, Entity.y e).

(** Two entities whose centres are at least a collision diameter apart. *)
Definition apart (a b : Entity.t) : Prop :=
  exists d : R,
    Math.hypot (Entity.x b - Entity.x a)%js (Entity.y b - Entity.y a)%js
    = Fin d
    /\ (24 <= d)%R.

(** What identifies an entity in the list of the controller and tells
    whether the tick keeps it: its name, its node and its [alive] flag. *)
Definition life (e : Entity.t) : string * bool * bool * bool :=
  (Entity.name e, Entity.el e, Entity.bodyEl e, Entity.alive e).

(** The kind of an entity and whether its death sequence has begun. *)
Definition fate (e : Entity.t) : string * bool :=
  (Entity.entityKey e, Entity.dying e).







(** ** Sample inputs, for the instances of the theorems *)

Module Sample.

Definition half_stream : RNG := fun _ => (1 / 2)%R.

Definition shielded_dna : DNA.t :=
  DNA.make [("shield"%string, Fin 1); ("speed"%string, Fin 1.2%R)].

(** A stored snapshot whose trait mapping has a key that is no gene but
    names a property of [Object.prototype]. *)
Definition snapshot_constructor : value :=
  VObject [("constructor"%string, VNumber (Fin 1))].

Definition snapshot_toString : value :=
  VObject [("speed"%string, VNumber (Fin 9));
           ("toString"%string, VNumber (Fin 0.5%R));
           ("wings"%string, VNumber (Fin 1))].

Definition viewport : Viewport :=
  {| innerWidth := Fin 800; innerHeight := Fin 600 |}.

Definition cell_at (x y vx vy : R) (d : DNA.t) : Entity.t :=
  Entity.make (Fin x) (Fin y) (Fin vx) (Fin vy) (Fin 0) "cell" "cell" "good"
    (Css "#a8ffb8") true d (Fin 100) true true false false 0 0.

(** A cell about to reach the left boundary, moving mostly downward. *)
Definition cell_left : Entity.t :=
  cell_at 12.01%R 300%R (-0.05)%R 0.8%R DNA.empty.

(** A stream whose first draw fires the kick of [update]. *)
Definition kick_stream : RNG :=
  fun n => match n with O => 0.01%R | S O => 0%R | _ => 0.5%R end.

(** A cell near the right and top edges. *)
Definition wide_cell : Entity.t := cell_at 790%R 5%R 0.3%R 0.4%R shielded_dna.

(** A viewport narrower than one icon, and a cell in it. *)
Definition narrow_viewport : Viewport :=
  {| innerWidth := Fin 20; innerHeight := Fin 600 |}.

Definition narrow_cell : Entity.t := cell_at 10%R 300%R 0.3%R 0.4%R DNA.empty.

Definition controller : Evolution.Controller :=
  {| Evolution.iconsData := true; Evolution.container := true;
     Evolution.virusKillChance := DEFAULTS.VIRUS_KILL_CHANCE;
     Evolution.moveSpeed := DEFAULTS.MOVE_SPEED |}.

Definition timed_cell (timer : R) (x y vx vy : R) (d : DNA.t) : Entity.t :=
  Entity.make (Fin x) (Fin y) (Fin vx) (Fin vy) (Fin 0) "cell" "cell" "good"
    (Css "#a8ffb8") true d (Fin timer) true true false false 0 0.

(** A cell whose countdown reaches zero in this tick. *)
Definition ready_cell : Entity.t :=
  timed_cell 1%R 400%R 300%R 0.3%R 0.4%R shielded_dna.

(** A cell far from the edges, in the middle of its countdown. *)
Definition idle_cell : Entity.t :=
  timed_cell 100%R 100%R 100%R 0.8%R 0%R DNA.empty.

(** A population one below the cap, with one cell about to divide. *)
Definition crowd : list Entity.t := ready_cell :: repeat idle_cell 48.

(** A stream whose draws are all 0.05: above the chance of the drift
    kick, below the mutation rate. *)
Definition drift_stream : RNG := fun _ => 0.05%R.

(** A cell in its death sequence, not yet removed from the collection. *)
Definition dying_cell : Entity.t :=
  Entity.make (Fin 200) (Fin 200) (Fin 0) (Fin 0) (Fin 0) "cell" "cell"
    "good" (Css "#a8ffb8") true DNA.empty (Fin 100) true true false true
    0 0.

(** A cell with a full shield, moving at speed 0.5. *)
Definition shielded_cell : Entity.t :=
  cell_at 400%R 300%R 0.3%R 0.4%R shielded_dna.

Definition virus_at (x y vx vy : R) : Entity.t :=
  Entity.make (Fin x) (Fin y) (Fin vx) (Fin vy) (Fin 0) "virus-filled" "cell"
    "good" (Css "#ff4d6d") true DNA.empty (Fin (-1)) true true true false 0 0.

(** A cell with a full shield, moving at speed 0.005. *)
Definition slow_shielded_cell : Entity.t :=
  cell_at 400%R 300%R 0.005%R 0%R shielded_dna.

Definition zero_stream : RNG := fun _ => 0%R.

(** A cell at rest that has received [hits] calls of [onHit]. *)
Definition resting_cell (x y : R) (hits : nat) : Entity.t :=
  Entity.make (Fin x) (Fin y) (Fin 0) (Fin 0) (Fin 0) "cell" "cell" "good"
    (Css "#a8ffb8") true DNA.empty (Fin 100) true true false false hits hits.

(** Three cells on a line: the first overlaps the second, 10 to its right,
    and the third, 10 to its left. *)
Definition row_a : Entity.t := resting_cell 100%R 100%R 0.
Definition row_b : Entity.t := resting_cell 110%R 100%R 0.
Definition row_c : Entity.t := resting_cell 90%R 100%R 0.

Definition bounds : Logo.Bounds :=
  {| Logo.LOGO_BUMP_THRESHOLD_MIN := Fin 1000;
     Logo.LOGO_BUMP_THRESHOLD_MAX := Fin 1200 |}.

(** The letter [a] of the word, at its threshold. *)
Definition letter_a : Logo.Letter :=
  Logo.mkLetter 2 (Fin 420) (Fin 300) (Fin 0) (Fin 0) false (Fin 1000)
    (Fin 4000) (Fin 1000) true.

(** A cell with a full shield, moving along x at the base speed. *)
Definition head_on_cell : Entity.t :=
  cell_at 400%R 300%R 0.8%R 0%R shielded_dna.

End Sample.


(** ** Further sample inputs *)

Module Scene.

Definition bug_at (x y vx vy : R) : Entity.t :=
  Entity.make (Fin x) (Fin y) (Fin vx) (Fin vy) (Fin 0) "bug" "bug" "bad"
    (Css "#ffd166") true DNA.empty (Fin (-1)) true true false false 0 0.

(** A trait-set with a resistance above the threshold of [forVirus]. *)
Definition resistant_dna : DNA.t :=
  DNA.make [("resistance"%string, Fin 0.4%R)].

(** A bug at distance 5 of [Sample.shielded_cell]. *)
Definition near_bug : Entity.t := bug_at 403%R 304%R 0%R 0%R.

(** A cell in the middle of the viewport, much faster than the cap. *)
Definition fast_cell : Entity.t :=
  Sample.cell_at 400%R 300%R 30%R (-40)%R DNA.empty.

(** A stream whose draws are all 0.01: every step of [reproduce] fires
    at the configured mutation rate. *)
Definition eager_stream : RNG := fun _ => 0.01%R.

(** A cell whose countdown is at zero. *)
Definition due_cell : Entity.t :=
  Sample.timed_cell 0%R 400%R 300%R 0.3%R 0.4%R Sample.shielded_dna.

(** A cell far away from [Sample.shielded_cell]. *)
Definition far_cell : Entity.t :=
  Sample.cell_at 100%R 100%R 0.1%R 0.1%R DNA.empty.

(** A controller with a kill chance below the resistance of
    [resistant_dna]. *)
Definition mild_controller : Evolution.Controller :=
  {| Evolution.iconsData := true; Evolution.container := true;
     Evolution.virusKillChance := Fin 0.3%R;
     Evolution.moveSpeed := DEFAULTS.MOVE_SPEED |}.

Definition resistant_cell : Entity.t :=
  Sample.cell_at 400%R 300%R 0.3%R 0.4%R resistant_dna.





(** The settings of the spawner at their defaults. *)
Definition settings : Spawner.Settings :=
  {| Spawner.spawnRate := Fin 5;
     Spawner.bugSpawnChance := DEFAULTS_more.BUG_SPAWN_CHANCE;
     Spawner.bugMaxCount := DEFAULTS_more.BUG_MAX_COUNT;
     Spawner.initial := "cell";
     Spawner.rare := Some "bug"%string |}.

End Scene.
(* ================================================================== *)
(** * Part II: properties                                              *)
(* ================================================================== *)

Open Scope R_scope.

(** ** Comparisons *)

Lemma Rltb_true (x y : R) : Num.Rltb x y = true <-> x < y.
Proof.
  unfold Num.Rltb. destruct (Rlt_dec x y); split; intros; try easy.
Qed.

Lemma Rltb_false (x y : R) : Num.Rltb x y = false <-> y <= x.
Proof.
  unfold Num.Rltb. destruct (Rlt_dec x y); split; intros; try easy; lra.
Qed.

Lemma Rleb_true (x y : R) : Num.Rleb x y = true <-> x <= y.
Proof.
  unfold Num.Rleb. destruct (Rle_dec x y); split; intros; try easy.
Qed.

Lemma Rleb_false (x y : R) : Num.Rleb x y = false <-> y < x.
Proof.
  unfold Num.Rleb. destruct (Rle_dec x y); split; intros; try easy; lra.
Qed.

Lemma Reqb_true (x y : R) : Num.Reqb x y = true <-> x = y.
Proof.
  unfold Num.Reqb. destruct (Req_dec_T x y); split; intros; try easy.
Qed.

Lemma Reqb_false (x y : R) : Num.Reqb x y = false <-> x <> y.
Proof.
  unfold Num.Reqb. destruct (Req_dec_T x y); split; intros; try easy.
Qed.

(** Decide one real comparison in the goal by linear arithmetic. *)
Ltac rcmp :=
  match goal with
  | |- context [Num.Rltb ?x ?y] =>
      first [ replace (Num.Rltb x y) with true
                by (symmetry; apply Rltb_true; lra)
            | replace (Num.Rltb x y) with false
                by (symmetry; apply Rltb_false; lra) ]
  | |- context [Num.Rleb ?x ?y] =>
      first [ replace (Num.Rleb x y) with true
                by (symmetry; apply Rleb_true; lra)
            | replace (Num.Rleb x y) with false
                by (symmetry; apply Rleb_false; lra) ]
  | |- context [Num.Reqb ?x ?y] =>
      first [ replace (Num.Reqb x y) with true
                by (symmetry; apply Reqb_true; lra)
            | replace (Num.Reqb x y) with false
                by (symmetry; apply Reqb_false; lra) ]
  end.

(** A true comparison has finite operands. *)
Lemma le_true_inv (a b : number) :
  (a <=? b)%js = true -> exists x y, a = Fin x /\ b = Fin y /\ x <= y.
Proof.
  destruct a as [x|], b as [y|]; simpl; try discriminate.
  intros H. exists x, y. apply Rleb_true in H. auto.
Qed.

Lemma lt_true_inv (a b : number) :
  (a <? b)%js = true -> exists x y, a = Fin x /\ b = Fin y /\ x < y.
Proof.
  destruct a as [x|], b as [y|]; simpl; try discriminate.
  intros H. exists x, y. apply Rltb_true in H. auto.
Qed.

(** ** The random stream *)

Lemma rng_ok_tail (s : RNG) : rng_ok s -> rng_ok (rng_tail s).
Proof. intros H n. apply (H (S n)). Qed.

Lemma random_not_below_zero (s : RNG) (z : R) :
  rng_ok s -> z <= 0 -> (Fin (s 0%nat) <? Fin z)%js = false.
Proof.
  intros H Hz. simpl. apply Rltb_false. specialize (H 0%nat). lra.
Qed.

(** ** Maps *)

Lemma JsMap_has_false {V} (m : JsMap.t V) (k : string) :
  JsMap.has m k = false <-> JsMap.get m k = None.
Proof.
  unfold JsMap.has. destruct (JsMap.get m k); split; intros; easy.
Qed.

(** ** The gene model *)

Section Reproduce_at_rate_zero.

Variable pool : string.

Lemma drift_zero (entries : list (string * number)) :
  forall (m : JsMap.t number) (s : RNG),
    rng_ok s ->
    fst (DNA.drift (Fin 0) entries m s) = m
    /\ rng_ok (snd (DNA.drift (Fin 0) entries m s)).
Proof.
  induction entries as [|[gene value] rest IH]; intros m s Hs.
  - simpl. auto.
  - simpl. unfold bind, Math.random.
    rewrite (random_not_below_zero Hs) by lra.
    apply IH. now apply rng_ok_tail.
Qed.

Lemma emerge_zero (m : JsMap.t number) (s : RNG) :
  rng_ok s ->
  fst (DNA.emerge (Fin 0) pool m s) = m
  /\ rng_ok (snd (DNA.emerge (Fin 0) pool m s)).
Proof.
  intros Hs. unfold DNA.emerge, bind, Math.random.
  change (Fin 0 * Fin 0.4)%js with (Fin (0 * 0.4)).
  rewrite (random_not_below_zero Hs) by lra.
  simpl. split; [reflexivity | now apply rng_ok_tail].
Qed.

Lemma silence_zero (m : JsMap.t number) (s : RNG) :
  rng_ok s -> fst (DNA.silence (Fin 0) m s) = m.
Proof.
  intros Hs. unfold DNA.silence.
  destruct (0 <? JsMap.size m)%nat; [|reflexivity].
  unfold bind, Math.random.
  change (Fin 0 * Fin 0.15)%js with (Fin (0 * 0.15)).
  rewrite (random_not_below_zero Hs) by lra.
  reflexivity.
Qed.

End Reproduce_at_rate_zero.

(** C4.  At mutation rate 0, [reproduce] returns the genes of the parent,
    entry for entry, for every gene pool and every random stream: no draw of
    [Math.random()] is below 0, so none of drift, emergence and silencing
    fires. *)
Theorem reproduce_rate_zero (d : DNA.t) (pool : string) (s : RNG) :
  rng_ok s ->
  fst (DNA.reproduce d (Fin 0) pool s) = d.
Proof.
  intros Hs. unfold DNA.reproduce, bind at 1.
  destruct (drift_zero (DNA.genes d) (DNA.genes d) Hs) as [E1 H1].
  destruct (DNA.drift (Fin 0) (DNA.genes d) (DNA.genes d) s) as [m1 s1].
  simpl in E1, H1. subst m1. unfold bind at 1.
  destruct (emerge_zero pool (DNA.genes d) H1) as [E2 H2].
  destruct (DNA.emerge (Fin 0) pool (DNA.genes d) s1) as [m2 s2].
  simpl in E2, H2. subst m2. unfold bind.
  pose proof (silence_zero (DNA.genes d) H2) as E3.
  destruct (DNA.silence (Fin 0) (DNA.genes d) s2) as [m3 s3].
  simpl in E3. subst m3. simpl. now destruct d.
Qed.

Lemma half_stream_ok : rng_ok Sample.half_stream.
Proof. intros n. unfold Sample.half_stream; lra. Qed.

Lemma reproduce_rate_zero_witness :
  rng_ok Sample.half_stream
  /\ fst (DNA.reproduce Sample.shielded_dna (Fin 0) "cell" Sample.half_stream)
     = Sample.shielded_dna.
Proof.
  split; [exact half_stream_ok |].
  apply reproduce_rate_zero. exact half_stream_ok.
Defined.

(** C9.  For a gene name that is neither active in the trait-set nor an own
    property of the registry, [get] returns 0: the read of [default] on a
    missing or inherited property is [undefined], which [??] replaces. *)
Theorem get_unknown_gene (d : DNA.t) (gene : string) :
  DNA.has d gene = false ->
  JsMap.get Gene.GENE_DEFS gene = None ->
  DNA.get d gene = Fin 0.
Proof.
  intros Hact Hreg. unfold DNA.has in Hact. apply JsMap_has_false in Hact.
  unfold DNA.get, Gene.GENE_DEFS_get. rewrite Hact, Hreg.
  now destruct (in_dec string_dec gene Gene.Object_prototype).
Qed.

Lemma get_unknown_gene_witness :
  DNA.has Sample.shielded_dna "toString" = false
  /\ JsMap.get Gene.GENE_DEFS "toString" = None
  /\ DNA.get Sample.shielded_dna "toString" = Fin 0.
Proof.
  split; [reflexivity | split; [reflexivity |]].
  apply get_unknown_gene; reflexivity.
Defined.

(** ** Maps and the range invariant *)

Lemma JsMap_set_Forall {V} (P : string * V -> Prop) (m : JsMap.t V)
    (k : string) (v : V) :
  Forall P m -> P (k, v) -> Forall P (JsMap.set m k v).
Proof.
  intros Hm Hkv. induction m as [|[k' v'] rest IH]; simpl.
  - constructor; [exact Hkv | constructor].
  - inversion Hm; subst. destruct (String.eqb k' k) eqn:E.
    + apply String.eqb_eq in E. subst k'. now constructor.
    + constructor; auto.
Qed.

Lemma JsMap_delete_Forall {V} (P : string * V -> Prop) (m : JsMap.t V)
    (k : string) :
  Forall P m -> Forall P (JsMap.delete m k).
Proof.
  intros Hm. induction m as [|[k' v'] rest IH]; simpl; [constructor|].
  inversion Hm; subst. destruct (String.eqb k' k); [assumption|].
  constructor; auto.
Qed.

Lemma JsMap_get_None_notin {V} (m : JsMap.t V) (k : string) :
  JsMap.get m k = None <-> ~ In k (JsMap.keys m).
Proof.
  induction m as [|[k' v'] rest IH]; simpl.
  - split; [intros _ [] | reflexivity].
  - destruct (String.eqb k' k) eqn:E.
    + apply String.eqb_eq in E. split; [discriminate | intros H].
      exfalso. apply H. now left.
    + apply String.eqb_neq in E. rewrite IH. split.
      * intros H [H1|H1]; [now apply E | now apply H].
      * intros H H1. apply H. now right.
Qed.

Lemma JsMap_get_In {V} (m : JsMap.t V) (k : string) (v : V) :
  JsMap.get m k = Some v -> In (k, v) m.
Proof.
  induction m as [|[k' v'] rest IH]; simpl; [discriminate|].
  destruct (String.eqb k' k) eqn:E.
  - apply String.eqb_eq in E. intros [= ->]. left. now subst.
  - intros H. right. now apply IH.
Qed.

Lemma JsMap_set_fresh {V} (m : JsMap.t V) (k : string) (v : V) :
  ~ In k (JsMap.keys m) -> JsMap.set m k v = m ++ [(k, v)].
Proof.
  induction m as [|[k' v'] rest IH]; simpl; intros H; [reflexivity|].
  destruct (String.eqb k' k) eqn:E.
  - apply String.eqb_eq in E. exfalso. apply H. now left.
  - f_equal. apply IH. intros H1. apply H. now right.
Qed.

(** The clamp [Math.max(min, Math.min(max, v))]. *)
Lemma clamp_bounds (lo hi v : R) :
  lo <= hi -> lo <= Rmax lo (Rmin hi v) <= hi.
Proof.
  intros H. unfold Rmax, Rmin.
  destruct (Rle_dec hi v); destruct (Rle_dec lo _); lra.
Qed.

Lemma clamp_id (lo hi v : R) :
  lo <= v <= hi -> Rmax lo (Rmin hi v) = v.
Proof.
  intros H. unfold Rmax, Rmin.
  destruct (Rle_dec hi v); destruct (Rle_dec lo _); lra.
Qed.

(** Every range of the registry is a proper interval. *)
Lemma GENE_DEFS_ranges (key : string) (def : Gene.GeneDef) :
  JsMap.get Gene.GENE_DEFS key = Some def -> Gene.min def <= Gene.max def.
Proof.
  intros H. apply JsMap_get_In in H. simpl in H.
  repeat (destruct H as [H|H]; [inversion H; subst; simpl; lra|]).
  destruct H.
Qed.

Lemma GENE_DEFS_get_own (key : string) (def : Gene.GeneDef) :
  JsMap.get Gene.GENE_DEFS key = Some def ->
  Gene.GENE_DEFS_get key = Gene.Own def.
Proof. intros H. unfold Gene.GENE_DEFS_get. now rewrite H. Qed.

(** ** Reasoning about computations that draw random numbers *)

Lemma bind_run {A B} (m : Rand A) (k : A -> Rand B) (s : RNG) :
  bind m k s = k (fst (m s)) (snd (m s)).
Proof. unfold bind. now destruct (m s). Qed.

Lemma rand_post_ret {A} (a : A) (Q : A -> Prop) :
  Q a -> rand_post (ret a) Q.
Proof. intros H s Hs. simpl. auto. Qed.

Lemma rand_post_bind {A B} (m : Rand A) (k : A -> Rand B)
    (P : A -> Prop) (Q : B -> Prop) :
  rand_post m P ->
  (forall a, P a -> rand_post (k a) Q) ->
  rand_post (bind m k) Q.
Proof.
  intros Hm Hk s Hs. rewrite bind_run.
  destruct (Hm s Hs) as [Ha Hs']. now apply Hk.
Qed.

Lemma rand_post_random :
  rand_post Math.random (fun r => exists x, r = Fin x /\ 0 <= x < 1).
Proof.
  intros s Hs. simpl. split.
  - exists (s 0%nat). split; [reflexivity | apply Hs].
  - now apply rng_ok_tail.
Qed.

Lemma rand_post_weaken {A} (m : Rand A) (P Q : A -> Prop) :
  rand_post m P -> (forall a, P a -> Q a) -> rand_post m Q.
Proof. intros Hm HPQ s Hs. destruct (Hm s Hs). auto. Qed.

(** ** The range invariant through [reproduce] *)

Section Reproduce_in_range.

Variable mutationRate : number.
Variable pool : string.

Lemma drift_in_range (entries : list (string * number)) :
  forall m : JsMap.t number,
    in_range entries -> in_range m ->
    rand_post (DNA.drift mutationRate entries m) in_range.
Proof.
  induction entries as [|[gene value] rest IH]; intros m He Hm; simpl.
  - now apply rand_post_ret.
  - inversion He as [|? ? Hhd Htl]; subst.
    destruct Hhd as (def & v & Hdef & Hv & Hrange). simpl in Hdef, Hv.
    subst value.
    eapply rand_post_bind; [apply rand_post_random|].
    intros r (x & -> & Hx).
    destruct (Fin x <? mutationRate)%js; [|now apply IH].
    rewrite (GENE_DEFS_get_own _ Hdef).
    eapply rand_post_bind; [apply rand_post_random|].
    intros r' (x' & -> & Hx'). simpl. apply IH; [assumption|].
    apply JsMap_set_Forall; [assumption|].
    exists def. eexists. simpl. split; [exact Hdef | split; [reflexivity|]].
    apply clamp_bounds. lra.
Qed.

Lemma candidates_in_registry (m : JsMap.t number) (key : string) :
  In key (DNA.candidates pool m) ->
  exists def, JsMap.get Gene.GENE_DEFS key = Some def.
Proof.
  unfold DNA.candidates. intros H. apply in_map_iff in H.
  destruct H as ([k d] & <- & H). apply filter_In in H. destruct H as [H _].
  destruct (JsMap.get Gene.GENE_DEFS (fst (k, d))) eqn:E; [eauto|].
  apply JsMap_get_None_notin in E. exfalso. apply E.
  unfold JsMap.keys. apply in_map_iff. now exists (k, d).
Qed.

Lemma array_get_In {A} (l : list A) (i : number) (a : A) :
  array_get l i = Some a -> In a l.
Proof.
  unfold array_get. destruct (Num.to_index i); [|discriminate].
  apply nth_error_In.
Qed.

Lemma emerge_in_range (m : JsMap.t number) :
  in_range m -> rand_post (DNA.emerge mutationRate pool m) in_range.
Proof.
  intros Hm. unfold DNA.emerge.
  eapply rand_post_bind; [apply rand_post_random|].
  intros r (x & -> & Hx).
  destruct (Fin x <? mutationRate * Fin 0.4)%js; [|now apply rand_post_ret].
  destruct (0 <? length (DNA.candidates pool m))%nat;
    [|now apply rand_post_ret].
  eapply rand_post_bind; [apply rand_post_random|].
  intros r' (x' & -> & Hx').
  destruct (array_get _ _) as [key|] eqn:E; [|now apply rand_post_ret].
  apply array_get_In, candidates_in_registry in E. destruct E as [def Hdef].
  apply rand_post_ret. rewrite (GENE_DEFS_get_own _ Hdef). simpl.
  apply JsMap_set_Forall; [assumption|].
  exists def. eexists. simpl. split; [exact Hdef | split; [reflexivity|]].
  pose proof (GENE_DEFS_ranges _ Hdef). lra.
Qed.

Lemma silence_in_range (m : JsMap.t number) :
  in_range m -> rand_post (DNA.silence mutationRate m) in_range.
Proof.
  intros Hm. unfold DNA.silence.
  destruct (0 <? JsMap.size m)%nat; [|now apply rand_post_ret].
  eapply rand_post_bind; [apply rand_post_random|].
  intros r (x & -> & Hx).
  destruct (Fin x <? mutationRate * Fin 0.15)%js; [|now apply rand_post_ret].
  eapply rand_post_bind; [apply rand_post_random|].
  intros r' (x' & -> & Hx').
  destruct (array_get _ _) as [key|]; apply rand_post_ret; [|assumption].
  now apply JsMap_delete_Forall.
Qed.

(** The three mutation steps keep every stored value within the range of
    its gene, at any mutation rate and for any draws. *)
Lemma reproduce_in_range (d : DNA.t) :
  in_range (DNA.genes d) ->
  rand_post (DNA.reproduce d mutationRate pool)
    (fun child => in_range (DNA.genes child)).
Proof.
  intros Hd. unfold DNA.reproduce.
  eapply rand_post_bind; [now apply drift_in_range|].
  intros m1 H1. eapply rand_post_bind; [now apply emerge_in_range|].
  intros m2 H2. eapply rand_post_bind; [now apply silence_in_range|].
  intros m3 H3. now apply rand_post_ret.
Qed.

End Reproduce_in_range.

(** ** [serialise] and [deserialise] *)

Lemma of_entries_nodup {V} (l : list (string * V)) :
  forall acc : JsMap.t V,
    NoDup (JsMap.keys (acc ++ l)) ->
    fold_left (fun m kv => JsMap.set m (fst kv) (snd kv)) l acc = acc ++ l.
Proof.
  induction l as [|[k v] rest IH]; intros acc H; simpl.
  - now rewrite app_nil_r.
  - assert (E : acc ++ (k, v) :: rest = (acc ++ [(k, v)]) ++ rest)
      by now rewrite <- app_assoc.
    rewrite E in *. rewrite JsMap_set_fresh.
    + now apply IH.
    + unfold JsMap.keys in H. rewrite !map_app in H. simpl in H.
      rewrite <- app_assoc in H. simpl in H.
      apply NoDup_remove_2 in H. intros Hin. apply H.
      apply in_or_app. now left.
Qed.

Lemma deserialise_loop_in_range (g : list (string * number)) :
  forall acc : JsMap.t number,
    in_range g ->
    NoDup (JsMap.keys (acc ++ g)) ->
    DNA.deserialise_loop (map (fun kv => (fst kv, VNumber (snd kv))) g) acc
    = acc ++ g.
Proof.
  induction g as [|[k v] rest IH]; intros acc Hg H; simpl.
  - now rewrite app_nil_r.
  - inversion Hg as [|? ? Hhd Htl]; subst.
    destruct Hhd as (def & x & Hdef & Hx & Hrange). simpl in Hdef, Hx.
    subst v. rewrite (GENE_DEFS_get_own _ Hdef). simpl.
    rewrite clamp_id by exact Hrange.
    assert (E : acc ++ (k, Fin x) :: rest = (acc ++ [(k, Fin x)]) ++ rest)
      by now rewrite <- app_assoc.
    rewrite E in *. rewrite JsMap_set_fresh.
    + now apply IH.
    + unfold JsMap.keys in H. rewrite !map_app in H. simpl in H.
      rewrite <- app_assoc in H. simpl in H.
      apply NoDup_remove_2 in H. intros Hin. apply H.
      apply in_or_app. now left.
Qed.

(** Round trip: a trait-set within its ranges is restored entry for entry. *)
Lemma deserialise_serialise (d : DNA.t) :
  JsMap.wf (DNA.genes d) ->
  in_range (DNA.genes d) ->
  DNA.deserialise (DNA.serialise d) = d.
Proof.
  intros Hwf Hr. destruct d as [g]. simpl in *.
  unfold DNA.serialise, DNA.deserialise, JsMap.of_entries. simpl.
  rewrite of_entries_nodup.
  - simpl. now rewrite deserialise_loop_in_range.
  - simpl. unfold JsMap.keys. rewrite map_map. exact Hwf.
Qed.

(** What [deserialise] stores under a key: a clamped value for a gene of
    the registry, nothing for a name that [GENE_DEFS[key]] does not find. *)
Lemma deserialise_loop_keys (entries : list (string * value)) :
  forall (acc : JsMap.t number) (P : string * number -> Prop),
    Forall P acc ->
    (forall key n, In (key, VNumber n) entries ->
       Gene.GENE_DEFS_get key <> Gene.Undefined ->
       P (key, Math.max (Gene.field Gene.min (Gene.GENE_DEFS_get key))
                 (Math.min (Gene.field Gene.max (Gene.GENE_DEFS_get key)) n))) ->
    Forall P (DNA.deserialise_loop entries acc).
Proof.
  induction entries as [|[key v] rest IH]; intros acc P Hacc HP; simpl.
  - exact Hacc.
  - assert (Hrest : forall key n, In (key, VNumber n) rest ->
              Gene.GENE_DEFS_get key <> Gene.Undefined ->
              P (key, Math.max (Gene.field Gene.min (Gene.GENE_DEFS_get key))
                  (Math.min (Gene.field Gene.max (Gene.GENE_DEFS_get key)) n)))
      by (intros; apply HP; [now right | assumption]).
    destruct v; try (now apply IH).
    destruct (Gene.GENE_DEFS_get key) eqn:E; try (now apply IH);
      (apply IH; [|assumption]);
      (apply JsMap_set_Forall; [assumption|]);
      specialize (HP key n (or_introl eq_refl)); rewrite E in HP;
      apply HP; discriminate.
Qed.

(** On an object whose numbers are finite and whose keys are not property
    names of [Object.prototype], [deserialise] keeps genes of the registry
    only, each with a value clamped into its range. *)
Lemma deserialise_in_range (entries : list (string * value)) :
  (forall key n, In (key, VNumber n) entries ->
     ~ In key Gene.Object_prototype /\ exists x, n = Fin x) ->
  in_range (DNA.genes (DNA.deserialise (VObject entries))).
Proof.
  intros H. simpl. apply deserialise_loop_keys; [constructor|].
  intros key n Hin Hdef. destruct (H key n Hin) as [Hproto [x ->]].
  unfold Gene.GENE_DEFS_get in *.
  destruct (JsMap.get Gene.GENE_DEFS key) as [def|] eqn:E.
  - exists def. eexists. simpl. split; [exact E | split; [reflexivity|]].
    apply clamp_bounds. now apply GENE_DEFS_ranges with key.
  - destruct (in_dec string_dec key Gene.Object_prototype); easy.
Qed.

(** A name that [GENE_DEFS[key]] does not find, on the object or on its
    prototype, is dropped. *)
Lemma deserialise_drops_missing (obj : value) (key : string) :
  Gene.GENE_DEFS_get key = Gene.Undefined ->
  DNA.has (DNA.deserialise obj) key = false.
Proof.
  intros Hkey. unfold DNA.has. apply JsMap_has_false.
  destruct (JsMap.get (DNA.genes (DNA.deserialise obj)) key) as [v|] eqn:E;
    [|reflexivity].
  exfalso. apply JsMap_get_In in E.
  assert (H : Forall (fun kv : string * number =>
                        Gene.GENE_DEFS_get (fst kv) <> Gene.Undefined)
                (DNA.genes (DNA.deserialise obj))).
  { destruct obj; try constructor.
    apply deserialise_loop_keys; [constructor | auto]. }
  rewrite Forall_forall in H. now apply (H _ E).
Qed.

(** C5.  The range invariant fails in [deserialise]: the key [constructor]
    is no gene, yet [GENE_DEFS["constructor"]] finds the inherited property,
    the test [!def] lets it pass, and the clamp between two [undefined]
    bounds stores NaN.  The mutation steps of [reproduce] do keep the
    invariant (lemma [reproduce_in_range]). *)
Theorem deserialise_stores_out_of_range :
  DNA.genes (DNA.deserialise Sample.snapshot_constructor)
  = [("constructor"%string, NaN)]
  /\ ~ in_range (DNA.genes (DNA.deserialise Sample.snapshot_constructor)).
Proof.
  split; [reflexivity|].
  intros H. simpl in H. inversion H as [|? ? Hhd Htl]; subst.
  destruct Hhd as (def & v & Hdef & _). discriminate Hdef.
Qed.

(** C6.  [deserialise] does not drop every unknown gene name: of the three
    keys of the sample, the gene [speed] is kept and clamped to its maximum,
    the unknown [wings] is dropped, but the unknown [toString] stays, with
    the value NaN.  The round trip itself holds (lemma
    [deserialise_serialise]). *)
Theorem deserialise_keeps_inherited_name :
  DNA.genes (DNA.deserialise Sample.snapshot_toString)
  = [("speed"%string, Fin (Rmax 0.7 (Rmin 1.5 9))); ("toString"%string, NaN)]
  /\ JsMap.get Gene.GENE_DEFS "toString" = None
  /\ DNA.has (DNA.deserialise Sample.snapshot_toString) "toString" = true.
Proof. repeat split. Qed.

(** ** The edge bounce of [Entity.update] *)

Lemma kick_position (e : Entity.t) (s : RNG) :
  Entity.x (fst (Entity.kick e s)) = Entity.x e
  /\ Entity.y (fst (Entity.kick e s)) = Entity.y e.
Proof.
  unfold Entity.kick. rewrite bind_run.
  destruct (fst (Math.random s) <? DEFAULTS.DRIFT_CHANCE)%js; [|now simpl].
  rewrite !bind_run.
  match goal with |- context [if ?c then _ else _] => destruct c end;
    now simpl.
Qed.

Lemma kick_quiet (e : Entity.t) (s : RNG) :
  (Fin (s 0%nat) <? DEFAULTS.DRIFT_CHANCE)%js = false ->
  fst (Entity.kick e s) = e.
Proof.
  intros H. unfold Entity.kick. rewrite bind_run.
  change (fst (Math.random s)) with (Fin (s 0%nat)). now rewrite H.
Qed.

Lemma abs_abs (a : number) : Math.abs (Math.abs a) = Math.abs a.
Proof. destruct a; simpl; [now rewrite Rabs_Rabsolu | reflexivity]. Qed.

Lemma abs_neg_abs (a : number) : Math.abs (- Math.abs a)%js = Math.abs a.
Proof.
  destruct a; simpl; [now rewrite Rabs_Ropp, Rabs_Rabsolu | reflexivity].
Qed.

Lemma bounce_right (vp : Viewport) (e : Entity.t) :
  (Entity.x e + DEFAULTS.ICON_HALF >=? innerWidth vp)%js = true ->
  Entity.x (Entity.bounce vp e) = (innerWidth vp - DEFAULTS.ICON_HALF)%js
  /\ Entity.vx (Entity.bounce vp e) = (- Math.abs (Entity.vx e))%js.
Proof.
  intros H. unfold Entity.bounce.
  destruct (Entity.x e - DEFAULTS.ICON_HALF <=? Fin 0)%js eqn:L.
  - assert (R2 : (Entity.x (Entity.set_vx (Entity.set_x e DEFAULTS.ICON_HALF)
                      (Math.abs (Entity.vx e))) + DEFAULTS.ICON_HALF
                  >=? innerWidth vp)%js = true).
    { simpl. destruct (Entity.x e) as [x|]; [|discriminate].
      destruct (innerWidth vp) as [w|]; [|discriminate].
      simpl in *. apply Rleb_true in H, L. apply Rleb_true. lra. }
    rewrite R2.
    repeat match goal with |- context [if ?c then _ else _] => destruct c end;
      simpl; now rewrite abs_abs.
  - rewrite H.
    repeat match goal with |- context [if ?c then _ else _] => destruct c end;
      now simpl.
Qed.

Lemma bounce_left (vp : Viewport) (e : Entity.t) :
  (Entity.x e - DEFAULTS.ICON_HALF <=? Fin 0)%js = true ->
  (DEFAULTS.ICON_HALF + DEFAULTS.ICON_HALF >=? innerWidth vp)%js = false ->
  Entity.x (Entity.bounce vp e) = DEFAULTS.ICON_HALF
  /\ Entity.vx (Entity.bounce vp e) = Math.abs (Entity.vx e).
Proof.
  intros L W. unfold Entity.bounce. rewrite L.
  replace (Entity.x (Entity.set_vx (Entity.set_x e DEFAULTS.ICON_HALF)
                      (Math.abs (Entity.vx e)))) with DEFAULTS.ICON_HALF
    by reflexivity.
  rewrite W.
  repeat match goal with |- context [if ?c then _ else _] => destruct c end;
    now simpl.
Qed.

Ltac entity_fields :=
  cbn [Entity.x Entity.y Entity.vx Entity.vy Entity.dna Entity.entityKey
       Entity.alive Entity.dying Entity.el Entity.bodyEl Entity.infected
       Entity._divisionTimer Entity.onHit_calls Entity.hit_flashes
       Entity.rotation Entity.name Entity.type Entity.color
       Entity.set_x Entity.set_y Entity.set_vx Entity.set_vy
       Entity.set_dna Entity.set_entityKey Entity.set_divisionTimer
       Entity.set_infected Entity.set_dying Entity.set_hits] in *.

Lemma bounce_bottom (vp : Viewport) (e : Entity.t) :
  (Entity.y e + DEFAULTS.ICON_HALF >=? innerHeight vp)%js = true ->
  Entity.y (Entity.bounce vp e) = (innerHeight vp - DEFAULTS.ICON_HALF)%js
  /\ Entity.vy (Entity.bounce vp e) = (- Math.abs (Entity.vy e))%js.
Proof.
  intros H. unfold Entity.bounce.
  destruct (Entity.x e - DEFAULTS.ICON_HALF <=? Fin 0)%js;
    match goal with
    | |- context [if (Entity.x ?a + _ >=? _)%js then _ else _] =>
        destruct (Entity.x a + DEFAULTS.ICON_HALF >=? innerWidth vp)%js
    end; entity_fields;
    (destruct (Entity.y e - DEFAULTS.ICON_HALF <=? Fin 0)%js eqn:T;
     entity_fields;
     [ assert (B : (DEFAULTS.ICON_HALF + DEFAULTS.ICON_HALF
                    >=? innerHeight vp)%js = true)
         by (destruct (Entity.y e) as [y|]; [|discriminate];
             destruct (innerHeight vp) as [w|]; [|discriminate];
             simpl in *; apply Rleb_true in H, T; apply Rleb_true; lra);
       rewrite B; entity_fields; now rewrite abs_abs
     | rewrite H; entity_fields; auto ]).
Qed.

Lemma bounce_top (vp : Viewport) (e : Entity.t) :
  (Entity.y e - DEFAULTS.ICON_HALF <=? Fin 0)%js = true ->
  (DEFAULTS.ICON_HALF + DEFAULTS.ICON_HALF >=? innerHeight vp)%js = false ->
  Entity.y (Entity.bounce vp e) = DEFAULTS.ICON_HALF
  /\ Entity.vy (Entity.bounce vp e) = Math.abs (Entity.vy e).
Proof.
  intros T W. unfold Entity.bounce.
  destruct (Entity.x e - DEFAULTS.ICON_HALF <=? Fin 0)%js;
    match goal with
    | |- context [if (Entity.x ?a + _ >=? _)%js then _ else _] =>
        destruct (Entity.x a + DEFAULTS.ICON_HALF >=? innerWidth vp)%js
    end; entity_fields; rewrite T; entity_fields; rewrite W; auto.
Qed.

Lemma moved_finite (p v k g h w : number) :
  (p + v * k * g - h <=? w)%js = true \/ (p + v * k * g + h >=? w)%js = true ->
  exists r, v = Fin r.
Proof.
  destruct v as [r|]; [eauto|].
  destruct p, k, g, h, w; simpl; intros [H|H]; discriminate.
Qed.

Lemma sqrt_le_bound (x c : R) : 0 <= c -> x <= c * c -> sqrt x <= c.
Proof.
  intros Hc Hx. rewrite <- (sqrt_square c Hc). now apply sqrt_le_1_alt.
Qed.

(** The kick, when it fires and the speed cap does not apply. *)
Lemma kick_fires (e : Entity.t) (s : RNG) :
  (Fin (s 0%nat) <? DEFAULTS.DRIFT_CHANCE)%js = true ->
  let vx1 := (Entity.vx e
              + (Fin (s 1%nat) - Fin 0.5) * DEFAULTS.DRIFT_MAGNITUDE)%js in
  let vy1 := (Entity.vy e
              + (Fin (s 2%nat) - Fin 0.5) * DEFAULTS.DRIFT_MAGNITUDE)%js in
  (Math.hypot vx1 vy1
   >? DEFAULTS.BASE_SPEED * DEFAULTS.MAX_SPEED_FACTOR)%js = false ->
  Entity.vx (fst (Entity.kick e s)) = vx1
  /\ Entity.vy (fst (Entity.kick e s)) = vy1.
Proof.
  intros H vx1 vy1 Hcap. unfold Entity.kick. rewrite bind_run.
  change (fst (Math.random s)) with (Fin (s 0%nat)). rewrite H.
  rewrite !bind_run. entity_fields.
  change (fst (Math.random (snd (Math.random s)))) with (Fin (s 1%nat)).
  change (fst (Math.random (snd (Math.random (snd (Math.random s))))))
    with (Fin (s 2%nat)).
  fold vx1 vy1. rewrite Hcap. now entity_fields.
Qed.

Lemma phys_eq (a b : Entity.t) :
  phys a = phys b <->
  Entity.x a = Entity.x b /\ Entity.y a = Entity.y b
  /\ Entity.vx a = Entity.vx b /\ Entity.vy a = Entity.vy b.
Proof.
  unfold phys. split.
  - intros [= -> -> -> ->]. auto.
  - intros (-> & -> & -> & ->). reflexivity.
Qed.

Lemma bounce_phys (vp : Viewport) (a b : Entity.t) :
  phys a = phys b -> phys (Entity.bounce vp a) = phys (Entity.bounce vp b).
Proof.
  intros H. apply phys_eq in H. destruct a, b. entity_fields.
  destruct H as (-> & -> & -> & ->).
  unfold Entity.bounce, phys. entity_fields.
  destruct (x0 - DEFAULTS.ICON_HALF <=? Fin 0)%js; entity_fields;
    destruct (_ + DEFAULTS.ICON_HALF >=? innerWidth vp)%js; entity_fields;
    destruct (y0 - DEFAULTS.ICON_HALF <=? Fin 0)%js; entity_fields;
    destruct (_ + DEFAULTS.ICON_HALF >=? innerHeight vp)%js; entity_fields;
    reflexivity.
Qed.

Lemma kick_phys (a b : Entity.t) (s : RNG) :
  phys a = phys b ->
  phys (fst (Entity.kick a s)) = phys (fst (Entity.kick b s)).
Proof.
  intros H. apply phys_eq in H. destruct a, b. entity_fields.
  destruct H as (-> & -> & -> & ->).
  unfold Entity.kick. rewrite !bind_run.
  destruct (fst (Math.random s) <? DEFAULTS.DRIFT_CHANCE)%js;
    [|reflexivity].
  rewrite !bind_run. entity_fields.
  match goal with
  | |- context [(?c >? ?m)%js] => destruct (c >? m)%js
  end; reflexivity.
Qed.

Lemma update_phys (vp : Viewport) (e : Entity.t) (mult : number) (s : RNG) :
  Entity.el e = true -> Entity.alive e = true -> Entity.dying e = false ->
  phys (fst (Entity.update vp e mult s))
  = phys (fst (Entity.kick (Entity.bounce vp (Entity.move mult e)) s)).
Proof.
  intros H1 H2 H3. unfold Entity.update. rewrite H1, H2, H3. simpl negb.
  cbv iota. simpl orb. cbv iota.
  apply kick_phys, bounce_phys.
  destruct (_ && _); reflexivity.
Qed.

Lemma moved_x_finite (mult : number) (e : Entity.t) (h w : number) :
  (Entity.x (Entity.move mult e) - h <=? w)%js = true
  \/ (Entity.x (Entity.move mult e) + h >=? w)%js = true ->
  exists r, Entity.vx e = Fin r.
Proof. unfold Entity.move. entity_fields. apply moved_finite. Qed.

Lemma moved_y_finite (mult : number) (e : Entity.t) (h w : number) :
  (Entity.y (Entity.move mult e) - h <=? w)%js = true
  \/ (Entity.y (Entity.move mult e) + h >=? w)%js = true ->
  exists r, Entity.vy e = Fin r.
Proof. unfold Entity.move. entity_fields. apply moved_finite. Qed.

Lemma abs_sign (r : R) :
  (Math.abs (Fin r) >=? Fin 0)%js = true
  /\ (- Math.abs (Fin r) <=? Fin 0)%js = true.
Proof.
  pose proof (Rabs_pos r). simpl. split; apply Rleb_true; lra.
Qed.

(** C1 (amended).  For an entity that is alive, not dying and mounted, one
    call of [update] leaves the position exactly on each boundary that the
    movement step reached or crossed, at any depth: on the right and bottom
    boundaries always, on the left and top ones when the viewport is wider,
    respectively taller, than an icon.  The bounce sets the velocity
    component to its absolute value, or to the opposite on the right and
    bottom, so that it cannot point outward; this holds at the end of
    [update] when the random kick does not fire in that call. *)
Theorem update_edge_bounce (vp : Viewport) (e : Entity.t) (mult : number)
    (s : RNG) :
  Entity.el e = true -> Entity.alive e = true -> Entity.dying e = false ->
  let h := DEFAULTS.ICON_HALF in
  let moved := Entity.move mult e in
  let e' := fst (Entity.update vp e mult s) in
  let quiet := (Fin (s 0%nat) <? DEFAULTS.DRIFT_CHANCE)%js = false in
  ((Entity.x moved - h <=? Fin 0)%js = true ->
   (h + h >=? innerWidth vp)%js = false ->
   Entity.x e' = h
   /\ (quiet -> Entity.vx e' = Math.abs (Entity.vx e)
                /\ (Entity.vx e' >=? Fin 0)%js = true))
  /\ ((Entity.x moved + h >=? innerWidth vp)%js = true ->
      Entity.x e' = (innerWidth vp - h)%js
      /\ (quiet -> Entity.vx e' = (- Math.abs (Entity.vx e))%js
                   /\ (Entity.vx e' <=? Fin 0)%js = true))
  /\ ((Entity.y moved - h <=? Fin 0)%js = true ->
      (h + h >=? innerHeight vp)%js = false ->
      Entity.y e' = h
      /\ (quiet -> Entity.vy e' = Math.abs (Entity.vy e)
                   /\ (Entity.vy e' >=? Fin 0)%js = true))
  /\ ((Entity.y moved + h >=? innerHeight vp)%js = true ->
      Entity.y e' = (innerHeight vp - h)%js
      /\ (quiet -> Entity.vy e' = (- Math.abs (Entity.vy e))%js
                   /\ (Entity.vy e' <=? Fin 0)%js = true)).
Proof.
  intros Hel Hal Hdy h moved e' quiet.
  pose proof (update_phys vp e mult s Hel Hal Hdy) as P.
  apply phys_eq in P. fold e' in P. destruct P as (Px & Py & Pvx & Pvy).
  destruct (kick_position (Entity.bounce vp moved) s) as [Kx Ky].
  fold moved in Px, Py, Pvx, Pvy.
  rewrite Px, Py, Pvx, Pvy, Kx, Ky.
  assert (Q : quiet ->
            fst (Entity.kick (Entity.bounce vp moved) s)
            = Entity.bounce vp moved) by apply kick_quiet.
  assert (Mvx : Entity.vx moved = Entity.vx e) by reflexivity.
  assert (Mvy : Entity.vy moved = Entity.vy e) by reflexivity.
  split; [|split; [|split]].
  - intros L W. destruct (bounce_left vp moved L W) as [Bx Bvx].
    split; [exact Bx|]. intros Hq. rewrite (Q Hq), Bvx, Mvx.
    split; [reflexivity|].
    destruct (moved_x_finite mult e h (Fin 0) (or_introl L)) as [r ->].
    apply abs_sign.
  - intros Rt. destruct (bounce_right vp moved Rt) as [Bx Bvx].
    split; [exact Bx|]. intros Hq. rewrite (Q Hq), Bvx, Mvx.
    split; [reflexivity|].
    destruct (moved_x_finite mult e h (innerWidth vp) (or_intror Rt))
      as [r ->].
    apply abs_sign.
  - intros T W. destruct (bounce_top vp moved T W) as [By Bvy].
    split; [exact By|]. intros Hq. rewrite (Q Hq), Bvy, Mvy.
    split; [reflexivity|].
    destruct (moved_y_finite mult e h (Fin 0) (or_introl T)) as [r ->].
    apply abs_sign.
  - intros Bt. destruct (bounce_bottom vp moved Bt) as [By Bvy].
    split; [exact By|]. intros Hq. rewrite (Q Hq), Bvy, Mvy.
    split; [reflexivity|].
    destruct (moved_y_finite mult e h (innerHeight vp) (or_intror Bt))
      as [r ->].
    apply abs_sign.
Qed.

Lemma bounce_y_inside (vp : Viewport) (e : Entity.t) :
  (Entity.y e - DEFAULTS.ICON_HALF <=? Fin 0)%js = false ->
  (Entity.y e + DEFAULTS.ICON_HALF >=? innerHeight vp)%js = false ->
  Entity.y (Entity.bounce vp e) = Entity.y e
  /\ Entity.vy (Entity.bounce vp e) = Entity.vy e.
Proof.
  intros T B. unfold Entity.bounce.
  destruct (Entity.x e - DEFAULTS.ICON_HALF <=? Fin 0)%js;
    match goal with
    | |- context [if (Entity.x ?a + _ >=? _)%js then _ else _] =>
        destruct (Entity.x a + DEFAULTS.ICON_HALF >=? innerWidth vp)%js
    end; entity_fields; rewrite T; entity_fields; rewrite B; auto.
Qed.

Lemma bounce_inside (vp : Viewport) (e : Entity.t) :
  (Entity.x e - DEFAULTS.ICON_HALF <=? Fin 0)%js = false ->
  (Entity.x e + DEFAULTS.ICON_HALF >=? innerWidth vp)%js = false ->
  (Entity.y e - DEFAULTS.ICON_HALF <=? Fin 0)%js = false ->
  (Entity.y e + DEFAULTS.ICON_HALF >=? innerHeight vp)%js = false ->
  Entity.bounce vp e = e.
Proof.
  intros L R T B. unfold Entity.bounce. now rewrite L, R, T, B.
Qed.

(** [update] away from the edges, when the kick does not fire. *)
Lemma update_inside (vp : Viewport) (e : Entity.t) (mult : number) (s : RNG) :
  Entity.el e = true -> Entity.alive e = true -> Entity.dying e = false ->
  let e1 :=
    if String.eqb (Entity.entityKey e) "cell"
       && (Entity._divisionTimer e >? Fin 0)%js
    then Entity.set_divisionTimer e (Entity._divisionTimer e - Fin 1)%js
    else e in
  let m := Entity.move mult e1 in
  (Entity.x m - DEFAULTS.ICON_HALF <=? Fin 0)%js = false ->
  (Entity.x m + DEFAULTS.ICON_HALF >=? innerWidth vp)%js = false ->
  (Entity.y m - DEFAULTS.ICON_HALF <=? Fin 0)%js = false ->
  (Entity.y m + DEFAULTS.ICON_HALF >=? innerHeight vp)%js = false ->
  (Fin (s 0%nat) <? DEFAULTS.DRIFT_CHANCE)%js = false ->
  Entity.update vp e mult s = (m, rng_tail s).
Proof.
  intros Hel Hal Hdy e1 m L R T B Q. unfold Entity.update.
  rewrite Hel, Hal, Hdy. cbn [negb orb]. fold e1. fold m.
  rewrite (bounce_inside vp m L R T B).
  unfold Entity.kick. rewrite bind_run.
  change (fst (Math.random s)) with (Fin (s 0%nat)). rewrite Q.
  reflexivity.
Qed.

Lemma kick_stream_ok : rng_ok Sample.kick_stream.
Proof.
  intros [|[|n]]; simpl; lra.
Qed.

Lemma cell_left_bounced :
  phys (Entity.bounce Sample.viewport (Entity.move (Fin 1) Sample.cell_left))
  = (Fin 12, Fin (300 + 0.8 * 1 * 1.0), Fin (Rabs (-0.05)), Fin 0.8).
Proof.
  set (m := Entity.move (Fin 1) Sample.cell_left).
  destruct (bounce_left Sample.viewport m) as [Bx Bvx].
  { cbn. apply Rleb_true. lra. }
  { cbn. apply Rleb_false. lra. }
  destruct (bounce_y_inside Sample.viewport m) as [By Bvy].
  { cbn. apply Rleb_false. lra. }
  { cbn. apply Rleb_false. lra. }
  unfold phys. now rewrite Bx, Bvx, By, Bvy.
Qed.

(** C1, as stated, fails: the kick that follows the bounce in the same call
    can reverse the velocity again.  A cell reaches the left boundary with a
    small horizontal speed; the bounce makes it 0.05, the kick subtracts
    0.125, and the cell ends the call on the boundary, heading outward. *)
Lemma update_kick_reverses_bounce :
  let e' := fst (Entity.update Sample.viewport Sample.cell_left (Fin 1)
                   Sample.kick_stream) in
  rng_ok Sample.kick_stream
  /\ (Entity.x (Entity.move (Fin 1) Sample.cell_left) - DEFAULTS.ICON_HALF
      <=? Fin 0)%js = true
  /\ Entity.x e' = DEFAULTS.ICON_HALF
  /\ (Entity.vx e' <? Fin 0)%js = true.
Proof.
  intros e'.
  pose proof (update_phys Sample.viewport Sample.cell_left (Fin 1)
                Sample.kick_stream
                eq_refl eq_refl eq_refl) as P.
  fold e' in P. apply phys_eq in P. destruct P as (Px & _ & Pvx & _).
  pose proof cell_left_bounced as B. apply (f_equal (fun p => p)) in B.
  unfold phys in B. injection B as Bx By Bvx Bvy.
  split; [exact kick_stream_ok|].
  split; [simpl; apply Rleb_true; lra|].
  split.
  - rewrite Px.
    destruct (kick_position
                (Entity.bounce Sample.viewport
                   (Entity.move (Fin 1) Sample.cell_left))
                Sample.kick_stream) as [-> _].
    exact Bx.
  - rewrite Pvx.
    destruct (kick_fires
                (Entity.bounce Sample.viewport
                   (Entity.move (Fin 1) Sample.cell_left))
                Sample.kick_stream) as [-> _].
    + simpl. apply Rltb_true. lra.
    + rewrite Bvx, Bvy. simpl. apply Rltb_false.
      apply sqrt_le_bound; [lra|].
      rewrite Rabs_left by lra. nra.
    + rewrite Bvx. simpl. apply Rltb_true. rewrite Rabs_left by lra. lra.
Qed.

Lemma update_edge_bounce_witness :
  Entity.el Sample.cell_left = true
  /\ Entity.alive Sample.cell_left = true
  /\ Entity.dying Sample.cell_left = false
  /\ Entity.x (fst (Entity.update Sample.viewport Sample.cell_left (Fin 1)
                      Sample.half_stream)) = DEFAULTS.ICON_HALF
  /\ Entity.vx (fst (Entity.update Sample.viewport Sample.cell_left (Fin 1)
                       Sample.half_stream)) = Math.abs (Fin (-0.05)).
Proof.
  repeat (split; [reflexivity|]).
  destruct (update_edge_bounce Sample.viewport Sample.cell_left (Fin 1)
              Sample.half_stream eq_refl eq_refl eq_refl) as [L _].
  destruct L as [Hx Hv].
  - simpl. apply Rleb_true. lra.
  - simpl. apply Rleb_false. lra.
  - split; [exact Hx|]. apply Hv.
    unfold Sample.half_stream. simpl. apply Rltb_false. lra.
Defined.

(** ** Computations keep the stream within the unit interval *)

Create HintDb rng.

Ltac rng_step :=
  match goal with
  | |- rand_post (ret _) _ => apply rand_post_ret; exact I
  | |- rand_post (bind Math.random _) _ =>
      eapply rand_post_bind; [apply rand_post_random | intros ? _]
  | |- rand_post (bind _ _) _ =>
      eapply rand_post_bind; [solve [eauto with rng] | intros ? _]
  | |- rand_post (if ?c then _ else _) _ => destruct c
  | |- rand_post (match ?c with _ => _ end) _ => destruct c
  | |- rand_post (let _ := _ in _) _ => cbv zeta
  end.

Ltac rng_safety := repeat rng_step; try solve [eauto with rng].

Lemma drift_safe (rate : number) (entries : list (string * number)) :
  forall m, rng_safe (DNA.drift rate entries m).
Proof.
  induction entries as [|[gene value] rest IH]; intros m; simpl.
  - rng_safety.
  - rng_safety.
Qed.
#[local] Hint Resolve drift_safe : rng.

Lemma emerge_safe (rate : number) (pool : string) (m : JsMap.t number) :
  rng_safe (DNA.emerge rate pool m).
Proof. unfold DNA.emerge. rng_safety. Qed.
#[local] Hint Resolve emerge_safe : rng.

Lemma silence_safe (rate : number) (m : JsMap.t number) :
  rng_safe (DNA.silence rate m).
Proof. unfold DNA.silence. rng_safety. Qed.
#[local] Hint Resolve silence_safe : rng.

Lemma reproduce_safe (d : DNA.t) (rate : number) (pool : string) :
  rng_safe (DNA.reproduce d rate pool).
Proof. unfold DNA.reproduce. rng_safety. Qed.
#[local] Hint Resolve reproduce_safe : rng.

Lemma kick_safe (e : Entity.t) : rng_safe (Entity.kick e).
Proof. unfold Entity.kick. rng_safety. Qed.
#[local] Hint Resolve kick_safe : rng.

Lemma update_safe (vp : Viewport) (e : Entity.t) (mult : number) :
  rng_safe (Entity.update vp e mult).
Proof. unfold Entity.update. rng_safety. Qed.
#[local] Hint Resolve update_safe : rng.

Lemma resetDivision_safe (e : Entity.t) : rng_safe (Entity.resetDivision e).
Proof. unfold Entity.resetDivision. rng_safety. Qed.
#[local] Hint Resolve resetDivision_safe : rng.

Lemma divide_safe (vp : Viewport) (e : Entity.t) :
  rng_safe (Entity.divide vp e).
Proof. unfold Entity.divide. rng_safety. Qed.
#[local] Hint Resolve divide_safe : rng.

Lemma new_safe (c : Entity.Config) : rng_safe (Entity.new c).
Proof. unfold Entity.new. rng_safety. Qed.
#[local] Hint Resolve new_safe : rng.

Lemma spawnOffspring_safe (c : Evolution.Controller) (cfg : Entity.Config) :
  rng_safe (Evolution.spawnOffspring c cfg).
Proof. unfold Evolution.spawnOffspring. rng_safety. Qed.
#[local] Hint Resolve spawnOffspring_safe : rng.

Lemma update_all_safe (vp : Viewport) (mult : number) (es : list Entity.t) :
  rng_safe (Evolution.update_all vp mult es).
Proof.
  induction es as [|e rest IH]; simpl; rng_safety.
Qed.
#[local] Hint Resolve update_all_safe : rng.

(** ** [divide] *)

Lemma divide_descriptor (vp : Viewport) (e : Entity.t) (s : RNG) :
  let h := DEFAULTS.ICON_HALF in
  let offset := (DEFAULTS.COLLISION_DIAMETER * Fin 0.65)%js in
  let angle := (Fin (s 0%nat) * Math.PI * Fin 2)%js in
  let c := fst (Entity.divide vp e s) in
  Entity.cfg_x c
  = Math.max h (Math.min (innerWidth vp - h)%js
                  (Entity.x e + Math.cos angle * offset)%js)
  /\ Entity.cfg_y c
     = Math.max h (Math.min (innerHeight vp - h)%js
                     (Entity.y e + Math.sin angle * offset)%js)
  /\ Entity.cfg_vx c = (Math.cos angle * DEFAULTS.BASE_SPEED)%js
  /\ Entity.cfg_vy c = (Math.sin angle * DEFAULTS.BASE_SPEED)%js
  /\ Entity.cfg_dna c
     = fst (DNA.reproduce (Entity.dna e) DEFAULTS.MUTATION_RATE "cell"
              (rng_tail s)).
Proof.
  cbv zeta. unfold Entity.divide. rewrite !bind_run.
  change (fst (Math.random s)) with (Fin (s 0%nat)).
  change (snd (Math.random s)) with (rng_tail s).
  cbn [fst snd ret Entity.cfg_x Entity.cfg_y Entity.cfg_vx Entity.cfg_vy
       Entity.cfg_dna].
  auto.
Qed.

Lemma cos_range (a : R) : Rabs (cos a) <= 1.
Proof. apply Rabs_le. pose proof (COS_bound a). lra. Qed.

Lemma sin_range (a : R) : Rabs (sin a) <= 1.
Proof. apply Rabs_le. pose proof (SIN_bound a). lra. Qed.

(** C10.  For a parent at a finite position, in a viewport at least one
    icon wide and high, the descriptor returned by [divide] has its
    position within the viewport, at least [ICON_HALF] away from each edge:
    each coordinate is that of the point at the fixed offset from the
    parent in the direction of the random angle, brought back to the
    nearest bound when that point lies beyond it, and left as it is
    otherwise.  The launch velocity is [BASE_SPEED] times the unit vector
    of that angle, as the code computes it; neither component exceeds
    [BASE_SPEED] in absolute value. *)
Theorem divide_offspring_in_viewport (vp : Viewport) (e : Entity.t) (s : RNG)
    (px py : R) :
  let h := DEFAULTS.ICON_HALF in
  Entity.x e = Fin px -> Entity.y e = Fin py ->
  (h + h <=? innerWidth vp)%js = true ->
  (h + h <=? innerHeight vp)%js = true ->
  let c := fst (Entity.divide vp e s) in
  let angle := (Fin (s 0%nat) * Math.PI * Fin 2)%js in
  let offset := (DEFAULTS.COLLISION_DIAMETER * Fin 0.65)%js in
  let tx := (Entity.x e + Math.cos angle * offset)%js in
  let ty := (Entity.y e + Math.sin angle * offset)%js in
  ((h <=? Entity.cfg_x c)%js = true
   /\ (Entity.cfg_x c <=? innerWidth vp - h)%js = true
   /\ (h <=? Entity.cfg_y c)%js = true
   /\ (Entity.cfg_y c <=? innerHeight vp - h)%js = true)
  /\ Entity.cfg_x c
     = (if (tx <? h)%js then h
        else if (innerWidth vp - h <? tx)%js then (innerWidth vp - h)%js
        else tx)
  /\ Entity.cfg_y c
     = (if (ty <? h)%js then h
        else if (innerHeight vp - h <? ty)%js then (innerHeight vp - h)%js
        else ty)
  /\ Entity.cfg_vx c = (Math.cos angle * DEFAULTS.BASE_SPEED)%js
  /\ Entity.cfg_vy c = (Math.sin angle * DEFAULTS.BASE_SPEED)%js
  /\ (Math.abs (Entity.cfg_vx c) <=? DEFAULTS.BASE_SPEED)%js = true
  /\ (Math.abs (Entity.cfg_vy c) <=? DEFAULTS.BASE_SPEED)%js = true.
Proof.
  intros h Hx Hy Hw Hh c angle offset tx ty.
  destruct (divide_descriptor vp e s) as (Ex & Ey & Evx & Evy & _).
  fold c in Ex, Ey, Evx, Evy. fold angle in Ex, Ey, Evx, Evy.
  fold offset in Ex, Ey. fold tx in Ex. fold ty in Ey.
  rewrite Ex, Ey, Evx, Evy. subst tx ty. rewrite Hx, Hy.
  apply le_true_inv in Hw, Hh.
  destruct Hw as (? & w & [= <-] & -> & Hw).
  destruct Hh as (? & ht & [= <-] & -> & Hh).
  set (a := s 0%nat * PI * 2).
  split; [|split; [|split; [|split; [|split; [|split]]]]].
  - simpl. repeat split; apply Rleb_true; apply clamp_bounds; lra.
  - simpl. fold a. unfold Num.Rltb.
    destruct (Rlt_dec _ 12) as [L|L].
    + f_equal. rewrite Rmax_left; [reflexivity|].
      apply Rle_trans with (px + cos a * (24 * 0.65)); [|lra]. apply Rmin_r.
    + destruct (Rlt_dec (w - 12) _) as [U|U]; f_equal.
      * rewrite Rmin_left by lra. apply Rmax_right. lra.
      * rewrite Rmin_right by lra. apply Rmax_right. lra.
  - simpl. fold a. unfold Num.Rltb.
    destruct (Rlt_dec _ 12) as [L|L].
    + f_equal. rewrite Rmax_left; [reflexivity|].
      apply Rle_trans with (py + sin a * (24 * 0.65)); [|lra]. apply Rmin_r.
    + destruct (Rlt_dec (ht - 12) _) as [U|U]; f_equal.
      * rewrite Rmin_left by lra. apply Rmax_right. lra.
      * rewrite Rmin_right by lra. apply Rmax_right. lra.
  - reflexivity.
  - reflexivity.
  - simpl. fold a. apply Rleb_true. rewrite Rabs_mult.
    pose proof (cos_range a). rewrite (Rabs_right 0.8) by lra. lra.
  - simpl. fold a. apply Rleb_true. rewrite Rabs_mult.
    pose proof (sin_range a). rewrite (Rabs_right 0.8) by lra. lra.
Qed.

(** A parent at (790, 5), near the right and top edges, dividing at the
    angle PI (a draw of 1/2): the child is placed 15.6 to its left, and
    brought down from y = 5 to the bound y = 12. *)
Lemma divide_offspring_in_viewport_witness :
  let c := fst (Entity.divide Sample.viewport Sample.wide_cell
                  Sample.half_stream) in
  Entity.x Sample.wide_cell = Fin 790 /\ Entity.y Sample.wide_cell = Fin 5
  /\ (DEFAULTS.ICON_HALF + DEFAULTS.ICON_HALF
      <=? innerWidth Sample.viewport)%js = true
  /\ (DEFAULTS.ICON_HALF + DEFAULTS.ICON_HALF
      <=? innerHeight Sample.viewport)%js = true
  /\ (Entity.cfg_x c
      <=? innerWidth Sample.viewport - DEFAULTS.ICON_HALF)%js = true
  /\ Entity.cfg_y c = Fin 12
  /\ (Math.abs (Entity.cfg_vx c) <=? DEFAULTS.BASE_SPEED)%js = true.
Proof.
  assert (W : (DEFAULTS.ICON_HALF + DEFAULTS.ICON_HALF
               <=? innerWidth Sample.viewport)%js = true)
    by (simpl; apply Rleb_true; lra).
  assert (H : (DEFAULTS.ICON_HALF + DEFAULTS.ICON_HALF
               <=? innerHeight Sample.viewport)%js = true)
    by (simpl; apply Rleb_true; lra).
  destruct (@divide_offspring_in_viewport Sample.viewport Sample.wide_cell
              Sample.half_stream 790 5 eq_refl eq_refl W H)
    as ((_ & Hx & _ & _) & _ & Hy & _ & _ & Hvx & _).
  cbv zeta. split; [reflexivity|]. split; [reflexivity|].
  split; [exact W|]. split; [exact H|]. split; [exact Hx|].
  split; [|exact Hvx].
  rewrite Hy.
  replace (Entity.y Sample.wide_cell
           + Math.sin (Fin (Sample.half_stream 0%nat) * Math.PI * Fin 2)
             * (DEFAULTS.COLLISION_DIAMETER * Fin 0.65)
           <? DEFAULTS.ICON_HALF)%js
    with true; [reflexivity|].
  symmetry. simpl. apply Rltb_true. unfold Sample.half_stream.
  replace (1 / 2 * PI * 2) with PI by lra. rewrite sin_PI. lra.
Defined.

(** In a viewport narrower than one icon the lower bound wins: the child
    of a cell in a viewport 20 wide is placed at x = 12, beyond the bound
    20 - 12 = 8 on the right. *)
Lemma divide_outside_narrow_viewport :
  let c := fst (Entity.divide Sample.narrow_viewport Sample.narrow_cell
                  Sample.half_stream) in
  Entity.cfg_x c = Fin 12
  /\ (Entity.cfg_x c
      <=? innerWidth Sample.narrow_viewport - DEFAULTS.ICON_HALF)%js = false.
Proof.
  destruct (divide_descriptor Sample.narrow_viewport Sample.narrow_cell
              Sample.half_stream) as (Ex & _).
  cbv zeta. rewrite Ex.
  assert (E : forall t : R, Rmax 12 (Rmin (20 - 12) t) = 12).
  { intros t. apply Rmax_left. apply Rle_trans with (20 - 12); [|lra].
    apply Rmin_l. }
  simpl. rewrite E. split; [reflexivity|]. apply Rleb_false. lra.
Qed.

(** ** The division block of the tick *)

Lemma update_all_length (vp : Viewport) (mult : number) (es : list Entity.t) :
  forall s, length (fst (Evolution.update_all vp mult es s)) = length es.
Proof.
  induction es as [|e rest IH]; intros s; simpl; [reflexivity|].
  rewrite !bind_run. simpl. now rewrite IH.
Qed.

(** [resetDivision] keeps the trait-set and draws one number. *)
Lemma resetDivision_run (e : Entity.t) (s : RNG) :
  Entity.dna (fst (Entity.resetDivision e s)) = Entity.dna e
  /\ snd (Entity.resetDivision e s) = rng_tail s.
Proof.
  unfold Entity.resetDivision. rewrite bind_run. split; reflexivity.
Qed.

(** The loop passes over the cells that are not ready without drawing. *)
Lemma division_loop_idle (c : Evolution.Controller) (vp : Viewport)
    (before rest : list Entity.t) (s : RNG) :
  filter Entity.wantsToDivide before = [] ->
  Evolution.division_loop c vp (before ++ rest) s
  = (before ++ fst (fst (Evolution.division_loop c vp rest s)),
     snd (fst (Evolution.division_loop c vp rest s)),
     snd (Evolution.division_loop c vp rest s)).
Proof.
  induction before as [|b before IH]; intros Hidle.
  - simpl. now destruct (Evolution.division_loop c vp rest s) as [[? ?] ?].
  - simpl in Hidle. cbn [app Evolution.division_loop].
    destruct (Entity.wantsToDivide b); [discriminate|].
    rewrite bind_run, (IH Hidle). reflexivity.
Qed.

(** A ready cell reached with the stream [s]: [resetDivision] takes the
    first number, [divide] the second one for the angle, and [reproduce]
    runs on what follows. *)
Lemma division_loop_ready (c : Evolution.Controller) (vp : Viewport)
    (e : Entity.t) (after : list Entity.t) (s : RNG) :
  Entity.wantsToDivide e = true ->
  exists child s',
    snd (fst (Evolution.division_loop c vp (e :: after) s))
    = child :: snd (fst (Evolution.division_loop c vp after s'))
    /\ Entity.cfg_dna child
       = fst (DNA.reproduce (Entity.dna e) DEFAULTS.MUTATION_RATE "cell"
                (rng_tail (rng_tail s))).
Proof.
  intros Hready. cbn [Evolution.division_loop]. rewrite Hready.
  rewrite !bind_run.
  destruct (resetDivision_run e s) as [Hdna Hs].
  set (e' := fst (Entity.resetDivision e s)) in *.
  rewrite Hs.
  set (cfg := fst (Entity.divide vp e' (rng_tail s))).
  eexists cfg, _. split; [reflexivity|].
  destruct (divide_descriptor vp e' (rng_tail s)) as (_ & _ & _ & _ & E).
  fold cfg in E. now rewrite E, Hdna.
Qed.

Lemma division_loop_count (c : Evolution.Controller) (vp : Viewport)
    (es : list Entity.t) :
  forall s,
    length (snd (fst (Evolution.division_loop c vp es s)))
    = length (filter Entity.wantsToDivide es).
Proof.
  induction es as [|e rest IH]; intros s; [reflexivity|].
  cbn [Evolution.division_loop filter].
  destruct (Entity.wantsToDivide e).
  - rewrite !bind_run. cbn [ret fst snd length]. now rewrite IH.
  - rewrite bind_run. cbn [ret fst snd]. apply IH.
Qed.

Lemma division_loop_app (c : Evolution.Controller) (vp : Viewport)
    (l1 l2 : list Entity.t) :
  forall s,
    let r1 := Evolution.division_loop c vp l1 s in
    let r2 := Evolution.division_loop c vp l2 (snd r1) in
    Evolution.division_loop c vp (l1 ++ l2) s
    = (fst (fst r1) ++ fst (fst r2), snd (fst r1) ++ snd (fst r2), snd r2).
Proof.
  induction l1 as [|e l1 IH]; intros s.
  - cbn. now destruct (Evolution.division_loop c vp l2 s) as [[? ?] ?].
  - cbn [app Evolution.division_loop]. cbv zeta.
    destruct (Entity.wantsToDivide e).
    + rewrite !bind_run. cbn [ret fst snd]. rewrite IH. reflexivity.
    + rewrite !bind_run. cbn [ret fst snd]. rewrite IH. reflexivity.
Qed.

Lemma nth_error_app_here {A} (l1 l2 : list A) (a : A) :
  nth_error (l1 ++ a :: l2) (length l1) = Some a.
Proof. induction l1; simpl; auto. Qed.

(** The descriptor of a ready cell [e], reached after the entities
    [before]: it is the one at the rank of [e] among the ready cells, and
    its trait-set is the result of [reproduce] on the stream that the loop
    has left after [before]. *)
Lemma division_loop_nth (c : Evolution.Controller) (vp : Viewport)
    (before after : list Entity.t) (e : Entity.t) (s : RNG) :
  Entity.wantsToDivide e = true ->
  let s_e := snd (Evolution.division_loop c vp before s) in
  exists child,
    nth_error
      (snd (fst (Evolution.division_loop c vp (before ++ e :: after) s)))
      (length (filter Entity.wantsToDivide before)) = Some child
    /\ Entity.cfg_dna child
       = fst (DNA.reproduce (Entity.dna e) DEFAULTS.MUTATION_RATE "cell"
                (rng_tail (rng_tail s_e))).
Proof.
  intros Hready s_e. rewrite division_loop_app. cbn [fst snd]. fold s_e.
  destruct (division_loop_ready c vp e after s_e Hready)
    as (child & s' & E & Hdna).
  exists child. split; [|exact Hdna].
  rewrite E, <- (division_loop_count c vp before s).
  apply nth_error_app_here.
Qed.

Lemma division_loop_idle_stream (c : Evolution.Controller) (vp : Viewport)
    (before : list Entity.t) (s : RNG) :
  filter Entity.wantsToDivide before = [] ->
  snd (Evolution.division_loop c vp before s) = s.
Proof.
  intros Hidle.
  pose proof (division_loop_idle c vp before [] s Hidle) as E.
  rewrite app_nil_r in E. now rewrite E.
Qed.

Lemma tick_at_cap (c : Evolution.Controller) (vp : Viewport)
    (es : list Entity.t) (s : RNG) :
  (DEFAULTS.MAX_POPULATION <= length es)%nat ->
  fst (Evolution.tick_divisions c vp es s)
  = (fst (Evolution.update_all vp
            (Evolution.moveSpeed c / DEFAULTS.MOVE_SPEED)%js es s), []).
Proof.
  intros Hcap. unfold Evolution.tick_divisions. rewrite bind_run.
  unfold Evolution.division_block. rewrite update_all_length.
  apply Nat.ltb_ge in Hcap. now rewrite Hcap.
Qed.

Lemma tick_below_cap (c : Evolution.Controller) (vp : Viewport)
    (es : list Entity.t) (s : RNG) :
  (length es < DEFAULTS.MAX_POPULATION)%nat ->
  let multiplier := (Evolution.moveSpeed c / DEFAULTS.MOVE_SPEED)%js in
  Evolution.tick_divisions c vp es s
  = Evolution.division_loop c vp
      (fst (Evolution.update_all vp multiplier es s))
      (snd (Evolution.update_all vp multiplier es s)).
Proof.
  intros Hlt multiplier. unfold Evolution.tick_divisions. rewrite bind_run.
  unfold Evolution.division_block. rewrite update_all_length.
  apply Nat.ltb_lt in Hlt. now rewrite Hlt.
Qed.

(** C8.  The tick compares the number of entities of the collection with
    [MAX_POPULATION].  At or above it (and so whenever the entities alive
    and not dying are that many) the tick produces no offspring and leaves
    the updated entities as they are, even if some countdown has reached
    zero.  Below it, every cell that is ready after the movement step
    divides: there are as many descriptors as ready cells, in their order,
    and the descriptor of a ready cell carries the trait-set that
    [reproduce] returns on the parent's, at the configured mutation rate
    and for the cell pool, run on the random stream of the tick where the
    division reaches the cell: after the numbers drawn by the movement
    step and by the divisions of the cells before it (none when it is the
    first ready cell), one number for the new countdown and one for the
    angle. *)
Theorem division_cap (c : Evolution.Controller) (vp : Viewport)
    (es : list Entity.t) (s : RNG) :
  let multiplier := (Evolution.moveSpeed c / DEFAULTS.MOVE_SPEED)%js in
  let updated := fst (Evolution.update_all vp multiplier es s) in
  let s1 := snd (Evolution.update_all vp multiplier es s) in
  let r := fst (Evolution.tick_divisions c vp es s) in
  ((DEFAULTS.MAX_POPULATION <= length es)%nat -> r = (updated, []))
  /\ ((DEFAULTS.MAX_POPULATION <= length (filter live es))%nat ->
      r = (updated, []))
  /\ ((length es < DEFAULTS.MAX_POPULATION)%nat ->
      length (snd r) = length (filter Entity.wantsToDivide updated)
      /\ forall before e after,
           updated = before ++ e :: after ->
           Entity.wantsToDivide e = true ->
           let s_e := snd (Evolution.division_loop c vp before s1) in
           (filter Entity.wantsToDivide before = [] -> s_e = s1)
           /\ exists child,
                nth_error (snd r)
                  (length (filter Entity.wantsToDivide before))
                = Some child
                /\ Entity.cfg_dna child
                   = fst (DNA.reproduce (Entity.dna e)
                            DEFAULTS.MUTATION_RATE "cell"
                            (rng_tail (rng_tail s_e)))).
Proof.
  intros multiplier updated s1 r. subst r.
  split; [|split].
  - intros Hcap. now apply tick_at_cap.
  - intros Hcap. apply tick_at_cap.
    pose proof (filter_length_le live es). lia.
  - intros Hlt. rewrite (@tick_below_cap c vp es s Hlt).
    fold multiplier. fold updated. fold s1.
    split; [apply division_loop_count|].
    intros before e after Hup Hready s_e.
    split; [apply division_loop_idle_stream|].
    rewrite Hup. now apply division_loop_nth.
Qed.

(** The movement step on the sample population, for a stream that yields
    the same number [q] at every draw, too large for the drift kick. *)
Section Constant_stream.

Variable q : R.
Hypothesis no_kick : 0.02 <= q.

Lemma update_idle_cell :
  Entity.update Sample.viewport Sample.idle_cell (Fin (5 / 5))
    (fun _ => q)
  = (Sample.timed_cell (100 - 1) (100 + 0.8 * (5 / 5) * 1.0)
       (100 + 0 * (5 / 5) * 1.0) 0.8 0 DNA.empty, fun _ => q).
Proof.
  rewrite update_inside; try reflexivity.
  - cbn. rcmp. reflexivity.
  - cbn. rcmp. cbn. rcmp. reflexivity.
  - cbn. rcmp. cbn. rcmp. reflexivity.
  - cbn. rcmp. cbn. rcmp. reflexivity.
  - cbn. rcmp. cbn. rcmp. reflexivity.
  - cbn. rcmp. reflexivity.
Qed.

Lemma update_ready_cell :
  Entity.update Sample.viewport Sample.ready_cell (Fin (5 / 5))
    (fun _ => q)
  = (Sample.timed_cell (1 - 1) (400 + 0.3 * (5 / 5) * 1.2)
       (300 + 0.4 * (5 / 5) * 1.2) 0.3 0.4 Sample.shielded_dna,
     fun _ => q).
Proof.
  rewrite update_inside; try reflexivity.
  - cbn. rcmp. reflexivity.
  - cbn. rcmp. cbn. rcmp. reflexivity.
  - cbn. rcmp. cbn. rcmp. reflexivity.
  - cbn. rcmp. cbn. rcmp. reflexivity.
  - cbn. rcmp. cbn. rcmp. reflexivity.
  - cbn. rcmp. reflexivity.
Qed.

Lemma update_all_idle (n : nat) :
  Evolution.update_all Sample.viewport (Fin (5 / 5)) (repeat Sample.idle_cell n)
    (fun _ => q)
  = (repeat (Sample.timed_cell (100 - 1) (100 + 0.8 * (5 / 5) * 1.0)
               (100 + 0 * (5 / 5) * 1.0) 0.8 0 DNA.empty) n,
     fun _ => q).
Proof.
  induction n as [|n IH]; [reflexivity|].
  cbn [repeat Evolution.update_all]. unfold bind at 1.
  rewrite update_idle_cell. unfold bind at 1. rewrite IH. reflexivity.
Qed.

Lemma crowd_updated :
  Evolution.update_all Sample.viewport
    (Evolution.moveSpeed Sample.controller / DEFAULTS.MOVE_SPEED)%js
    Sample.crowd (fun _ => q)
  = (Sample.timed_cell (1 - 1) (400 + 0.3 * (5 / 5) * 1.2)
       (300 + 0.4 * (5 / 5) * 1.2) 0.3 0.4 Sample.shielded_dna
     :: repeat (Sample.timed_cell (100 - 1) (100 + 0.8 * (5 / 5) * 1.0)
                  (100 + 0 * (5 / 5) * 1.0) 0.8 0 DNA.empty) 48,
     fun _ => q).
Proof.
  replace (Evolution.moveSpeed Sample.controller / DEFAULTS.MOVE_SPEED)%js
    with (Fin (5 / 5)) by (simpl; rcmp; reflexivity).
  unfold Sample.crowd. cbn [Evolution.update_all]. unfold bind at 1.
  rewrite update_ready_cell. unfold bind at 1.
  rewrite update_all_idle. reflexivity.
Qed.

End Constant_stream.

Lemma filter_repeat_none {A} (f : A -> bool) (a : A) (n : nat) :
  f a = false -> filter f (repeat a n) = [].
Proof.
  intros H. induction n as [|n IH]; simpl; [reflexivity|]. now rewrite H.
Qed.

Lemma wantsToDivide_ready :
  Entity.wantsToDivide
    (Sample.timed_cell (1 - 1) (400 + 0.3 * (5 / 5) * 1.2)
       (300 + 0.4 * (5 / 5) * 1.2) 0.3 0.4 Sample.shielded_dna) = true.
Proof.
  unfold Entity.wantsToDivide, Sample.timed_cell.
  cbn [Entity.entityKey Entity._divisionTimer Entity.alive Entity.dying].
  replace (Fin (1 - 1) === Fin 0)%js with true
    by (symmetry; apply Reqb_true; lra).
  reflexivity.
Qed.

Lemma wantsToDivide_idle :
  Entity.wantsToDivide
    (Sample.timed_cell (100 - 1) (100 + 0.8 * (5 / 5) * 1.0)
       (100 + 0 * (5 / 5) * 1.0) 0.8 0 DNA.empty) = false.
Proof.
  unfold Entity.wantsToDivide, Sample.timed_cell.
  cbn [Entity.entityKey Entity._divisionTimer Entity.alive Entity.dying].
  replace (Fin (100 - 1) === Fin 0)%js with false
    by (symmetry; apply Reqb_false; lra).
  reflexivity.
Qed.

Lemma filter_cons_true {A} (f : A -> bool) (a : A) (l : list A) :
  f a = true -> filter f (a :: l) = a :: filter f l.
Proof. intros H. simpl. now rewrite H. Qed.

(** [reproduce] at work: the steps of a mutation, one by one. *)
Lemma drift_fires (rate : number) (gene : string) (value : number)
    (rest : list (string * number)) (newGenes : JsMap.t number) (s : RNG)
    (def : Gene.GeneDef) :
  (Fin (s 0%nat) <? rate)%js = true ->
  Gene.GENE_DEFS_get gene = Gene.Own def ->
  DNA.drift rate ((gene, value) :: rest) newGenes s
  = DNA.drift rate rest
      (JsMap.set newGenes gene
         (Math.max (Fin (Gene.min def))
            (Math.min (Fin (Gene.max def))
               (value
                + (Fin (Gene.max def) - Fin (Gene.min def)) * Fin 0.15
                  * (Fin (s 1%nat) * Fin 2 - Fin 1))%js)))
      (rng_tail (rng_tail s)).
Proof.
  intros Hr Hdef. cbn [DNA.drift]. rewrite bind_run.
  change (fst (Math.random s)) with (Fin (s 0%nat)). rewrite Hr, Hdef.
  rewrite bind_run. reflexivity.
Qed.

Lemma emerge_quiet (rate : number) (pool : string) (m : JsMap.t number)
    (s : RNG) :
  (Fin (s 0%nat) <? rate * Fin 0.4)%js = false ->
  DNA.emerge rate pool m s = (m, rng_tail s).
Proof.
  intros Hr. unfold DNA.emerge. rewrite bind_run.
  change (fst (Math.random s)) with (Fin (s 0%nat)). now rewrite Hr.
Qed.

Lemma silence_quiet (rate : number) (m : JsMap.t number) (s : RNG) :
  (Fin (s 0%nat) <? rate * Fin 0.15)%js = false ->
  fst (DNA.silence rate m s) = m.
Proof.
  intros Hr. unfold DNA.silence.
  destruct (0 <? JsMap.size m)%nat; [|reflexivity].
  rewrite bind_run.
  change (fst (Math.random s)) with (Fin (s 0%nat)). now rewrite Hr.
Qed.

Lemma clamp_inside (lo hi v : R) :
  lo <= v <= hi -> Rmax lo (Rmin hi v) = v.
Proof.
  intros [H1 H2]. rewrite Rmin_right by assumption. now apply Rmax_right.
Qed.

(** With every draw at 0.05 both genes of the parent drift downward (by
    0.9 * 0.15 of their ranges); no gene emerges and none is silenced. *)
Lemma reproduce_drifted :
  fst (DNA.reproduce Sample.shielded_dna DEFAULTS.MUTATION_RATE "cell"
         Sample.drift_stream)
  = DNA.make [("shield"%string, Fin 0.865); ("speed"%string, Fin 1.092)].
Proof.
  assert (Hr : (Fin (Sample.drift_stream 0%nat)
                <? DEFAULTS.MUTATION_RATE)%js = true)
    by (apply Rltb_true; unfold Sample.drift_stream; lra).
  unfold DNA.reproduce. rewrite !bind_run.
  cbn [Sample.shielded_dna DNA.genes].
  rewrite (@drift_fires _ "shield" _ _ _ Sample.drift_stream _ Hr eq_refl).
  change (rng_tail (rng_tail Sample.drift_stream)) with Sample.drift_stream.
  rewrite (@drift_fires _ "speed" _ _ _ Sample.drift_stream _ Hr eq_refl).
  change (rng_tail (rng_tail Sample.drift_stream)) with Sample.drift_stream.
  cbn [DNA.drift ret fst snd].
  rewrite emerge_quiet
    by (apply Rltb_false; unfold Sample.drift_stream; lra).
  cbn [fst snd].
  change (rng_tail Sample.drift_stream) with Sample.drift_stream.
  rewrite silence_quiet
    by (apply Rltb_false; unfold Sample.drift_stream; lra).
  cbn [ret fst].
  f_equal. cbn [JsMap.set String.eqb Ascii.eqb Bool.eqb fst snd].
  cbn [Gene.min Gene.max Math.max Math.min Num.lift2 Num.add Num.sub Num.mul].
  unfold Sample.drift_stream.
  repeat f_equal.
  - rewrite clamp_inside; lra.
  - rewrite clamp_inside; lra.
Qed.

(** A population of 49 cells, of which the first reaches the end of its
    countdown in this tick, on a stream whose draws are all 0.05: the tick
    issues one descriptor, and its trait-set is the parent's after a drift,
    with the same two genes and the shield lowered from 1 to 0.865. *)
Lemma division_cap_witness :
  (length Sample.crowd < DEFAULTS.MAX_POPULATION)%nat
  /\ DNA.genes (Entity.dna Sample.ready_cell)
     = [("shield"%string, Fin 1); ("speed"%string, Fin 1.2)]
  /\ exists child,
       snd (fst (Evolution.tick_divisions Sample.controller Sample.viewport
                   Sample.crowd Sample.drift_stream)) = [child]
       /\ JsMap.keys (DNA.genes (Entity.cfg_dna child))
          = ["shield"; "speed"]%string
       /\ DNA.get (Entity.cfg_dna child) "shield" = Fin 0.865.
Proof.
  assert (Hlt : (length Sample.crowd < DEFAULTS.MAX_POPULATION)%nat)
    by (unfold DEFAULTS.MAX_POPULATION; simpl; lia).
  split; [exact Hlt|]. split; [reflexivity|].
  destruct (division_cap Sample.controller Sample.viewport Sample.crowd
              Sample.drift_stream) as (_ & _ & Hdiv).
  destruct (Hdiv Hlt) as [Hcount Hfirst]. clear Hdiv.
  assert (Hq : 0.02 <= 0.05) by lra.
  pose proof (crowd_updated Hq) as Hup.
  change (fun _ : nat => 0.05) with Sample.drift_stream in Hup.
  rewrite Hup in Hfirst, Hcount. cbn [fst snd] in Hfirst, Hcount.
  rewrite (filter_cons_true _ _ _ wantsToDivide_ready) in Hcount.
  rewrite (filter_repeat_none _ _ 48 wantsToDivide_idle) in Hcount.
  destruct (Hfirst [] _ _ eq_refl wantsToDivide_ready)
    as (_ & child & E & Hdna).
  cbn [filter length nth_error] in E.
  destruct (snd (fst (Evolution.tick_divisions Sample.controller
                        Sample.viewport Sample.crowd Sample.drift_stream)))
    as [|d [|d' rest]]; try discriminate.
  injection E as ->.
  exists child. split; [reflexivity|].
  rewrite Hdna. cbn [Evolution.division_loop ret snd].
  change (rng_tail (rng_tail Sample.drift_stream)) with Sample.drift_stream.
  cbn [Sample.timed_cell Entity.dna].
  rewrite reproduce_drifted. split; reflexivity.
Defined.

Lemma update_all_app (vp : Viewport) (mult : number) (l1 l2 : list Entity.t) :
  forall s,
    fst (Evolution.update_all vp mult (l1 ++ l2) s)
    = fst (Evolution.update_all vp mult l1 s)
      ++ fst (Evolution.update_all vp mult l2
                (snd (Evolution.update_all vp mult l1 s))).
Proof.
  induction l1 as [|e l1 IH]; intros s; [reflexivity|].
  cbn [app Evolution.update_all]. rewrite !bind_run. cbn [ret fst snd].
  now rewrite IH.
Qed.

(** The population counted as the entities alive and not dying is one
    below the cap, and the countdown of a cell reaches zero in this tick,
    yet nothing divides: a cell in its death sequence is still in the
    collection, whose length is what the tick compares with the cap. *)
Lemma dying_entity_blocks_division :
  let es := Sample.crowd ++ [Sample.dying_cell] in
  let r := fst (Evolution.tick_divisions Sample.controller Sample.viewport
                  es Sample.half_stream) in
  length (filter live es) = (DEFAULTS.MAX_POPULATION - 1)%nat
  /\ (exists e, In e (fst r) /\ live e = true
                /\ Entity.wantsToDivide e = true)
  /\ snd r = [].
Proof.
  intros es r.
  assert (Hr : r = (fst (Evolution.update_all Sample.viewport
                           (Evolution.moveSpeed Sample.controller
                            / DEFAULTS.MOVE_SPEED)%js es Sample.half_stream),
                    [])).
  { apply tick_at_cap. unfold DEFAULTS.MAX_POPULATION. simpl. lia. }
  split; [reflexivity|]. rewrite Hr. split; [|reflexivity].
  cbn [fst]. unfold es. rewrite update_all_app.
  assert (Hq : 0.02 <= 1 / 2) by lra.
  pose proof (crowd_updated Hq) as Hup.
  change (fun _ : nat => 1 / 2) with Sample.half_stream in Hup.
  rewrite Hup. cbn [fst].
  eexists. split; [left; reflexivity|].
  split; [reflexivity | exact wantsToDivide_ready].
Qed.

(** ** The shield of [#resolveVirusContact] *)

Lemma while_done (fuel : nat) (cond : number -> bool)
    (body : number -> number) (d : number) :
  cond d = false -> Evolution.while_ fuel cond body d = d.
Proof. intros H. destruct fuel; simpl; [reflexivity | now rewrite H]. Qed.

Lemma normalise_zero : Evolution.normalise (Fin 0) = Fin 0.
Proof.
  unfold Evolution.normalise.
  assert (P : (Fin 0 >? Math.PI)%js = false)
    by (simpl; apply Rltb_false; pose proof PI_RGT_0; lra).
  assert (N : (Fin 0 <? - Math.PI)%js = false)
    by (simpl; apply Rltb_false; pose proof PI_RGT_0; lra).
  rewrite (while_done _ (fun d => (d >? Math.PI)%js) _ (Fin 0) P).
  now rewrite (while_done _ (fun d => (d <? - Math.PI)%js) _ (Fin 0) N).
Qed.

Lemma half_pi : (Math.PI / Fin 2)%js = Fin (PI / 2).
Proof. simpl. now rcmp. Qed.

(** A target that moves, with an active shield, blocks a virus that
    arrives from the very direction of its motion. *)
Lemma shield_blocks_ahead (target : Entity.t) (strength : R) :
  DNA.get (Entity.dna target) "shield" = Fin strength ->
  0 < strength ->
  (Math.hypot (Entity.vx target) (Entity.vy target) >? Fin 0.01)%js = true ->
  Evolution.shield_blocks target
    (Math.atan2 (Entity.vy target) (Entity.vx target)) = true.
Proof.
  intros Hsh Hpos Hspd. unfold Evolution.shield_blocks.
  rewrite Hsh, Hspd.
  replace (Fin strength >? Fin 0)%js with true
    by (symmetry; simpl; now apply Rltb_true).
  unfold Num.gt in Hspd. apply lt_true_inv in Hspd.
  destruct Hspd as (? & spd & _ & Hh & _).
  destruct (Entity.vx target) as [vx|], (Entity.vy target) as [vy|];
    try discriminate.
  cbn [Math.atan2 Num.lift2 Num.sub].
  rewrite Rminus_diag, normalise_zero, half_pi. simpl.
  rewrite Rabs_R0. apply Rltb_true. pose proof PI_RGT_0. nra.
Qed.

(** C3 (amended).  When the shield trait of the target is 1.0, its speed
    exceeds 0.01 and the virus arrives from the direction of its motion
    (the approach angle equals the front angle: angle delta 0), the contact
    returns before the kill roll: the target is returned as it was and no
    random number is drawn, whatever the stream holds. *)
Theorem shield_blocks_frontal_attack (c : Evolution.Controller)
    (virus target : Entity.t) (s : RNG) :
  DNA.get (Entity.dna target) "shield" = Fin 1 ->
  (Math.hypot (Entity.vx target) (Entity.vy target) >? Fin 0.01)%js = true ->
  Evolution.resolveVirusContact c virus target
    (Math.atan2 (Entity.vy target) (Entity.vx target)) s
  = (target, s).
Proof.
  intros Hsh Hspd. unfold Evolution.resolveVirusContact.
  rewrite (shield_blocks_ahead target Hsh) by (lra || assumption).
  reflexivity.
Qed.

Lemma sqrt_gt_bound (x c : R) : 0 <= c -> c * c < x -> c < sqrt x.
Proof.
  intros Hc Hx. rewrite <- (sqrt_square c Hc) at 1.
  apply sqrt_lt_1_alt. nra.
Qed.

Lemma shield_blocks_frontal_attack_witness :
  DNA.get (Entity.dna Sample.shielded_cell) "shield" = Fin 1
  /\ (Math.hypot (Entity.vx Sample.shielded_cell)
        (Entity.vy Sample.shielded_cell) >? Fin 0.01)%js = true
  /\ Evolution.resolveVirusContact Sample.controller
       (Sample.virus_at 403 304 (-0.3) (-0.4)) Sample.shielded_cell
       (Math.atan2 (Entity.vy Sample.shielded_cell)
          (Entity.vx Sample.shielded_cell))
       Sample.zero_stream
     = (Sample.shielded_cell, Sample.zero_stream).
Proof.
  assert (H : (Math.hypot (Entity.vx Sample.shielded_cell)
                 (Entity.vy Sample.shielded_cell) >? Fin 0.01)%js = true)
    by (simpl; apply Rltb_true; apply sqrt_gt_bound; lra).
  split; [reflexivity|]. split; [exact H|].
  apply shield_blocks_frontal_attack; [reflexivity | exact H].
Defined.

Lemma zero_stream_ok : rng_ok Sample.zero_stream.
Proof. intros n. unfold Sample.zero_stream. lra. Qed.

(** C3, as stated, fails for a target that moves at a speed of at most
    0.01: the shield test is skipped and the kill roll decides.  Here the
    target moves at 0.005 along x, the virus arrives from straight ahead,
    the roll draws 0 and the target dies. *)
Lemma slow_target_is_killed :
  let target := Sample.slow_shielded_cell in
  let r := Evolution.resolveVirusContact Sample.controller
             (Sample.virus_at 403 300 (-0.8) 0) target
             (Math.atan2 (Entity.vy target) (Entity.vx target))
             Sample.zero_stream in
  rng_ok Sample.zero_stream
  /\ DNA.get (Entity.dna target) "shield" = Fin 1
  /\ Entity.vx target = Fin 0.005
  /\ fst r = Entity.die target
  /\ Entity.dying (fst r) = true.
Proof.
  cbv zeta. split; [exact zero_stream_ok|].
  split; [reflexivity|]. split; [reflexivity|].
  assert (B : Evolution.shield_blocks Sample.slow_shielded_cell
                (Math.atan2 (Entity.vy Sample.slow_shielded_cell)
                   (Entity.vx Sample.slow_shielded_cell)) = false).
  { unfold Evolution.shield_blocks.
    replace (DNA.get (Entity.dna Sample.slow_shielded_cell) "shield") with (Fin 1)
      by reflexivity.
    replace (Fin 1 >? Fin 0)%js with true
      by (symmetry; simpl; apply Rltb_true; lra).
    replace (Math.hypot _ _ >? Fin 0.01)%js with false; [reflexivity|].
    symmetry. simpl. apply Rltb_false. apply sqrt_le_bound; lra. }
  unfold Evolution.resolveVirusContact. rewrite B.
  rewrite bind_run.
  change (fst (Math.random Sample.zero_stream)) with (Fin 0).
  match goal with
  | |- context [(Fin 0 <? ?k)%js] =>
      replace (Fin 0 <? k)%js with true
  end.
  - split; reflexivity.
  - symmetry. simpl. apply Rltb_true. unfold Rmin, Rmax.
    repeat match goal with
           | |- context [Rle_dec ?a ?b] => destruct (Rle_dec a b)
           end; lra.
Qed.

Lemma Ratan2_ahead (x : R) : 0 < x -> Math.Ratan2 0 x = 0.
Proof.
  intros H. unfold Math.Ratan2. destruct (Rlt_dec 0 x); [|lra].
  unfold Rdiv. now rewrite Rmult_0_l, atan_0.
Qed.

Lemma Ratan2_behind (x : R) : x < 0 -> Math.Ratan2 0 x = PI.
Proof.
  intros H. unfold Math.Ratan2.
  destruct (Rlt_dec 0 x); [lra|]. destruct (Rlt_dec x 0); [|lra].
  destruct (Rle_dec 0 0); [|lra].
  unfold Rdiv. rewrite Rmult_0_l, atan_0. lra.
Qed.

Lemma normalise_minus_pi : Evolution.normalise (Fin (- PI)) = Fin (- PI).
Proof.
  pose proof PI_RGT_0 as Hpi. unfold Evolution.normalise.
  rewrite (while_done _ (fun d => (d >? Math.PI)%js) _ (Fin (- PI)))
    by (simpl; apply Rltb_false; lra).
  now rewrite (while_done _ (fun d => (d <? - Math.PI)%js) _ (Fin (- PI)))
    by (simpl; apply Rltb_false; lra).
Qed.

(** The front angle is read from the velocity that the impulse of the same
    collision has left.  A shielded cell runs head-on into a virus that
    sits straight ahead of it: the impulse reverses the cell, the virus is
    then behind the new direction of motion, the shield does not block and
    a roll of 0 kills the cell. *)
Lemma head_on_contact_kills :
  let cell := Sample.head_on_cell in
  let virus := Sample.virus_at 403 300 (-0.8) 0 in
  Entity.dying
    (fst (fst (Evolution.collide Sample.controller cell virus
                 Sample.zero_stream))) = true.
Proof.
  intros cell virus. unfold Evolution.collide.
  cbn [Entity.alive Entity.dying cell virus Sample.head_on_cell Sample.cell_at
       Sample.virus_at negb orb Entity.x Entity.y Entity.entityKey].
  replace (Math.hypot (Fin 403 - Fin 400) (Fin 300 - Fin 300)) with (Fin 3).
  2:{ simpl. f_equal. symmetry.
      replace ((403 - 400) * (403 - 400) + (300 - 300) * (300 - 300))
        with (3 * 3) by ring.
      apply sqrt_square. lra. }
  replace (Fin 3 >=? DEFAULTS.COLLISION_DIAMETER)%js with false
    by (symmetry; simpl; apply Rleb_false; lra).
  replace (Fin 3 === Fin 0)%js with false
    by (symmetry; simpl; apply Reqb_false; lra).
  cbn [orb].
  replace ((Fin 403 - Fin 400) / Fin 3)%js with (Fin 1)
    by (simpl; rcmp; f_equal; field).
  replace ((Fin 300 - Fin 300) / Fin 3)%js with (Fin 0)
    by (simpl; rcmp; f_equal; field).
  unfold Evolution.impulse, Evolution.separate, Evolution.feedback,
    Evolution.infection. simpl. repeat (rcmp; simpl).
  unfold Evolution.virus_contact. simpl.
  unfold Evolution.resolveVirusContact, Evolution.shield_blocks. simpl.
  repeat (rcmp; simpl).
  match goal with
  | |- context [Num.Rltb 0.01 (sqrt ?v)] =>
      replace (Num.Rltb 0.01 (sqrt v)) with true
        by (symmetry; apply Rltb_true; apply sqrt_gt_bound; lra)
  end.
  replace (0 - ((0.8 - -0.8) * 1 + (0 - 0) * 0) * 0) with 0 by ring.
  replace (0.8 - ((0.8 - -0.8) * 1 + (0 - 0) * 0) * 1) with (-0.8) by lra.
  rewrite Ratan2_ahead, Ratan2_behind by lra.
  replace (0 - PI) with (- PI) by ring.
  rewrite normalise_minus_pi.
  pose proof PI_RGT_0 as Hpi.
  replace (Math.abs (Fin (- PI)) <? Fin (1 * (PI / 2)))%js with false
    by (symmetry; simpl; apply Rltb_false; rewrite Rabs_Ropp, Rabs_right; lra).
  rewrite !bind_run.
  change (fst (Math.random Sample.zero_stream)) with (Fin 0).
  replace (Fin 0 <? Fin (Rmin 1 (Rmax 0 (0.9 - 0.0) + 0.0)))%js with true.
  - reflexivity.
  - symmetry. simpl. apply Rltb_true. unfold Rmin, Rmax.
    repeat match goal with
           | |- context [Rle_dec ?a ?b] => destruct (Rle_dec a b)
           end; lra.
Qed.

(** The fuel of [normalise] never runs out: each loop stops because its
    condition has become false. *)
Lemma turns_enough (r : R) :
  Rabs r < 2 * PI * INR (Evolution.turns (Fin r)).
Proof.
  pose proof PI_RGT_0 as Hpi. pose proof (Rabs_pos r) as Hr.
  unfold Evolution.turns.
  set (q := Rabs r / (2 * PI)).
  assert (Hq : 0 <= q).
  { unfold q, Rdiv. apply Rmult_le_pos; [exact Hr|].
    left. apply Rinv_0_lt_compat. lra. }
  destruct (archimed q) as [Hup _].
  assert (Hz : (0 < up q)%Z) by (apply lt_IZR; lra).
  rewrite INR_IZR_INZ, Z2Nat.id by lia.
  assert (E : Rabs r = q * (2 * PI)) by (unfold q; field; lra).
  rewrite E. nra.
Qed.

Lemma while_sub_exits (n : nat) :
  forall r : R,
    r - PI <= 2 * PI * INR n ->
    (Evolution.while_ n (fun d => (d >? Math.PI)%js)
       (fun d => (d - Math.PI * Fin 2)%js) (Fin r) >? Math.PI)%js = false.
Proof.
  induction n as [|n IH]; intros r H.
  - simpl in *. apply Rltb_false. lra.
  - cbn [Evolution.while_]. destruct (Fin r >? Math.PI)%js eqn:E.
    + cbn [Math.PI Num.mul Num.sub Num.lift2]. apply IH.
      rewrite S_INR in H. lra.
    + exact E.
Qed.

Lemma while_add_exits (n : nat) :
  forall r : R,
    - PI - r <= 2 * PI * INR n ->
    (Evolution.while_ n (fun d => (d <? - Math.PI)%js)
       (fun d => (d + Math.PI * Fin 2)%js) (Fin r) <? - Math.PI)%js = false.
Proof.
  induction n as [|n IH]; intros r H.
  - simpl in *. apply Rltb_false. lra.
  - cbn [Evolution.while_]. destruct (Fin r <? - Math.PI)%js eqn:E.
    + cbn [Math.PI Num.mul Num.add Num.lift2]. apply IH.
      rewrite S_INR in H. lra.
    + exact E.
Qed.

Lemma while_finite (n : nat) (cond : number -> bool) (body : number -> number) :
  (forall r, exists r', body (Fin r) = Fin r') ->
  forall r, exists r', Evolution.while_ n cond body (Fin r) = Fin r'.
Proof.
  intros Hb. induction n as [|n IH]; intros r; simpl; [eauto|].
  destruct (cond (Fin r)); [|eauto].
  destruct (Hb r) as [r1 ->]. apply IH.
Qed.

Lemma normalise_exits (diff : number) :
  let d1 := Evolution.while_ (Evolution.turns diff)
              (fun d => (d >? Math.PI)%js)
              (fun d => (d - Math.PI * Fin 2)%js) diff in
  (d1 >? Math.PI)%js = false
  /\ (Evolution.normalise diff <? - Math.PI)%js = false.
Proof.
  destruct diff as [r|].
  - cbv zeta. pose proof PI_RGT_0 as Hpi. split.
    + apply while_sub_exits. pose proof (turns_enough r).
      pose proof (Rle_abs r). lra.
    + unfold Evolution.normalise.
      destruct (while_finite (Evolution.turns (Fin r))
                  (fun d => (d >? Math.PI)%js)
                  (fun d => (d - Math.PI * Fin 2)%js)
                  (fun r0 => ex_intro _ (r0 - PI * 2) eq_refl) r) as [r1 ->].
      apply while_add_exits. pose proof (turns_enough r1).
      pose proof (Rle_abs (- r1)). rewrite Rabs_Ropp in *. lra.
  - split; reflexivity.
Qed.

(** ** Pairwise collisions *)

Lemma die_placed (e : Entity.t) : placed (Entity.die e) = placed e.
Proof. unfold Entity.die. now destruct (_ || _). Qed.

Lemma infectWith_placed (e : Entity.t) (icon : string) (force : bool)
    (d : option DNA.t) :
  placed (Entity.infectWith e icon force d) = placed e.
Proof.
  unfold Entity.infectWith.
  destruct (_ || _); [reflexivity|]. destruct (_ && _); [reflexivity|].
  now destruct d.
Qed.

Lemma resolveVirusContact_placed (c : Evolution.Controller)
    (virus target : Entity.t) (angle : number) (s : RNG) :
  placed (fst (Evolution.resolveVirusContact c virus target angle s))
  = placed target.
Proof.
  unfold Evolution.resolveVirusContact.
  destruct (Evolution.shield_blocks target angle); [reflexivity|].
  rewrite bind_run. destruct (_ <? _)%js; [apply die_placed | reflexivity].
Qed.

Lemma impulse_placed (a b : Entity.t) (nx ny : number) (ba bb : bool) :
  placed (fst (Evolution.impulse a b nx ny ba bb)) = placed a
  /\ placed (snd (Evolution.impulse a b nx ny ba bb)) = placed b.
Proof.
  unfold Evolution.impulse.
  destruct (_ >? _)%js; [|auto]. destruct ba, bb; simpl; auto.
Qed.

Lemma onHit_placed (e : Entity.t) :
  placed (Entity.onHit e)
  = (Entity.x e, Entity.y e, S (Entity.onHit_calls e)).
Proof. unfold Entity.onHit. now destruct (_ || _). Qed.

Lemma infection_placed (a b : Entity.t) :
  placed (fst (Evolution.infection a b)) = placed a
  /\ placed (snd (Evolution.infection a b)) = placed b.
Proof.
  unfold Evolution.infection.
  repeat match goal with
         | |- context [if ?c then _ else _] => destruct c
         end; simpl; auto using infectWith_placed.
Qed.

Lemma virus_contact_placed (c : Evolution.Controller) (a b : Entity.t)
    (nx ny : number) (s : RNG) :
  placed (fst (fst (Evolution.virus_contact c a b nx ny s))) = placed a
  /\ placed (snd (fst (Evolution.virus_contact c a b nx ny s))) = placed b.
Proof.
  unfold Evolution.virus_contact.
  destruct (_ && _).
  - rewrite bind_run. simpl. auto using resolveVirusContact_placed.
  - destruct (_ && _); [|auto].
    rewrite bind_run. simpl. auto using resolveVirusContact_placed.
Qed.

Lemma collide_placed (c : Evolution.Controller) (a b : Entity.t) (s : RNG)
    (ax ay bx by_ : R) :
  Entity.alive a = true -> Entity.alive b = true ->
  Entity.dying a = false -> Entity.dying b = false ->
  String.eqb (Entity.entityKey a) "bug" = false ->
  String.eqb (Entity.entityKey b) "bug" = false ->
  Entity.x a = Fin ax -> Entity.y a = Fin ay ->
  Entity.x b = Fin bx -> Entity.y b = Fin by_ ->
  let dx := bx - ax in
  let dy := by_ - ay in
  let dist := sqrt (dx * dx + dy * dy) in
  let half := (24 - dist) / 2 in
  0 < dist < 24 ->
  let r := fst (Evolution.collide c a b s) in
  placed (fst r)
  = (Fin (ax - half * (dx / dist)), Fin (ay - half * (dy / dist)),
     S (Entity.onHit_calls a))
  /\ placed (snd r)
     = (Fin (bx + half * (dx / dist)), Fin (by_ + half * (dy / dist)),
        S (Entity.onHit_calls b)).
Proof.
  intros Ha Hb Hda Hdb Hka Hkb Hax Hay Hbx Hby dx dy dist half Hd r.
  subst r. unfold Evolution.collide.
  rewrite Ha, Hb, Hda, Hdb, Hka, Hkb, Hax, Hay, Hbx, Hby.
  cbn [negb orb andb].
  cbn [Math.hypot Num.lift2 Num.sub].
  fold dx dy. fold dist.
  replace (Fin dist >=? DEFAULTS.COLLISION_DIAMETER)%js with false
    by (symmetry; simpl; apply Rleb_false; lra).
  replace (Fin dist === Fin 0)%js with false
    by (symmetry; simpl; apply Reqb_false; lra).
  cbn [orb].
  replace (Fin dx / Fin dist)%js with (Fin (dx / dist))
    by (simpl; rcmp; reflexivity).
  replace (Fin dy / Fin dist)%js with (Fin (dy / dist))
    by (simpl; rcmp; reflexivity).
  destruct (impulse_placed a b (Fin (dx / dist)) (Fin (dy / dist)) false false)
    as [Ia Ib].
  destruct (Evolution.impulse a b _ _ false false) as [a1 b1].
  cbn [fst snd] in Ia, Ib.
  unfold Evolution.separate, Evolution.feedback. cbn [negb andb].
  set (a2 := Entity.onHit _). set (b2 := Entity.onHit _).
  assert (Pa : placed a2 = (Fin (ax - half * (dx / dist)),
                            Fin (ay - half * (dy / dist)),
                            S (Entity.onHit_calls a))).
  { subst a2. rewrite onHit_placed. entity_fields.
    unfold placed in Ia. injection Ia as -> -> ->. rewrite Hax, Hay.
    simpl. rcmp. reflexivity. }
  assert (Pb : placed b2 = (Fin (bx + half * (dx / dist)),
                            Fin (by_ + half * (dy / dist)),
                            S (Entity.onHit_calls b))).
  { subst b2. rewrite onHit_placed. entity_fields.
    unfold placed in Ib. injection Ib as -> -> ->. rewrite Hbx, Hby.
    simpl. rcmp. reflexivity. }
  clearbody a2 b2.
  destruct (negb (Evolution.iconsData c)); [simpl; auto|].
  destruct (infection_placed a2 b2) as [Fa Fb].
  destruct (Evolution.infection a2 b2) as [a3 b3]. cbn [fst snd] in Fa, Fb.
  cbv beta iota.
  destruct (virus_contact_placed c a3 b3 (Fin (dx / dist)) (Fin (dy / dist)) s)
    as [Va Vb].
  rewrite Va, Vb, Fa, Fb. auto.
Qed.

Lemma checkCollisions_pair (c : Evolution.Controller) (a b : Entity.t)
    (s : RNG) :
  fst (Evolution.checkCollisions c [a; b] s)
  = [fst (fst (Evolution.collide c a b s));
     snd (fst (Evolution.collide c a b s))].
Proof.
  unfold Evolution.checkCollisions. simpl.
  rewrite !bind_run. simpl. reflexivity.
Qed.

Lemma hypot_finite (xa ya xb yb : number) (d : R) :
  Math.hypot (xb - xa)%js (yb - ya)%js = Fin d ->
  exists ax ay bx by_,
    xa = Fin ax /\ ya = Fin ay /\ xb = Fin bx /\ yb = Fin by_
    /\ d = sqrt ((bx - ax) * (bx - ax) + (by_ - ay) * (by_ - ay)).
Proof.
  destruct xa as [ax|], ya as [ay|], xb as [bx|], yb as [by_|];
    simpl; try discriminate.
  intros [= <-]. exists ax, ay, bx, by_. auto.
Qed.

(** C7.  Two overlapping entities, alive, not dying, neither of them a bug,
    at a distance strictly between 0 and the collision diameter.  A pass of
    [#checkCollisions] over the two moves them by the same vector in
    opposite directions: with (nx, ny) the quotient of the difference of the
    centres by the distance, and [half] the half of the diameter minus the
    distance, each as the code computes it, the first entity ends at its
    position minus half * (nx, ny) and the second at its position plus
    half * (nx, ny).  Each has received one call of [onHit]. *)
Theorem collision_symmetry (c : Evolution.Controller) (a b : Entity.t)
    (s : RNG) :
  Entity.alive a = true -> Entity.alive b = true ->
  Entity.dying a = false -> Entity.dying b = false ->
  String.eqb (Entity.entityKey a) "bug" = false ->
  String.eqb (Entity.entityKey b) "bug" = false ->
  let dx := (Entity.x b - Entity.x a)%js in
  let dy := (Entity.y b - Entity.y a)%js in
  let dist := Math.hypot dx dy in
  (Fin 0 <? dist)%js = true ->
  (dist <? DEFAULTS.COLLISION_DIAMETER)%js = true ->
  let nx := (dx / dist)%js in
  let ny := (dy / dist)%js in
  let half := ((DEFAULTS.COLLISION_DIAMETER - dist) / Fin 2)%js in
  exists a' b',
    fst (Evolution.checkCollisions c [a; b] s) = [a'; b']
    /\ Entity.x a' = (Entity.x a - half * nx)%js
    /\ Entity.y a' = (Entity.y a - half * ny)%js
    /\ Entity.x b' = (Entity.x b + half * nx)%js
    /\ Entity.y b' = (Entity.y b + half * ny)%js
    /\ Entity.onHit_calls a' = S (Entity.onHit_calls a)
    /\ Entity.onHit_calls b' = S (Entity.onHit_calls b).
Proof.
  intros Ha Hb Hda Hdb Hka Hkb dx dy dist Hpos Hlt nx ny half.
  apply lt_true_inv in Hpos. destruct Hpos as (? & d & [= <-] & Hd & Hd0).
  apply lt_true_inv in Hlt. destruct Hlt as (d' & ? & Hd' & [= <-] & Hd24).
  assert (d' = d) by congruence. subst d'. clear Hd'.
  destruct (hypot_finite _ _ _ _ Hd)
    as (ax & ay & bx & by_ & Hax & Hay & Hbx & Hby & Ed).
  destruct (@collide_placed c a b s ax ay bx by_
              Ha Hb Hda Hdb Hka Hkb Hax Hay Hbx Hby) as [Pa Pb].
  { rewrite <- Ed. lra. }
  rewrite <- Ed in Pa, Pb.
  eexists. eexists. split; [apply checkCollisions_pair|].
  unfold placed in Pa, Pb.
  injection Pa as Pax Pay Pac. injection Pb as Pbx Pby Pbc.
  rewrite Pax, Pay, Pbx, Pby, Pac, Pbc.
  subst half nx ny. rewrite Hd. subst dx dy. rewrite Hax, Hay, Hbx, Hby.
  simpl. repeat rcmp. auto 10.
Qed.

(** Two cells at rest on a line, 10 apart: the overlap is 14, the first is
    moved from x = 100 to 93 and the second from 110 to 117. *)
Lemma collision_symmetry_witness :
  let a := Sample.row_a in
  let b := Sample.row_b in
  let dist := Math.hypot (Entity.x b - Entity.x a)%js
                (Entity.y b - Entity.y a)%js in
  dist = Fin 10
  /\ exists a' b',
       fst (Evolution.checkCollisions Sample.controller [a; b]
              Sample.half_stream) = [a'; b']
       /\ Entity.x a' = Fin 93 /\ Entity.y a' = Fin 100
       /\ Entity.x b' = Fin 117 /\ Entity.y b' = Fin 100
       /\ Entity.onHit_calls a' = 1%nat
       /\ Entity.onHit_calls b' = 1%nat.
Proof.
  intros a b dist.
  assert (D : dist = Fin 10).
  { unfold dist, a, b, Sample.row_a, Sample.row_b, Sample.resting_cell.
    entity_fields. cbn [Math.hypot Num.lift2 Num.sub]. f_equal.
    replace ((110 - 100) * (110 - 100) + (100 - 100) * (100 - 100))
      with (10 * 10) by lra. apply sqrt_square. lra. }
  split; [exact D|].
  assert (H0 : (Fin 0 <? dist)%js = true)
    by (rewrite D; apply Rltb_true; lra).
  assert (H24 : (dist <? DEFAULTS.COLLISION_DIAMETER)%js = true)
    by (rewrite D; apply Rltb_true; simpl; lra).
  destruct (collision_symmetry Sample.controller a b Sample.half_stream
              eq_refl eq_refl eq_refl eq_refl eq_refl eq_refl H0 H24)
    as (a' & b' & E & Xa & Ya & Xb & Yb & Ca & Cb).
  exists a', b'. split; [exact E|].
  fold dist in Xa, Ya, Xb, Yb. rewrite D in Xa, Ya, Xb, Yb.
  rewrite Xa, Ya, Xb, Yb, Ca, Cb.
  unfold a, b, Sample.row_a, Sample.row_b, Sample.resting_cell.
  entity_fields. simpl. repeat rcmp. simpl.
  repeat split; try reflexivity; f_equal; lra.
Defined.

(** A third entity.  The pass handles the pairs one after the other, and
    an entity that overlaps two others is moved twice. *)

Lemma checkCollisions_triple (c : Evolution.Controller) (a b d : Entity.t)
    (s : RNG) :
  let ab := Evolution.collide c a b s in
  let ad := Evolution.collide c (fst (fst ab)) d (snd ab) in
  let bd := Evolution.collide c (snd (fst ab)) (snd (fst ad)) (snd ad) in
  fst (Evolution.checkCollisions c [a; b; d] s)
  = [fst (fst ad); fst (fst bd); snd (fst bd)].
Proof.
  unfold Evolution.checkCollisions. simpl.
  rewrite !bind_run. simpl. rewrite !bind_run. simpl. reflexivity.
Qed.

(** The collision of two cells at rest. *)
Lemma collide_at_rest (c : Evolution.Controller) (xa ya xb yb : R)
    (n m : nat) (s : RNG) :
  let dx := xb - xa in
  let dy := yb - ya in
  let dist := sqrt (dx * dx + dy * dy) in
  let half := (24 - dist) / 2 in
  0 < dist < 24 ->
  Evolution.collide c (Sample.resting_cell xa ya n)
    (Sample.resting_cell xb yb m) s
  = (Sample.resting_cell (xa - half * (dx / dist)) (ya - half * (dy / dist))
       (S n),
     Sample.resting_cell (xb + half * (dx / dist)) (yb + half * (dy / dist))
       (S m),
     s).
Proof.
  intros dx dy dist half Hd.
  unfold Evolution.collide, Sample.resting_cell. entity_fields.
  cbn [negb orb andb].
  cbn [Math.hypot Num.lift2 Num.sub].
  fold dx dy. fold dist.
  replace (Fin dist >=? DEFAULTS.COLLISION_DIAMETER)%js with false
    by (symmetry; simpl; apply Rleb_false; lra).
  replace (Fin dist === Fin 0)%js with false
    by (symmetry; simpl; apply Reqb_false; lra).
  cbn [orb].
  replace (Fin dx / Fin dist)%js with (Fin (dx / dist))
    by (simpl; rcmp; reflexivity).
  replace (Fin dy / Fin dist)%js with (Fin (dy / dist))
    by (simpl; rcmp; reflexivity).
  unfold Evolution.impulse. entity_fields.
  replace ((Fin 0 - Fin 0) * Fin (dx / dist) + (Fin 0 - Fin 0) * Fin (dy / dist)
           >? Fin 0)%js with false
    by (symmetry; simpl; apply Rltb_false; lra).
  cbn [String.eqb Ascii.eqb Bool.eqb].
  unfold Evolution.separate, Evolution.feedback. cbn [negb andb].
  unfold Entity.onHit. entity_fields. cbn [negb orb].
  replace ((DEFAULTS.COLLISION_DIAMETER - Fin dist) / Fin 2)%js
    with (Fin half) by (simpl; rcmp; reflexivity).
  cbn [Num.sub Num.add Num.mul Num.lift2].
  destruct (negb (Evolution.iconsData c)); [reflexivity|].
  unfold Evolution.infection. entity_fields.
  cbn [String.eqb Ascii.eqb Bool.eqb].
  unfold Evolution.virus_contact. entity_fields.
  cbn [String.eqb Ascii.eqb Bool.eqb andb]. reflexivity.
Qed.

Lemma collide_apart (c : Evolution.Controller) (a b : Entity.t) :
  apart a b -> Evolution.collide c a b = ret (a, b).
Proof.
  intros (d & Hd & H). unfold Evolution.collide.
  destruct (_ || _); [reflexivity|]. rewrite Hd.
  replace (Fin d >=? DEFAULTS.COLLISION_DIAMETER)%js with true
    by (symmetry; simpl; apply Rleb_true; lra).
  reflexivity.
Qed.

(** Three cells at rest on a line, at x = 100, 110 and 90.  The first pair
    is pushed to 93 and 117; the first cell, now 3 away from the third, is
    pushed back to 103.5 and the third to 79.5; the last pair is apart. *)
Lemma row_pass :
  fst (Evolution.checkCollisions Sample.controller
         [Sample.row_a; Sample.row_b; Sample.row_c] Sample.half_stream)
  = [Sample.resting_cell 103.5 100 2; Sample.resting_cell 117 100 1;
     Sample.resting_cell 79.5 100 1].
Proof.
  rewrite checkCollisions_triple. cbv zeta.
  unfold Sample.row_a, Sample.row_b, Sample.row_c.
  assert (D1 : sqrt ((110 - 100) * (110 - 100) + (100 - 100) * (100 - 100))
               = 10).
  { replace ((110 - 100) * (110 - 100) + (100 - 100) * (100 - 100))
      with (10 * 10) by lra. apply sqrt_square. lra. }
  rewrite collide_at_rest by (rewrite D1; lra).
  cbn [fst snd]. rewrite D1.
  replace (100 - (24 - 10) / 2 * ((110 - 100) / 10)) with 93 by lra.
  replace (100 - (24 - 10) / 2 * ((100 - 100) / 10)) with 100 by lra.
  replace (110 + (24 - 10) / 2 * ((110 - 100) / 10)) with 117 by lra.
  replace (100 + (24 - 10) / 2 * ((100 - 100) / 10)) with 100 by lra.
  assert (D2 : sqrt ((90 - 93) * (90 - 93) + (100 - 100) * (100 - 100)) = 3).
  { replace ((90 - 93) * (90 - 93) + (100 - 100) * (100 - 100))
      with (3 * 3) by lra. apply sqrt_square. lra. }
  rewrite collide_at_rest by (rewrite D2; lra).
  cbn [fst snd]. rewrite D2.
  replace (93 - (24 - 3) / 2 * ((90 - 93) / 3)) with 103.5 by lra.
  replace (100 - (24 - 3) / 2 * ((100 - 100) / 3)) with 100 by lra.
  replace (90 + (24 - 3) / 2 * ((90 - 93) / 3)) with 79.5 by lra.
  replace (100 + (24 - 3) / 2 * ((100 - 100) / 3)) with 100 by lra.
  rewrite collide_apart; [reflexivity|].
  eexists. split; [reflexivity|].
  replace ((79.5 - 117) * (79.5 - 117) + (100 - 100) * (100 - 100))
    with (37.5 * 37.5) by lra.
  rewrite sqrt_square; lra.
Qed.

(** The first two cells overlap by 14, neither is a bug, and after the
    pass over the three the lengths of their displacements are 3.5 and 7:
    they add up to 10.5. *)
Lemma third_entity_breaks_symmetry :
  let a := Sample.row_a in
  let b := Sample.row_b in
  let dist := Math.hypot (Entity.x b - Entity.x a)%js
                (Entity.y b - Entity.y a)%js in
  (Fin 0 <? dist)%js = true
  /\ (dist <? DEFAULTS.COLLISION_DIAMETER)%js = true
  /\ (DEFAULTS.COLLISION_DIAMETER - dist)%js = Fin 14
  /\ exists a' b' c',
       fst (Evolution.checkCollisions Sample.controller [a; b; Sample.row_c]
              Sample.half_stream) = [a'; b'; c']
       /\ Math.hypot (Entity.x a' - Entity.x a) (Entity.y a' - Entity.y a)
          = Fin 3.5
       /\ Math.hypot (Entity.x b' - Entity.x b) (Entity.y b' - Entity.y b)
          = Fin 7
       /\ (Math.hypot (Entity.x a' - Entity.x a) (Entity.y a' - Entity.y a)
           + Math.hypot (Entity.x b' - Entity.x b)
               (Entity.y b' - Entity.y b))%js
          <> (DEFAULTS.COLLISION_DIAMETER - dist)%js.
Proof.
  intros a b dist.
  assert (D : dist = Fin 10).
  { unfold dist, a, b, Sample.row_a, Sample.row_b, Sample.resting_cell.
    entity_fields. cbn [Math.hypot Num.lift2 Num.sub]. f_equal.
    replace ((110 - 100) * (110 - 100) + (100 - 100) * (100 - 100))
      with (10 * 10) by lra. apply sqrt_square. lra. }
  rewrite D.
  split; [apply Rltb_true; lra|]. split; [apply Rltb_true; simpl; lra|].
  split; [simpl; f_equal; lra|].
  eexists _, _, _. split; [apply row_pass|].
  unfold a, b, Sample.row_a, Sample.row_b, Sample.resting_cell.
  entity_fields. cbn [Math.hypot Num.lift2 Num.sub].
  assert (Ea : sqrt ((103.5 - 100) * (103.5 - 100)
                     + (100 - 100) * (100 - 100)) = 3.5).
  { replace ((103.5 - 100) * (103.5 - 100) + (100 - 100) * (100 - 100))
      with (3.5 * 3.5) by lra. apply sqrt_square. lra. }
  assert (Eb : sqrt ((117 - 110) * (117 - 110)
                     + (100 - 100) * (100 - 100)) = 7).
  { replace ((117 - 110) * (117 - 110) + (100 - 100) * (100 - 100))
      with (7 * 7) by lra. apply sqrt_square. lra. }
  rewrite Ea, Eb. split; [reflexivity|]. split; [reflexivity|].
  simpl. intros [= H]. lra.
Qed.

(** ** Ejection of logo letters *)








Lemma hit_letter (bd : Logo.Bounds) (entity : Entity.t)
    (letter : Logo.Letter) (s : RNG) :
  Logo.mounted letter = true ->
  let dx := (Entity.x entity - Logo.x letter)%js in
  let dy := (Entity.y entity - Logo.y letter)%js in
  let dist := Math.hypot dx dy in
  (Fin 0 <? dist)%js = true ->
  (dist <? DEFAULTS.LOGO_COLLISION_DIAMETER)%js = true ->
  snd (fst (Logo.hit bd entity letter s))
  = fst (Logo.bump bd letter (dx / dist)%js (dy / dist)%js s).
Proof.
  intros Hm dx dy dist H0 Hlt. unfold Logo.hit. rewrite Hm. cbn [negb].
  fold dx dy. fold dist.
  apply lt_true_inv in H0. destruct H0 as (? & d & [= <-] & Hd & H0).
  apply lt_true_inv in Hlt. destruct Hlt as (d' & ? & Hd' & [= <-] & Hlt).
  rewrite Hd in *. injection Hd' as <-.
  replace (Fin d >=? DEFAULTS.LOGO_COLLISION_DIAMETER)%js with false
    by (symmetry; simpl; apply Rleb_false; lra).
  replace (Fin d === Fin 0)%js with false
    by (symmetry; simpl; apply Reqb_false; lra).
  cbn [orb]. rewrite bind_run. reflexivity.
Qed.




(* ================================================================== *)
(** * Part III: further properties of the code                         *)
(* ================================================================== *)

(** ** The set of active genes *)

Lemma JsMap_get_app_fresh {V} (m : JsMap.t V) (k : string) (v : V) :
  JsMap.get m k = None -> JsMap.set m k v = m ++ [(k, v)].
Proof.
  induction m as [|[k' v'] rest IH]; simpl; [reflexivity|].
  destruct (String.eqb k' k); [discriminate|]. intros H. now rewrite IH.
Qed.

Lemma JsMap_keys_set_present {V} (m : JsMap.t V) (k : string) (v : V) :
  JsMap.has m k = true -> JsMap.keys (JsMap.set m k v) = JsMap.keys m.
Proof.
  unfold JsMap.has.
  induction m as [|[k' v'] rest IH]; simpl; [discriminate|].
  destruct (String.eqb k' k) eqn:E; simpl; [reflexivity|].
  intros H. now rewrite IH.
Qed.

Lemma JsMap_keys_set_absent {V} (m : JsMap.t V) (k : string) (v : V) :
  JsMap.has m k = false ->
  JsMap.keys (JsMap.set m k v) = JsMap.keys m ++ [k].
Proof.
  unfold JsMap.has. intros H.
  destruct (JsMap.get m k) eqn:E; [discriminate|].
  rewrite JsMap_get_app_fresh by assumption. unfold JsMap.keys.
  now rewrite map_app.
Qed.

Lemma JsMap_has_In {V} (m : JsMap.t V) (k : string) :
  JsMap.has m k = true <-> In k (JsMap.keys m).
Proof.
  unfold JsMap.has.
  induction m as [|[k' v'] rest IH]; simpl; [split; [discriminate|tauto]|].
  destruct (String.eqb k' k) eqn:E.
  - apply String.eqb_eq in E. subst. split; auto.
  - apply String.eqb_neq in E. rewrite IH. split; [auto|].
    intros [H|H]; [contradiction|assumption].
Qed.

Lemma JsMap_get_set_same {V} (m : JsMap.t V) (k : string) (v : V) :
  JsMap.get (JsMap.set m k v) k = Some v.
Proof.
  induction m as [|[k' v'] rest IH]; simpl.
  - now rewrite String.eqb_refl.
  - destruct (String.eqb k' k) eqn:E; simpl; rewrite E; auto.
Qed.

Lemma JsMap_get_set_other {V} (m : JsMap.t V) (k k' : string) (v : V) :
  k <> k' -> JsMap.get (JsMap.set m k v) k' = JsMap.get m k'.
Proof.
  intros Hk.
  induction m as [|[k0 v0] rest IH]; simpl.
  - apply String.eqb_neq in Hk. now rewrite Hk.
  - destruct (String.eqb k0 k) eqn:E; simpl.
    + apply String.eqb_eq in E. subst k0.
      apply String.eqb_neq in Hk. now rewrite Hk.
    + destruct (String.eqb k0 k'); auto.
Qed.

Lemma JsMap_set_wf {V} (m : JsMap.t V) (k : string) (v : V) :
  JsMap.wf m -> JsMap.wf (JsMap.set m k v).
Proof.
  unfold JsMap.wf. intros H.
  destruct (JsMap.has m k) eqn:E.
  - now rewrite JsMap_keys_set_present.
  - rewrite JsMap_keys_set_absent by assumption.
    apply NoDup_app; [assumption | repeat constructor; easy |].
    intros a Ha [<-|[]]. apply JsMap_has_In in Ha. congruence.
Qed.

Lemma JsMap_delete_incl {V} (m : JsMap.t V) (k a : string) :
  In a (JsMap.keys (JsMap.delete m k)) -> In a (JsMap.keys m).
Proof.
  induction m as [|[k' v'] rest IH]; simpl; [tauto|].
  destruct (String.eqb k' k); simpl; [auto|]. intros [H|H]; auto.
Qed.

Lemma JsMap_delete_wf {V} (m : JsMap.t V) (k : string) :
  JsMap.wf m -> JsMap.wf (JsMap.delete m k).
Proof.
  unfold JsMap.wf.
  induction m as [|[k' v'] rest IH]; simpl; [auto|].
  intros H. inversion H as [|? ? Hn Hr]; subst.
  destruct (String.eqb k' k); simpl; [assumption|].
  constructor; [|auto]. intros Hin. apply Hn. eapply JsMap_delete_incl; eauto.
Qed.

Lemma JsMap_delete_size {V} (m : JsMap.t V) (k : string) :
  (JsMap.size m - 1 <= JsMap.size (JsMap.delete m k) <= JsMap.size m)%nat.
Proof.
  unfold JsMap.size.
  induction m as [|[k' v'] rest IH]; simpl; [lia|].
  destruct (String.eqb k' k); simpl; lia.
Qed.

Lemma JsMap_get_delete {V} (m : JsMap.t V) (k g : string) (v : V) :
  JsMap.wf m -> JsMap.get (JsMap.delete m k) g = Some v ->
  JsMap.get m g = Some v.
Proof.
  unfold JsMap.wf.
  induction m as [|[k' v'] rest IH]; simpl; [auto|].
  intros H. inversion H as [|? ? Hn Hr]; subst.
  destruct (String.eqb k' k) eqn:E; simpl.
  - intros Hg. destruct (String.eqb k' g) eqn:E'; [|assumption].
    apply String.eqb_eq in E'. subst g. exfalso. apply Hn.
    apply JsMap_has_In. unfold JsMap.has. now rewrite Hg.
  - destruct (String.eqb k' g); auto.
Qed.

Lemma keys_length {V} (m : JsMap.t V) :
  length (JsMap.keys m) = JsMap.size m.
Proof. unfold JsMap.keys, JsMap.size. apply length_map. Qed.

Section Reproduce_gene_set.

Variable mutationRate : number.
Variable pool : string.

Lemma drift_keys (entries : list (string * number)) :
  forall m : JsMap.t number,
    (forall kv, In kv entries -> JsMap.has m (fst kv) = true) ->
    rand_post (DNA.drift mutationRate entries m)
      (fun m' => JsMap.keys m' = JsMap.keys m).
Proof.
  induction entries as [|[gene value] rest IH]; intros m He; simpl.
  - now apply rand_post_ret.
  - assert (Hrest : forall m' : JsMap.t number,
              JsMap.keys m' = JsMap.keys m ->
              forall kv, In kv rest -> JsMap.has m' (fst kv) = true).
    { intros m' E kv Hkv. apply JsMap_has_In. rewrite E.
      apply JsMap_has_In. apply He. now right. }
    eapply rand_post_bind; [apply rand_post_random|].
    intros r _.
    destruct (r <? mutationRate)%js; [|now apply IH; auto].
    assert (Hset : forall v,
              JsMap.keys (JsMap.set m gene v) = JsMap.keys m).
    { intros v. apply JsMap_keys_set_present. apply (He (gene, value)).
      now left. }
    destruct (Gene.GENE_DEFS_get gene).
    + eapply rand_post_bind; [apply rand_post_random|]. intros r' _.
      eapply rand_post_weaken; [apply IH; apply Hrest; apply Hset|].
      simpl. intros a ->. apply Hset.
    + eapply rand_post_bind; [apply rand_post_random|]. intros r' _.
      eapply rand_post_weaken; [apply IH; apply Hrest; apply Hset|].
      simpl. intros a ->. apply Hset.
    + apply IH; auto.
Qed.

Lemma candidates_of_pool (m : JsMap.t number) (key : string) :
  In key (DNA.candidates pool m) ->
  exists def,
    JsMap.get Gene.GENE_DEFS key = Some def
    /\ Gene.applies def = pool
    /\ JsMap.has m key = false.
Proof.
  unfold DNA.candidates. intros H. apply in_map_iff in H.
  destruct H as ([k d] & <- & H). apply filter_In in H.
  destruct H as [Hin Hf]. apply andb_prop in Hf. destruct Hf as [Hp Hn].
  simpl in Hp, Hn. apply String.eqb_eq in Hp.
  apply negb_true_iff in Hn. exists d. simpl.
  split; [|split; assumption].
  simpl in Hin.
  repeat (destruct Hin as [Hin|Hin]; [inversion Hin; reflexivity|]).
  destruct Hin.
Qed.

Lemma emerge_adds_one (m : JsMap.t number) :
  rand_post (DNA.emerge mutationRate pool m)
    (fun m' =>
       m' = m
       \/ exists key def,
            JsMap.has m key = false
            /\ JsMap.get Gene.GENE_DEFS key = Some def
            /\ Gene.applies def = pool
            /\ m' = JsMap.set m key
                      (Fin (Gene.min def
                            + (Gene.max def - Gene.min def) * 0.1))).
Proof.
  unfold DNA.emerge.
  eapply rand_post_bind; [apply rand_post_random|].
  intros r _.
  destruct (r <? mutationRate * Fin 0.4)%js; [|apply rand_post_ret; auto].
  destruct (0 <? length (DNA.candidates pool m))%nat;
    [|apply rand_post_ret; auto].
  eapply rand_post_bind; [apply rand_post_random|].
  intros r' _.
  destruct (array_get _ _) as [key|] eqn:E; [|apply rand_post_ret; auto].
  apply array_get_In, candidates_of_pool in E.
  destruct E as (def & Hdef & Hp & Hn).
  apply rand_post_ret. right. exists key, def.
  rewrite (GENE_DEFS_get_own _ Hdef). simpl. auto.
Qed.

Lemma silence_removes_one (m : JsMap.t number) :
  rand_post (DNA.silence mutationRate m)
    (fun m' => m' = m \/ exists key, m' = JsMap.delete m key).
Proof.
  unfold DNA.silence.
  destruct (0 <? JsMap.size m)%nat; [|apply rand_post_ret; auto].
  eapply rand_post_bind; [apply rand_post_random|].
  intros r _.
  destruct (r <? mutationRate * Fin 0.15)%js; [|apply rand_post_ret; auto].
  eapply rand_post_bind; [apply rand_post_random|].
  intros r' _.
  destruct (array_get _ _) as [key|]; apply rand_post_ret; eauto.
Qed.

(** X1.  The genes of a child.  For a parent whose keys are distinct, at any
    mutation rate, for any pool and any draws, the child of [reproduce] has
    distinct keys and at most one gene more and one gene less than the
    parent; every gene of the child that the parent lacks is a gene of the
    registry that applies to the pool, stored at [min + (max - min) * 0.1].
    Drift alone never changes the set of genes, and a cell never acquires a
    gene of the virus pool. *)
Theorem reproduce_gene_set (d : DNA.t) :
  JsMap.wf (DNA.genes d) ->
  rand_post (DNA.reproduce d mutationRate pool)
    (fun child =>
       JsMap.wf (DNA.genes child)
       /\ (DNA.size d - 1 <= DNA.size child <= DNA.size d + 1)%nat
       /\ forall g v,
            JsMap.get (DNA.genes child) g = Some v ->
            DNA.has d g = true
            \/ exists def,
                 JsMap.get Gene.GENE_DEFS g = Some def
                 /\ Gene.applies def = pool
                 /\ v = Fin (Gene.min def
                             + (Gene.max def - Gene.min def) * 0.1)).
Proof.
  intros Hwf. unfold DNA.reproduce.
  eapply rand_post_bind.
  { apply drift_keys. intros [k v] Hin. apply JsMap_has_In.
    unfold JsMap.keys. apply in_map_iff. now exists (k, v). }
  intros m1 H1. eapply rand_post_bind; [apply emerge_adds_one|].
  intros m2 H2. eapply rand_post_bind; [apply silence_removes_one|].
  intros m3 H3. apply rand_post_ret. cbn [DNA.genes].
  assert (W1 : JsMap.wf m1) by (unfold JsMap.wf; now rewrite H1).
  assert (S1 : JsMap.size m1 = DNA.size d).
  { unfold DNA.size. rewrite <- !keys_length. now rewrite H1. }
  assert (W2 : JsMap.wf m2).
  { destruct H2 as [->|(key & def & _ & _ & _ & ->)];
      [assumption | now apply JsMap_set_wf]. }
  assert (S2 : (DNA.size d <= JsMap.size m2 <= DNA.size d + 1)%nat).
  { destruct H2 as [->|(key & def & Hn & _ & _ & ->)]; [lia|].
    rewrite <- keys_length. rewrite JsMap_keys_set_absent by assumption.
    rewrite length_app, keys_length. simpl. lia. }
  assert (G2 : forall g v, JsMap.get m2 g = Some v ->
            DNA.has d g = true
            \/ exists def,
                 JsMap.get Gene.GENE_DEFS g = Some def
                 /\ Gene.applies def = pool
                 /\ v = Fin (Gene.min def
                             + (Gene.max def - Gene.min def) * 0.1)).
  { assert (G1 : forall g v, JsMap.get m1 g = Some v -> DNA.has d g = true).
    { intros g v Hg. unfold DNA.has. apply JsMap_has_In. rewrite <- H1.
      apply JsMap_has_In. unfold JsMap.has. now rewrite Hg. }
    destruct H2 as [->|(key & def & Hn & Hdef & Hp & ->)]; [eauto|].
    intros g v Hg. destruct (string_dec key g) as [<-|Hne].
    - rewrite JsMap_get_set_same in Hg. injection Hg as <-. eauto.
    - rewrite JsMap_get_set_other in Hg by assumption. eauto. }
  unfold DNA.size in *. cbn [DNA.genes].
  destruct H3 as [->|(key & ->)].
  - split; [assumption | split; [lia | exact G2]].
  - split; [now apply JsMap_delete_wf|]. split.
    + pose proof (JsMap_delete_size m2 key). lia.
    + intros g v Hg. apply G2. eapply JsMap_get_delete; eauto.
Qed.

End Reproduce_gene_set.

Lemma shielded_dna_wf : JsMap.wf (DNA.genes Sample.shielded_dna).
Proof.
  unfold JsMap.wf. simpl.
  repeat constructor; simpl; intuition discriminate.
Qed.

(** [reproduce] at work: a gene that emerges, a gene that is silenced. *)
Lemma array_get_first {A} (l : list A) (x : R) :
  0 <= x < 1 -> array_get l (Math.floor (Fin x)) = nth_error l 0.
Proof.
  intros Hx. unfold array_get, Math.floor, Num.lift1, Num.to_index.
  rewrite (Zfloor_eq 0 x) by (simpl; lra).
  rewrite (Zfloor_eq 0 (IZR 0)) by (simpl; lra).
  replace (Num.Reqb (IZR 0) (IZR 0)) with true
    by (symmetry; apply Reqb_true; reflexivity).
  replace (Num.Rleb 0 (IZR 0)) with true
    by (symmetry; apply Rleb_true; simpl; lra).
  reflexivity.
Qed.

Lemma emerge_fires (rate : number) (pool : string) (m : JsMap.t number)
    (s : RNG) (key : string) (rest : list string) (n : R) :
  (Fin (s 0%nat) <? rate * Fin 0.4)%js = true ->
  DNA.candidates pool m = key :: rest ->
  (Fin (s 1%nat) * Num.of_nat (length (key :: rest)))%js = Fin n ->
  0 <= n < 1 ->
  DNA.emerge rate pool m s
  = (JsMap.set m key
       (Gene.field Gene.min (Gene.GENE_DEFS_get key)
        + (Gene.field Gene.max (Gene.GENE_DEFS_get key)
           - Gene.field Gene.min (Gene.GENE_DEFS_get key)) * Fin 0.1)%js,
     rng_tail (rng_tail s)).
Proof.
  intros Hr Hcs Hn Hn1. unfold DNA.emerge. rewrite bind_run.
  change (fst (Math.random s)) with (Fin (s 0%nat)). rewrite Hr, Hcs.
  replace (0 <? length (key :: rest))%nat with true by reflexivity.
  rewrite bind_run.
  change (fst (Math.random (snd (Math.random s)))) with (Fin (s 1%nat)).
  rewrite Hn, (array_get_first _ Hn1). reflexivity.
Qed.

Lemma silence_fires (rate : number) (m : JsMap.t number) (s : RNG)
    (kv : string * number) (rest : JsMap.t number) (n : R) :
  m = kv :: rest ->
  (Fin (s 0%nat) <? rate * Fin 0.15)%js = true ->
  (Fin (s 1%nat) * Num.of_nat (length (JsMap.keys m)))%js = Fin n ->
  0 <= n < 1 ->
  DNA.silence rate m s = (JsMap.delete m (fst kv), rng_tail (rng_tail s)).
Proof.
  intros Hm Hr Hn Hn1. unfold DNA.silence.
  replace (0 <? JsMap.size m)%nat with true by (rewrite Hm; reflexivity).
  rewrite bind_run.
  change (fst (Math.random s)) with (Fin (s 0%nat)). rewrite Hr.
  rewrite bind_run.
  change (fst (Math.random (snd (Math.random s)))) with (Fin (s 1%nat)).
  rewrite Hn, (array_get_first _ Hn1). rewrite Hm. reflexivity.
Qed.

(** With every draw at 0.01 the three steps all fire: both genes drift,
    the first missing gene of the cell pool, resistance, emerges at
    0 + 0.6 * 0.1, and the first gene of the map, shield, is silenced. *)
Lemma reproduce_eager :
  fst (DNA.reproduce Sample.shielded_dna DEFAULTS.MUTATION_RATE "cell"
         Scene.eager_stream)
  = DNA.make [("speed"%string, Fin 1.0824);
              ("resistance"%string, Fin 0.06)].
Proof.
  assert (Hr : (Fin (Scene.eager_stream 0%nat)
                <? DEFAULTS.MUTATION_RATE)%js = true)
    by (apply Rltb_true; unfold Scene.eager_stream; lra).
  unfold DNA.reproduce. rewrite !bind_run.
  cbn [Sample.shielded_dna DNA.genes].
  rewrite (@drift_fires _ "shield" _ _ _ Scene.eager_stream _ Hr eq_refl).
  change (rng_tail (rng_tail Scene.eager_stream)) with Scene.eager_stream.
  rewrite (@drift_fires _ "speed" _ _ _ Scene.eager_stream _ Hr eq_refl).
  change (rng_tail (rng_tail Scene.eager_stream)) with Scene.eager_stream.
  cbn [DNA.drift ret fst snd].
  cbn [JsMap.set String.eqb Ascii.eqb Bool.eqb fst snd].
  erewrite emerge_fires with (key := "resistance"%string) (n := 0.02).
  2: apply Rltb_true; unfold Scene.eager_stream; lra.
  2: reflexivity.
  2: unfold Scene.eager_stream; simpl; f_equal; lra.
  2: lra.
  cbn [fst snd].
  change (rng_tail (rng_tail Scene.eager_stream)) with Scene.eager_stream.
  cbn [JsMap.set String.eqb Ascii.eqb Bool.eqb fst snd].
  erewrite silence_fires with (n := 0.03).
  2: reflexivity.
  2: apply Rltb_true; unfold Scene.eager_stream; lra.
  2: unfold Scene.eager_stream; simpl; f_equal; lra.
  2: lra.
  cbn [ret fst snd JsMap.delete String.eqb Ascii.eqb Bool.eqb].
  f_equal.
  change (Gene.GENE_DEFS_get "resistance")
    with (Gene.Own {| Gene.min := 0.0; Gene.max := 0.60; Gene.default := 0.0;
                      Gene.hueShift := -25; Gene.satShift := 10;
                      Gene.applies := "cell" |}).
  cbn [Gene.field Gene.min Gene.max Math.max Math.min Num.lift2 Num.add
       Num.sub Num.mul].
  unfold Scene.eager_stream.
  repeat f_equal.
  - rewrite clamp_inside; lra.
  - lra.
Qed.

Lemma eager_stream_ok : rng_ok Scene.eager_stream.
Proof. intros n. unfold Scene.eager_stream. lra. Qed.

(** A parent with the genes shield and speed, on a stream that fires every
    step: the child has the genes speed and resistance, the new one at a
    tenth of its range. *)
Lemma reproduce_gene_set_witness :
  let child := fst (DNA.reproduce Sample.shielded_dna DEFAULTS.MUTATION_RATE
                      "cell" Scene.eager_stream) in
  JsMap.wf (DNA.genes Sample.shielded_dna)
  /\ JsMap.keys (DNA.genes Sample.shielded_dna)
     = ["shield"; "speed"]%string
  /\ JsMap.keys (DNA.genes child) = ["speed"; "resistance"]%string
  /\ JsMap.get (DNA.genes child) "resistance" = Some (Fin 0.06)
  /\ JsMap.wf (DNA.genes child).
Proof.
  intros child.
  split; [exact shielded_dna_wf|]. split; [reflexivity|].
  pose proof (proj1 (proj1 (@reproduce_gene_set DEFAULTS.MUTATION_RATE "cell"
                              Sample.shielded_dna shielded_dna_wf
                              Scene.eager_stream eager_stream_ok))) as W.
  fold child in W.
  assert (E : child = DNA.make [("speed"%string, Fin 1.0824);
                                ("resistance"%string, Fin 0.06)])
    by exact reproduce_eager.
  split; [now rewrite E|]. split; [now rewrite E | exact W].
Defined.

(** ** [withGenes] *)

Lemma withGenes_loop_wf (names : list string) :
  forall acc : JsMap.t number,
    JsMap.wf acc -> JsMap.wf (DNA.withGenes_loop names acc).
Proof.
  induction names as [|name rest IH]; intros acc H; simpl; [assumption|].
  destruct (Gene.GENE_DEFS_get name); auto using JsMap_set_wf.
Qed.

Lemma JsMap_has_set {V} (m : JsMap.t V) (k g : string) (v : V) :
  JsMap.has (JsMap.set m k v) g = true <-> JsMap.has m g = true \/ k = g.
Proof.
  unfold JsMap.has. destruct (string_dec k g) as [<-|Hne].
  - rewrite JsMap_get_set_same. tauto.
  - rewrite JsMap_get_set_other by assumption. tauto.
Qed.

Lemma withGenes_loop_has (names : list string) (g : string) :
  forall acc : JsMap.t number,
    JsMap.has (DNA.withGenes_loop names acc) g = true
    <-> JsMap.has acc g = true
        \/ (In g names /\ Gene.GENE_DEFS_get g <> Gene.Undefined).
Proof.
  induction names as [|name rest IH]; intros acc; simpl; [tauto|].
  destruct (Gene.GENE_DEFS_get name) eqn:E; rewrite IH;
    try rewrite JsMap_has_set.
  - split; intros H; [|tauto].
    destruct H as [[H|<-]|[H1 H2]]; auto.
    right. split; [now left | congruence].
  - split; intros H; [|tauto].
    destruct H as [[H|<-]|[H1 H2]]; auto.
    right. split; [now left | congruence].
  - split; intros H; [tauto|].
    destruct H as [H|[[<-|H1] H2]]; auto; try contradiction.
Qed.

Lemma withGenes_loop_get (names : list string) (g : string)
    (def : Gene.GeneDef) :
  JsMap.get Gene.GENE_DEFS g = Some def ->
  let v := Fin (Gene.min def + (Gene.max def - Gene.min def) * 0.15) in
  forall acc : JsMap.t number,
    In g names \/ JsMap.get acc g = Some v ->
    JsMap.get (DNA.withGenes_loop names acc) g = Some v.
Proof.
  intros Hdef v.
  induction names as [|name rest IH]; intros acc H; simpl.
  - destruct H as [[]|H]. exact H.
  - destruct (string_dec name g) as [->|Hne].
    + rewrite (GENE_DEFS_get_own _ Hdef). apply IH. right. simpl.
      apply JsMap_get_set_same.
    + assert (H' : In g rest \/ JsMap.get acc g = Some v)
        by (destruct H as [[H|H]|H]; [contradiction | auto | auto]).
      destruct (Gene.GENE_DEFS_get name); apply IH;
        try rewrite JsMap_get_set_other by assumption; assumption.
Qed.

(** X2.  [withGenes] activates exactly the names of its list for which the
    property read [GENE_DEFS[name]] is truthy, each under one key; a gene of
    the registry among them is stored at [min + (max - min) * 0.15], also
    when its name occurs several times in the list. *)
Theorem withGenes_activates (geneNames : list string) (g : string) :
  let d := DNA.withGenes geneNames in
  JsMap.wf (DNA.genes d)
  /\ (DNA.has d g = true
      <-> In g geneNames /\ Gene.GENE_DEFS_get g <> Gene.Undefined)
  /\ (forall def,
        In g geneNames ->
        JsMap.get Gene.GENE_DEFS g = Some def ->
        DNA.get d g
        = Fin (Gene.min def + (Gene.max def - Gene.min def) * 0.15)).
Proof.
  cbv zeta. unfold DNA.withGenes, DNA.has, DNA.get. cbn [DNA.genes].
  split; [|split].
  - apply withGenes_loop_wf. constructor.
  - rewrite withGenes_loop_has. unfold JsMap.has. simpl.
    split; [intros [H|H]; [discriminate|exact H] | auto].
  - intros def Hin Hdef.
    rewrite (@withGenes_loop_get geneNames g def Hdef) by auto. reflexivity.
Qed.

(** ** Reading a gene *)

Lemma in_range_get (m : JsMap.t number) (k : string) (v : number) :
  in_range m -> JsMap.get m k = Some v ->
  exists def x,
    JsMap.get Gene.GENE_DEFS k = Some def /\ v = Fin x
    /\ Gene.min def <= x <= Gene.max def.
Proof.
  intros Hm Hg. apply JsMap_get_In in Hg.
  unfold in_range in Hm. rewrite Forall_forall in Hm.
  apply (Hm _ Hg).
Qed.

Lemma GENE_DEFS_default (key : string) (def : Gene.GeneDef) :
  JsMap.get Gene.GENE_DEFS key = Some def ->
  Gene.min def <= Gene.default def <= Gene.max def.
Proof.
  intros H. apply JsMap_get_In in H. simpl in H.
  repeat (destruct H as [H|H]; [inversion H; subst; simpl; lra|]).
  destruct H.
Qed.

Lemma get_in_range (d : DNA.t) (gene : string) (def : Gene.GeneDef) :
  in_range (DNA.genes d) ->
  JsMap.get Gene.GENE_DEFS gene = Some def ->
  exists x, DNA.get d gene = Fin x /\ Gene.min def <= x <= Gene.max def.
Proof.
  intros Hd Hdef. unfold DNA.get.
  destruct (JsMap.get (DNA.genes d) gene) as [v|] eqn:E.
  - destruct (in_range_get _ Hd E) as (def' & x & Hdef' & -> & Hx).
    rewrite Hdef in Hdef'. injection Hdef' as <-. eauto.
  - rewrite (GENE_DEFS_get_own _ Hdef). eexists. split; [reflexivity|].
    exact (GENE_DEFS_default _ Hdef).
Qed.

(** X3.  For a host trait-set within its ranges, [forVirus] yields a trait-
    set within its ranges whose lethality is 0.55 times the resistance of
    the host when that resistance exceeds 0.15, and 0 (no gene) otherwise:
    the cap [Math.min(def.max, ...)] never binds, a resistance being at most
    0.6. *)
Theorem forVirus_lethality (cellDNA : DNA.t) :
  in_range (DNA.genes cellDNA) ->
  let virus := DNA.forVirus (Some cellDNA) in
  in_range (DNA.genes virus)
  /\ exists r,
       DNA.get cellDNA "resistance" = Fin r
       /\ DNA.get virus "lethality"
          = Fin (if Rlt_dec 0.15 r then r * 0.55 else 0).
Proof.
  intros Hd virus. subst virus.
  destruct (@get_in_range cellDNA "resistance" _ Hd eq_refl)
    as (r & Hr & Hrange).
  simpl in Hrange. unfold DNA.forVirus. rewrite Hr.
  unfold Num.gt, Num.lt, Num.cmp, Num.Rltb.
  destruct (Rlt_dec 0.15 r) as [Hlt|Hge].
  - change (Gene.GENE_DEFS_get "lethality")
      with (Gene.Own {| Gene.min := 0.0; Gene.max := 0.35;
                        Gene.default := 0.0; Gene.hueShift := -15;
                        Gene.satShift := 15; Gene.applies := "virus" |}).
    cbn [Gene.field Gene.max Math.min Num.lift2 Num.mul DNA.genes JsMap.set].
    assert (E : Rmin 0.35 (r * 0.55) = r * 0.55)
      by (apply Rmin_right; lra).
    rewrite E. split.
    + repeat constructor. eexists. exists (r * 0.55).
      split; [reflexivity|]. simpl. split; [reflexivity | lra].
    + exists r. destruct (Rlt_dec 0.15 r); [|contradiction].
      split; reflexivity.
  - split; [constructor|]. exists r.
    destruct (Rlt_dec 0.15 r); [contradiction|].
    split; [reflexivity|]. unfold DNA.get. simpl. f_equal. lra.
Qed.

Lemma shielded_dna_in_range : in_range (DNA.genes Sample.shielded_dna).
Proof.
  unfold in_range, Sample.shielded_dna. cbn [DNA.genes].
  constructor; [|constructor; [|constructor]].
  - eexists. exists 1. simpl.
    split; [reflexivity | split; [reflexivity | simpl; lra]].
  - eexists. exists 1.2. simpl.
    split; [reflexivity | split; [reflexivity | simpl; lra]].
Qed.

Lemma resistant_dna_in_range : in_range (DNA.genes Scene.resistant_dna).
Proof.
  unfold in_range, Scene.resistant_dna. cbn [DNA.genes].
  constructor; [|constructor].
  eexists. exists 0.4. simpl.
  split; [reflexivity | split; [reflexivity | simpl; lra]].
Qed.

Lemma forVirus_lethality_witness :
  in_range (DNA.genes Scene.resistant_dna)
  /\ in_range (DNA.genes (DNA.forVirus (Some Scene.resistant_dna))).
Proof.
  split; [exact resistant_dna_in_range|].
  exact (proj1 (@forVirus_lethality Scene.resistant_dna
                  resistant_dna_in_range)).
Defined.

(** ** The stored form of a trait-set *)

(** X4.  [deserialise(serialise(d))] is [d], entry for entry and in the same
    order, for every trait-set with distinct keys whose values are within
    their ranges. *)
Theorem serialise_round_trip (d : DNA.t) :
  JsMap.wf (DNA.genes d) -> in_range (DNA.genes d) ->
  DNA.deserialise (DNA.serialise d) = d.
Proof. intros Hwf Hr. now apply deserialise_serialise. Qed.

Lemma serialise_round_trip_witness :
  DNA.deserialise (DNA.serialise Sample.shielded_dna) = Sample.shielded_dna.
Proof.
  exact (@serialise_round_trip Sample.shielded_dna shielded_dna_wf
           shielded_dna_in_range).
Defined.

(** ** [computeColor] *)

Lemma Rtrunc_bound (q : R) :
  -1 < q - IZR (Num.Rtrunc q) < 1
  /\ (0 <= q -> 0 <= q - IZR (Num.Rtrunc q)).
Proof.
  unfold Num.Rtrunc. destruct (Rle_dec 0 q) as [H|H].
  - pose proof (Zfloor_bound q). lra.
  - pose proof (Zfloor_bound (- q)). rewrite opp_IZR. lra.
Qed.

Lemma rem_bounds (x m : R) :
  0 < m ->
  let r := x - m * IZR (Num.Rtrunc (x / m)) in
  - m < r < m /\ (0 <= x -> 0 <= r).
Proof.
  intros Hm r.
  assert (E : r = m * (x / m - IZR (Num.Rtrunc (x / m))))
    by (unfold r; field; lra).
  destruct (Rtrunc_bound (x / m)) as [B1 B2].
  split.
  - rewrite E. nra.
  - intros Hx. rewrite E.
    assert (0 <= x / m).
    { unfold Rdiv. apply Rmult_le_pos; [assumption|].
      left. now apply Rinv_0_lt_compat. }
    specialize (B2 H). nra.
Qed.

Lemma round_range (x : R) (lo hi : Z) :
  IZR lo <= x <= IZR hi -> (lo <= Zfloor (x + 1 / 2) <= hi)%Z.
Proof.
  intros H. pose proof (Zfloor_bound (x + 1 / 2)) as [F1 F2]. split.
  - apply Zfloor_lub. lra.
  - assert (IZR (Zfloor (x + 1 / 2)) < IZR (hi + 1)).
    { rewrite plus_IZR. lra. }
    apply lt_IZR in H0. lia.
Qed.

Lemma computeColor_loop_finite (entries : list (string * number)) :
  in_range entries ->
  forall h s : R,
    exists h' s',
      DNA.computeColor_loop entries (Fin h) (Fin s) = (Fin h', Fin s').
Proof.
  induction entries as [|[gene value] rest IH]; intros He h s; simpl.
  - eauto.
  - inversion He as [|? ? Hhd Htl]; subst.
    destruct Hhd as (def & v & Hdef & Hv & Hrange). simpl in Hdef, Hv.
    subst value. rewrite (GENE_DEFS_get_own _ Hdef).
    cbn [Gene.field Num.sub Num.lift2 Num.gt Num.lt Num.cmp].
    unfold Num.Rltb.
    destruct (Rlt_dec 0 (Gene.max def - Gene.min def)) as [Hr|Hr].
    + cbn [Num.div]. unfold Num.Reqb.
      destruct (Req_dec_T (Gene.max def - Gene.min def) 0); [lra|].
      apply IH. assumption.
    + apply IH. assumption.
Qed.

(** X5.  For a trait-set within its ranges and a finite base hue and
    saturation, [computeColor] formats an [hsl] colour whose hue is an
    integer from 0 to 360, whose saturation is an integer from 0 to 100 and
    whose lightness is the base lightness.  (The bound 360 is not excluded:
    the hue is rounded after its remainder is taken.) *)
Theorem computeColor_channels (d : DNA.t) (baseH baseS : R)
    (baseL : number) :
  in_range (DNA.genes d) ->
  exists h s : Z,
    DNA.computeColor d (Fin baseH) (Fin baseS) baseL
    = Hsl (Fin (IZR h)) (Fin (IZR s)) baseL
    /\ (0 <= h <= 360)%Z /\ (0 <= s <= 100)%Z.
Proof.
  intros Hd. unfold DNA.computeColor.
  destruct (computeColor_loop_finite Hd baseH baseS) as (h & s & ->).
  cbn [Num.rem]. unfold Num.Reqb.
  destruct (Req_dec_T 360 0) as [E|_]; [lra|].
  cbn [Num.add Num.lift2 Num.rem]. unfold Num.Reqb.
  destruct (Req_dec_T 360 0) as [E|_]; [lra|].
  cbn [Math.max Math.min Math.round Num.lift1 Num.lift2].
  eexists. eexists. split; [reflexivity|].
  destruct (@rem_bounds h 360 ltac:(lra)) as [[A1 A2] _].
  set (h1 := h - 360 * IZR (Num.Rtrunc (h / 360))) in *.
  destruct (@rem_bounds (h1 + 360) 360 ltac:(lra)) as [[B1 B2] B3].
  split.
  - apply round_range. simpl. lra.
  - apply round_range. simpl.
    pose proof (@clamp_bounds 0 100 s ltac:(lra)). lra.
Qed.

Lemma computeColor_channels_witness :
  in_range (DNA.genes Sample.shielded_dna)
  /\ exists h s : Z,
       DNA.computeColor Sample.shielded_dna (Fin 133) (Fin 100) (Fin 83)
       = Hsl (Fin (IZR h)) (Fin (IZR s)) (Fin 83)
       /\ (0 <= h <= 360)%Z /\ (0 <= s <= 100)%Z.
Proof.
  split; [exact shielded_dna_in_range|].
  exact (@computeColor_channels Sample.shielded_dna 133 100 (Fin 83)
           shielded_dna_in_range).
Defined.

(** ** The position of an entity after [update] *)

Lemma bounce_box (vp : Viewport) (e : Entity.t) (px py w h : R) :
  Entity.x e = Fin px -> Entity.y e = Fin py ->
  innerWidth vp = Fin w -> innerHeight vp = Fin h ->
  24 <= w -> 24 <= h ->
  exists bx by_,
    Entity.x (Entity.bounce vp e) = Fin bx
    /\ Entity.y (Entity.bounce vp e) = Fin by_
    /\ 12 <= bx <= w - 12 /\ 12 <= by_ <= h - 12.
Proof.
  intros Hx Hy Hw Hh Bw Bh. unfold Entity.bounce. rewrite Hw, Hh.
  destruct e as [ex ey evx evy rot key nm ty col al dn tm el_ bd inf dy oc hf].
  cbn [Entity.x Entity.y] in Hx, Hy. subst ex ey.
  unfold DEFAULTS.ICON_HALF. cbv zeta. entity_fields.
  cbn [Num.sub Num.add Num.lift2 Num.le Num.ge Num.cmp]. unfold Num.Rleb.
  destruct (Rle_dec (px - 12) 0); entity_fields;
    cbn [Num.sub Num.add Num.lift2 Num.le Num.ge Num.cmp];
    unfold Num.Rleb;
    match goal with |- context [Rle_dec w ?a] => destruct (Rle_dec w a) end;
    entity_fields;
    cbn [Num.sub Num.add Num.lift2 Num.le Num.ge Num.cmp];
    unfold Num.Rleb;
    destruct (Rle_dec (py - 12) 0); entity_fields;
    cbn [Num.sub Num.add Num.lift2 Num.le Num.ge Num.cmp];
    unfold Num.Rleb;
    match goal with |- context [Rle_dec h ?a] => destruct (Rle_dec h a) end;
    entity_fields; cbn [Num.sub Num.lift2];
    eexists; eexists; (split; [reflexivity|]); (split; [reflexivity|]); lra.
Qed.

Lemma move_position (mult : R) (e : Entity.t) (px py pvx pvy : R) :
  in_range (DNA.genes (Entity.dna e)) ->
  Entity.x e = Fin px -> Entity.y e = Fin py ->
  Entity.vx e = Fin pvx -> Entity.vy e = Fin pvy ->
  exists mx my,
    Entity.x (Entity.move (Fin mult) e) = Fin mx
    /\ Entity.y (Entity.move (Fin mult) e) = Fin my.
Proof.
  intros Hd Hx Hy Hvx Hvy. unfold Entity.move. entity_fields.
  rewrite Hx, Hy, Hvx, Hvy.
  assert (G : exists g,
            DNA.get (Entity.dna e)
              (if String.eqb (Entity.entityKey e) "virus-filled"
               then "hunt_speed"%string else "speed"%string) = Fin g).
  { destruct (String.eqb (Entity.entityKey e) "virus-filled").
    - destruct (@get_in_range (Entity.dna e) "hunt_speed" _ Hd eq_refl)
        as (g & -> & _). eauto.
    - destruct (@get_in_range (Entity.dna e) "speed" _ Hd eq_refl)
        as (g & -> & _). eauto. }
  destruct G as [g ->]. simpl. eauto.
Qed.

(** X6.  After [update], a mounted and alive entity that is not dying lies
    within the viewport, its centre at least ICON_HALF (12) from each edge,
    for any draws: provided its position, its velocity and the speed
    multiplier are finite, its trait-set is within its ranges and the
    viewport is at least 24 wide and high. *)
Theorem update_in_viewport (vp : Viewport) (e : Entity.t) (mult : R)
    (s : RNG) (px py pvx pvy w h : R) :
  Entity.el e = true -> Entity.alive e = true -> Entity.dying e = false ->
  in_range (DNA.genes (Entity.dna e)) ->
  Entity.x e = Fin px -> Entity.y e = Fin py ->
  Entity.vx e = Fin pvx -> Entity.vy e = Fin pvy ->
  innerWidth vp = Fin w -> innerHeight vp = Fin h ->
  2 * 12 <= w -> 2 * 12 <= h ->
  let e' := fst (Entity.update vp e (Fin mult) s) in
  exists x' y',
    Entity.x e' = Fin x' /\ Entity.y e' = Fin y'
    /\ 12 <= x' <= w - 12 /\ 12 <= y' <= h - 12.
Proof.
  intros He Ha Hdy Hd Hx Hy Hvx Hvy Hw Hh Bw Bh e'.
  pose proof (update_phys vp e (Fin mult) s He Ha Hdy) as P.
  apply phys_eq in P. destruct P as (Px & Py & _ & _).
  destruct (kick_position (Entity.bounce vp (Entity.move (Fin mult) e)) s)
    as [Kx Ky].
  destruct (move_position mult e Hd Hx Hy Hvx Hvy) as (mx & my & Mx & My).
  destruct (bounce_box vp _ Mx My Hw Hh ltac:(lra) ltac:(lra))
    as (bx & by_ & Bx & By & R1 & R2).
  exists bx, by_. unfold e'. rewrite Px, Py, Kx, Ky. auto.
Qed.

Lemma update_in_viewport_witness :
  let e' := fst (Entity.update Sample.viewport Sample.cell_left (Fin 1)
                   Sample.kick_stream) in
  exists x' y',
    Entity.x e' = Fin x' /\ Entity.y e' = Fin y'
    /\ 12 <= x' <= 800 - 12 /\ 12 <= y' <= 600 - 12.
Proof.
  apply (@update_in_viewport Sample.viewport Sample.cell_left 1
           Sample.kick_stream 12.01 300 (-0.05) 0.8 800 600);
    try reflexivity; try lra.
  constructor.
Defined.

(** ** The speed cap of the drift kick *)

Lemma abs_le_hypot (x y : R) : Rabs x <= sqrt (x * x + y * y).
Proof.
  rewrite <- sqrt_Rsqr_abs. apply sqrt_le_1_alt. unfold Rsqr. nra.
Qed.

(** A component [v] of a velocity of length [spd], divided by that length
    and multiplied by [c]. *)
Lemma capped_component (v spd c : R) :
  Rabs v <= spd -> 0 < spd -> 0 <= c -> Rabs (v / spd * c) <= c.
Proof.
  intros H Hs Hc.
  unfold Rdiv. rewrite !Rabs_mult, (Rabs_right c) by lra.
  rewrite Rabs_inv, (Rabs_right spd) by lra.
  assert (Rabs v * / spd <= 1).
  { apply Rmult_le_reg_r with spd; [assumption|].
    rewrite Rmult_assoc, Rinv_l by lra. lra. }
  pose proof (Rabs_pos v). nra.
Qed.

Lemma bounce_velocity (vp : Viewport) (e : Entity.t) (pvx pvy : R) :
  Entity.vx e = Fin pvx -> Entity.vy e = Fin pvy ->
  exists bvx bvy,
    Entity.vx (Entity.bounce vp e) = Fin bvx
    /\ Entity.vy (Entity.bounce vp e) = Fin bvy
    /\ Rabs bvx = Rabs pvx /\ Rabs bvy = Rabs pvy.
Proof.
  intros Hvx Hvy. unfold Entity.bounce. cbv zeta.
  destruct e as [ex ey evx evy rot key nm ty col al dn tm el_ bd inf dy oc hf].
  cbn [Entity.vx Entity.vy] in Hvx, Hvy. subst evx evy.
  repeat match goal with
         | |- context [if ?c then _ else _] => destruct c; entity_fields
         end;
    cbn [Math.abs Num.neg Num.lift1];
    eexists; eexists; (split; [reflexivity|]); (split; [reflexivity|]);
    rewrite ?Rabs_Ropp, ?Rabs_Rabsolu; auto.
Qed.

Lemma kick_speed (e : Entity.t) (s : RNG) (pvx pvy : R) :
  Entity.vx e = Fin pvx -> Entity.vy e = Fin pvy ->
  (Fin (s 0%nat) <? DEFAULTS.DRIFT_CHANCE)%js = true ->
  let e' := fst (Entity.kick e s) in
  let max := (DEFAULTS.BASE_SPEED * DEFAULTS.MAX_SPEED_FACTOR)%js in
  (Math.abs (Entity.vx e') <=? max)%js = true
  /\ (Math.abs (Entity.vy e') <=? max)%js = true.
Proof.
  intros Hvx Hvy H e' max. subst e' max. unfold Entity.kick. rewrite bind_run.
  change (fst (Math.random s)) with (Fin (s 0%nat)). rewrite H.
  rewrite !bind_run. entity_fields. rewrite Hvx, Hvy.
  change (fst (Math.random (snd (Math.random s)))) with (Fin (s 1%nat)).
  change (fst (Math.random (snd (Math.random (snd (Math.random s))))))
    with (Fin (s 2%nat)).
  unfold DEFAULTS.DRIFT_MAGNITUDE, DEFAULTS.BASE_SPEED,
    DEFAULTS.MAX_SPEED_FACTOR.
  cbn [Num.add Num.sub Num.mul Num.lift2 Math.hypot].
  set (vx1 := pvx + (s 1%nat - 0.5) * 0.25).
  set (vy1 := pvy + (s 2%nat - 0.5) * 0.25).
  set (spd := sqrt (vx1 * vx1 + vy1 * vy1)).
  pose proof (abs_le_hypot vx1 vy1) as Ax. fold spd in Ax.
  pose proof (abs_le_hypot vy1 vx1) as Ay.
  replace (vy1 * vy1 + vx1 * vx1) with (vx1 * vx1 + vy1 * vy1) in Ay by ring.
  fold spd in Ay.
  cbn [Num.gt Num.lt Num.cmp]. unfold Num.Rltb.
  destruct (Rlt_dec (0.8 * 2.5) spd) as [Hgt|Hle].
  - cbn [fst ret]. entity_fields. cbn [Num.div]. unfold Num.Reqb.
    destruct (Req_dec_T spd 0) as [E|_]; [lra|].
    cbn [Num.mul Num.lift2 Num.le Num.cmp Math.abs Num.lift1].
    split; apply Rleb_true; apply capped_component; lra.
  - cbn [fst ret]. entity_fields. cbn [Num.le Num.cmp Math.abs Num.lift1].
    split; apply Rleb_true; lra.
Qed.

(** X7.  Whenever the drift kick of [update] fires (the first draw is below
    DRIFT_CHANCE), neither component of the velocity at the end of the call
    exceeds BASE_SPEED * MAX_SPEED_FACTOR in absolute value, whatever the
    velocity before, for a mounted, alive entity that is not dying and has
    a finite velocity. *)
Theorem update_kick_speed_cap (vp : Viewport) (e : Entity.t)
    (mult : number) (s : RNG) (pvx pvy : R) :
  Entity.el e = true -> Entity.alive e = true -> Entity.dying e = false ->
  Entity.vx e = Fin pvx -> Entity.vy e = Fin pvy ->
  (Fin (s 0%nat) <? DEFAULTS.DRIFT_CHANCE)%js = true ->
  let e' := fst (Entity.update vp e mult s) in
  let max := (DEFAULTS.BASE_SPEED * DEFAULTS.MAX_SPEED_FACTOR)%js in
  (Math.abs (Entity.vx e') <=? max)%js = true
  /\ (Math.abs (Entity.vy e') <=? max)%js = true.
Proof.
  intros He Ha Hdy Hvx Hvy H e' max.
  pose proof (update_phys vp e mult s He Ha Hdy) as P.
  apply phys_eq in P. destruct P as (_ & _ & Pvx & Pvy).
  unfold e'. rewrite Pvx, Pvy.
  assert (Mvx : Entity.vx (Entity.move mult e) = Fin pvx)
    by (unfold Entity.move; entity_fields; assumption).
  assert (Mvy : Entity.vy (Entity.move mult e) = Fin pvy)
    by (unfold Entity.move; entity_fields; assumption).
  destruct (bounce_velocity vp _ Mvx Mvy) as (bvx & bvy & Bvx & Bvy & _).
  exact (kick_speed _ s Bvx Bvy H).
Qed.

(** A cell launched at (30, -40), far above the cap of 2, with a kick that
    fires. *)
Lemma update_kick_speed_cap_witness :
  let e' := fst (Entity.update Sample.viewport Scene.fast_cell (Fin 1)
                   Sample.kick_stream) in
  let max := (DEFAULTS.BASE_SPEED * DEFAULTS.MAX_SPEED_FACTOR)%js in
  Math.hypot (Entity.vx Scene.fast_cell) (Entity.vy Scene.fast_cell) = Fin 50
  /\ (Math.abs (Entity.vx e') <=? max)%js = true
  /\ (Math.abs (Entity.vy e') <=? max)%js = true.
Proof.
  split.
  - simpl. f_equal. replace (30 * 30 + -40 * -40) with (50 * 50) by lra.
    apply sqrt_square. lra.
  - apply (@update_kick_speed_cap Sample.viewport Scene.fast_cell (Fin 1)
             Sample.kick_stream 30 (-40)); try reflexivity.
    simpl. apply Rltb_true. lra.
Defined.

(** ** The division timer *)

Lemma Zfloor_mono (x y : R) : x <= y -> (Zfloor x <= Zfloor y)%Z.
Proof.
  intros H. apply Zfloor_lub. pose proof (Zfloor_bound x). lra.
Qed.

Lemma Zfloor_scaled (r : R) (n : Z) :
  0 <= r < 1 -> (1 <= n)%Z -> (0 <= Zfloor (r * IZR n) <= n - 1)%Z.
Proof.
  intros Hr Hn. apply IZR_le in Hn.
  pose proof (Zfloor_bound (r * IZR n)) as [F1 F2]. split.
  - apply Zfloor_lub. simpl. nra.
  - assert (IZR (Zfloor (r * IZR n)) < IZR n) by nra.
    apply lt_IZR in H. lia.
Qed.

Lemma resetDivision_timer (e : Entity.t) :
  in_range (DNA.genes (Entity.dna e)) ->
  rand_post (Entity.resetDivision e)
    (fun e' =>
       exists (rate : R) (t : Z),
         DNA.get (Entity.dna e) "division_rate" = Fin rate
         /\ e' = Entity.set_divisionTimer e (Fin (IZR t))
         /\ (Zfloor (900 / rate + 1 / 2) <= t
             <= Zfloor (3600 / rate + 1 / 2))%Z
         /\ (360 <= t <= 7200)%Z).
Proof.
  intros Hd. unfold Entity.resetDivision.
  destruct (@get_in_range (Entity.dna e) "division_rate" _ Hd eq_refl)
    as (rate & Hrate & Hr).
  simpl in Hr. rewrite Hrate.
  eapply rand_post_bind; [apply rand_post_random|].
  intros r (x & -> & Hx). apply rand_post_ret.
  unfold DEFAULTS.DIVISION_INTERVAL_MIN, DEFAULTS.DIVISION_INTERVAL_MAX.
  cbn [Num.div]. unfold Num.Reqb.
  destruct (Req_dec_T rate 0) as [E|_]; [lra|].
  cbn [Math.round Math.floor Num.lift1 Num.lift2 Num.add Num.sub Num.mul].
  set (a := Zfloor (900 / rate + 1 / 2)).
  set (b := Zfloor (3600 / rate + 1 / 2)).
  assert (Hinv : 0 < / rate) by (apply Rinv_0_lt_compat; lra).
  assert (Hlo : / 2.5 <= / rate) by (apply Rinv_le_contravar; lra).
  assert (Hhi : / rate <= / 0.5) by (apply Rinv_le_contravar; lra).
  assert (E1 : / 2.5 = 0.4) by lra.
  assert (E2 : / 0.5 = 2) by lra.
  assert (Hab : (a <= b)%Z).
  { apply Zfloor_mono. unfold Rdiv. nra. }
  assert (Ha : (360 <= a)%Z).
  { apply Zfloor_lub. unfold Rdiv. simpl. nra. }
  assert (Hb : (b <= 7200)%Z).
  { assert (IZR b < IZR 7201).
    { pose proof (Zfloor_bound (3600 / rate + 1 / 2)) as [F1 _].
      fold b in F1. unfold Rdiv in F1. simpl. nra. }
    apply lt_IZR in H. lia. }
  replace (IZR b - IZR a + 1) with (IZR (b - a + 1))
    by (rewrite plus_IZR, minus_IZR; reflexivity).
  pose proof (@Zfloor_scaled x (b - a + 1) Hx ltac:(lia)) as Hf.
  exists rate, (a + Zfloor (x * IZR (b - a + 1)))%Z.
  split; [reflexivity|]. split; [now rewrite (plus_IZR a)|].
  fold a b. lia.
Qed.

(** X8.  [resetDivision] sets the timer to an integer between round(900 /
    rate) and round(3600 / rate), for the division rate of the trait-set,
    hence between 360 and 7200 frames for a trait-set within its ranges; it
    changes no other field, and the entity does not want to divide right
    after. *)
Theorem resetDivision_waits (e : Entity.t) :
  in_range (DNA.genes (Entity.dna e)) ->
  rand_post (Entity.resetDivision e)
    (fun e' =>
       Entity.wantsToDivide e' = false
       /\ exists (rate : R) (t : Z),
            DNA.get (Entity.dna e) "division_rate" = Fin rate
            /\ e' = Entity.set_divisionTimer e (Fin (IZR t))
            /\ (Zfloor (900 / rate + 1 / 2) <= t
                <= Zfloor (3600 / rate + 1 / 2))%Z
            /\ (360 <= t <= 7200)%Z).
Proof.
  intros Hd. eapply rand_post_weaken; [apply resetDivision_timer, Hd|].
  intros e' (rate & t & Hrate & -> & Ht & Hb). split; [|eauto 8].
  unfold Entity.wantsToDivide. entity_fields. cbn [Num.eq Num.cmp].
  assert (N : Num.Reqb (IZR t) 0 = false).
  { apply Reqb_false. intros E. apply eq_IZR in E. lia. }
  rewrite N. now rewrite andb_false_r.
Qed.

Lemma resetDivision_waits_witness :
  in_range (DNA.genes (Entity.dna Sample.cell_left))
  /\ Entity.wantsToDivide
       (fst (Entity.resetDivision Sample.cell_left Sample.half_stream))
     = false.
Proof.
  assert (H : in_range (DNA.genes (Entity.dna Sample.cell_left)))
    by constructor.
  split; [exact H|].
  exact (proj1 (proj1 (@resetDivision_waits Sample.cell_left H
                         Sample.half_stream half_stream_ok))).
Defined.

Lemma wantsToDivide_after_reset (e : Entity.t) (t : Z) :
  (360 <= t)%Z ->
  Entity.wantsToDivide (Entity.set_divisionTimer e (Fin (IZR t))) = false.
Proof.
  intros Ht. unfold Entity.wantsToDivide. entity_fields.
  cbn [Num.eq Num.cmp].
  assert (N : Num.Reqb (IZR t) 0 = false).
  { apply Reqb_false. intros E. apply eq_IZR in E. lia. }
  rewrite N. now rewrite andb_false_r.
Qed.

(** X9.  The loop of the division block keeps the entities in place, issues
    one descriptor per cell that wanted to divide, and leaves no entity that
    still wants to divide: every cell that divides has its timer reset
    before its offspring is spawned.  (Trait-sets within their ranges.) *)
Theorem division_loop_resets (c : Evolution.Controller) (vp : Viewport)
    (es : list Entity.t) :
  Forall (fun e => in_range (DNA.genes (Entity.dna e))) es ->
  rand_post (Evolution.division_loop c vp es)
    (fun r =>
       length (fst r) = length es
       /\ Forall (fun e => Entity.wantsToDivide e = false) (fst r)
       /\ length (snd r) = length (filter Entity.wantsToDivide es)).
Proof.
  induction es as [|e rest IH]; intros H; simpl.
  - apply rand_post_ret. simpl. auto.
  - inversion H as [|? ? He Hrest]; subst.
    destruct (Entity.wantsToDivide e) eqn:W.
    + eapply rand_post_bind; [apply resetDivision_timer, He|].
      intros e' (rate & t & _ & -> & _ & Ht).
      eapply rand_post_bind; [apply divide_safe|]. intros config _.
      eapply rand_post_bind; [apply spawnOffspring_safe|]. intros o _.
      eapply rand_post_bind; [apply IH, Hrest|].
      intros r (L & F & N). apply rand_post_ret. simpl.
      split; [congruence|]. split; [|congruence].
      constructor; [|assumption]. apply wantsToDivide_after_reset. lia.
    + eapply rand_post_bind; [apply IH, Hrest|].
      intros r (L & F & N). apply rand_post_ret. simpl.
      split; [congruence|]. split; [|congruence].
      constructor; assumption.
Qed.

(** A cell whose countdown is at zero, next to one in the middle of its
    countdown: one descriptor is issued and no cell is left ready. *)
Lemma division_loop_resets_witness :
  let es := [Scene.due_cell; Sample.idle_cell] in
  let r := fst (Evolution.division_loop Sample.controller Sample.viewport
                  es Sample.half_stream) in
  filter Entity.wantsToDivide es = [Scene.due_cell]
  /\ length (snd r) = 1%nat
  /\ Forall (fun e => Entity.wantsToDivide e = false) (fst r).
Proof.
  intros es r.
  assert (H : Forall (fun e => in_range (DNA.genes (Entity.dna e))) es).
  { constructor; [exact shielded_dna_in_range|].
    constructor; constructor. }
  assert (F : filter Entity.wantsToDivide es = [Scene.due_cell]).
  { unfold es. rewrite filter_cons_true.
    - f_equal. cbn [filter].
      replace (Entity.wantsToDivide Sample.idle_cell) with false;
        [reflexivity|].
      symmetry. unfold Entity.wantsToDivide, Sample.idle_cell,
        Sample.timed_cell. entity_fields.
      replace (Fin 100 === Fin 0)%js with false
        by (symmetry; apply Reqb_false; lra).
      reflexivity.
    - unfold Entity.wantsToDivide, Scene.due_cell, Sample.timed_cell.
      entity_fields.
      replace (Fin 0 === Fin 0)%js with true
        by (symmetry; apply Reqb_true; lra).
      reflexivity. }
  destruct (proj1 (@division_loop_resets Sample.controller Sample.viewport
                     es H Sample.half_stream half_stream_ok))
    as (_ & Hnone & Hcount).
  fold r in Hnone, Hcount. rewrite F in Hcount.
  split; [exact F|]. split; [exact Hcount | exact Hnone].
Defined.

(** ** The death sequence *)

(** X10.  An entity in its death sequence is inert: [update] returns at
    once, without a draw; it does not want to divide; [die] and [infectWith]
    change nothing; [onHit] starts no animation; a collision with any other
    entity, on either side of the pair, is skipped, and so is the pass of
    the letters of the logo over it. *)
Theorem dying_entity_is_inert (e : Entity.t) :
  Entity.dying e = true ->
  (forall vp mult, Entity.update vp e mult = ret e)
  /\ Entity.wantsToDivide e = false
  /\ Entity.die e = e
  /\ (forall icon force newDna, Entity.infectWith e icon force newDna = e)
  /\ Entity.hit_flashes (Entity.onHit e) = Entity.hit_flashes e
  /\ (forall c other,
        Evolution.collide c e other = ret (e, other)
        /\ Evolution.collide c other e = ret (other, e))
  /\ (forall bd letters,
        Logo.entities_loop bd [e] letters = ret ([e], letters)).
Proof.
  intros H. repeat split.
  - intros vp mult. unfold Entity.update. rewrite H.
    now rewrite !orb_true_r.
  - unfold Entity.wantsToDivide. rewrite H. simpl. now rewrite andb_false_r.
  - unfold Entity.die. now rewrite H.
  - intros icon force newDna. unfold Entity.infectWith. now rewrite H.
  - unfold Entity.onHit. rewrite H. now rewrite !orb_true_r.
  - unfold Evolution.collide. rewrite H. now rewrite !orb_true_r.
  - unfold Evolution.collide. rewrite H. now rewrite !orb_true_r.
  - cbn [Logo.entities_loop]. rewrite H. now rewrite orb_true_r.
Qed.

Lemma dying_entity_is_inert_witness :
  Entity.dying (Entity.die Sample.cell_left) = true
  /\ Entity.die (Entity.die Sample.cell_left) = Entity.die Sample.cell_left.
Proof.
  split; [reflexivity|].
  exact (proj1 (proj2 (proj2 (@dying_entity_is_inert
                                (Entity.die Sample.cell_left) eq_refl)))).
Defined.

(** ** Infection and cure by the bug *)

(** X11.  A cell that a bug infects becomes virus-filled, with the trait-set
    that [forVirus] derives from its own; a second contact with a bug cures
    it: the forced transformation gives back the key cell, not the trait-
    set; a third contact changes nothing, since the guard of [infectWith]
    finds the entity already infected. *)
Theorem cured_cell_resists_reinfection (bug b : Entity.t) :
  Entity.entityKey bug = "bug"%string ->
  Entity.entityKey b = "cell"%string ->
  Entity.bodyEl b = true -> Entity.alive b = true ->
  Entity.dying b = false -> Entity.infected b = false ->
  let b1 := snd (Evolution.infection bug b) in
  let b2 := snd (Evolution.infection bug b1) in
  let b3 := snd (Evolution.infection bug b2) in
  (Entity.entityKey b1 = "virus-filled"%string
   /\ Entity.dna b1 = DNA.forVirus (Some (Entity.dna b)))
  /\ (Entity.entityKey b2 = "cell"%string
      /\ Entity.dna b2 = DNA.forVirus (Some (Entity.dna b)))
  /\ b3 = b2.
Proof.
  intros Hbug Hkey Hb Ha Hd Hi.
  destruct b as [ex ey evx evy rot key nm ty col al dn tm el_ bd inf dy oc hf].
  cbn [Entity.entityKey Entity.bodyEl Entity.alive Entity.dying
         Entity.infected] in *.
  subst. unfold Evolution.infection, Entity.infectWith.
  rewrite Hbug. simpl. auto.
Qed.

Lemma cured_cell_resists_reinfection_witness :
  let bug := Entity.set_entityKey Sample.cell_left "bug" in
  let b1 := snd (Evolution.infection bug Sample.cell_left) in
  let b2 := snd (Evolution.infection bug b1) in
  snd (Evolution.infection bug b2) = b2.
Proof.
  exact (proj2 (proj2 (@cured_cell_resists_reinfection
                         (Entity.set_entityKey Sample.cell_left "bug")
                         Sample.cell_left eq_refl eq_refl eq_refl eq_refl
                         eq_refl eq_refl))).
Defined.

(** ** The positional correction *)

Lemma placed_position (e e' : Entity.t) :
  placed e' = placed e -> position e' = position e.
Proof. unfold placed, position. intros [= Hx Hy _]. now rewrite Hx, Hy. Qed.

Lemma feedback_position (a b : Entity.t) (ba bb : bool) :
  position (fst (Evolution.feedback a b ba bb)) = position a
  /\ position (snd (Evolution.feedback a b ba bb)) = position b.
Proof.
  unfold Evolution.feedback, Entity.onHit.
  destruct ba, bb; cbn [negb andb fst snd];
    repeat match goal with
           | |- context [if ?c then _ else _] => destruct c
           end; auto.
Qed.

Lemma collide_position (c : Evolution.Controller) (a b : Entity.t) (s : RNG)
    (ax ay bx by_ : R) :
  Entity.alive a = true -> Entity.alive b = true ->
  Entity.dying a = false -> Entity.dying b = false ->
  Entity.x a = Fin ax -> Entity.y a = Fin ay ->
  Entity.x b = Fin bx -> Entity.y b = Fin by_ ->
  let dx := bx - ax in
  let dy := by_ - ay in
  let dist := sqrt (dx * dx + dy * dy) in
  let half := (24 - dist) / 2 in
  0 < dist < 24 ->
  let r := fst (Evolution.collide c a b s) in
  position (fst r)
  = (Fin (ax - half * (dx / dist)), Fin (ay - half * (dy / dist)))
  /\ position (snd r)
     = (Fin (bx + half * (dx / dist)), Fin (by_ + half * (dy / dist))).
Proof.
  intros Ha Hb Hda Hdb Hax Hay Hbx Hby dx dy dist half Hd r.
  subst r. unfold Evolution.collide.
  rewrite Ha, Hb, Hda, Hdb, Hax, Hay, Hbx, Hby.
  cbn [negb orb andb].
  cbn [Math.hypot Num.lift2 Num.sub].
  fold dx dy. fold dist.
  replace (Fin dist >=? DEFAULTS.COLLISION_DIAMETER)%js with false
    by (symmetry; simpl; apply Rleb_false; lra).
  replace (Fin dist === Fin 0)%js with false
    by (symmetry; simpl; apply Reqb_false; lra).
  cbn [orb].
  replace (Fin dx / Fin dist)%js with (Fin (dx / dist))
    by (simpl; rcmp; reflexivity).
  replace (Fin dy / Fin dist)%js with (Fin (dy / dist))
    by (simpl; rcmp; reflexivity).
  set (ba := String.eqb (Entity.entityKey a) "bug").
  set (bb := String.eqb (Entity.entityKey b) "bug").
  destruct (impulse_placed a b (Fin (dx / dist)) (Fin (dy / dist)) ba bb)
    as [Ia Ib].
  destruct (Evolution.impulse a b _ _ ba bb) as [a1 b1].
  cbn [fst snd] in Ia, Ib.
  apply placed_position in Ia, Ib.
  unfold Evolution.separate.
  match goal with
  | |- context [Evolution.feedback ?u ?v ba bb] =>
      destruct (feedback_position u v ba bb) as [Fa Fb];
      destruct (Evolution.feedback u v ba bb) as [a2 b2]
  end.
  cbn [fst snd] in Fa, Fb.
  assert (Pa : position a2 = (Fin (ax - half * (dx / dist)),
                              Fin (ay - half * (dy / dist)))).
  { rewrite Fa. injection Ia as Ix Iy. unfold position. entity_fields.
    rewrite Ix, Iy, Hax, Hay. simpl. rcmp. reflexivity. }
  assert (Pb : position b2 = (Fin (bx + half * (dx / dist)),
                              Fin (by_ + half * (dy / dist)))).
  { rewrite Fb. injection Ib as Ix Iy. unfold position. entity_fields.
    rewrite Ix, Iy, Hbx, Hby. simpl. rcmp. reflexivity. }
  clear Fa Fb.
  destruct (negb (Evolution.iconsData c)); [simpl; auto|].
  destruct (infection_placed a2 b2) as [Ja Jb].
  apply placed_position in Ja, Jb.
  destruct (Evolution.infection a2 b2) as [a3 b3]. cbn [fst snd] in Ja, Jb.
  cbv beta iota.
  destruct (virus_contact_placed c a3 b3 (Fin (dx / dist)) (Fin (dy / dist)) s)
    as [Va Vb].
  apply placed_position in Va, Vb.
  rewrite Va, Vb, Ja, Jb. auto.
Qed.

(** X13.  The positional correction is the same for every pair, a bug
    included.  Two overlapping entities, alive and not dying, of any kind,
    at a distance strictly between 0 and the collision diameter: [collide]
    moves the first to its position minus half * (nx, ny) and the second to
    its position plus half * (nx, ny), where (nx, ny) is the difference of
    the centres divided by the distance and [half] is half of the diameter
    minus the distance, each as the code computes it.  Nothing else in the
    collision (impulse, feedback, infection, virus contact) moves them. *)
Theorem collide_separates (c : Evolution.Controller) (a b : Entity.t)
    (s : RNG) :
  Entity.alive a = true -> Entity.alive b = true ->
  Entity.dying a = false -> Entity.dying b = false ->
  let dx := (Entity.x b - Entity.x a)%js in
  let dy := (Entity.y b - Entity.y a)%js in
  let dist := Math.hypot dx dy in
  (Fin 0 <? dist)%js = true ->
  (dist <? DEFAULTS.COLLISION_DIAMETER)%js = true ->
  let nx := (dx / dist)%js in
  let ny := (dy / dist)%js in
  let half := ((DEFAULTS.COLLISION_DIAMETER - dist) / Fin 2)%js in
  let r := fst (Evolution.collide c a b s) in
  position (fst r)
  = ((Entity.x a - half * nx)%js, (Entity.y a - half * ny)%js)
  /\ position (snd r)
     = ((Entity.x b + half * nx)%js, (Entity.y b + half * ny)%js).
Proof.
  intros Ha Hb Hda Hdb dx dy dist Hpos Hlt nx ny half r.
  apply lt_true_inv in Hpos. destruct Hpos as (? & d & [= <-] & Hd & Hd0).
  apply lt_true_inv in Hlt. destruct Hlt as (d' & ? & Hd' & [= <-] & Hd24).
  assert (d' = d) by congruence. subst d'. clear Hd'.
  destruct (hypot_finite _ _ _ _ Hd)
    as (ax & ay & bx & by_ & Hax & Hay & Hbx & Hby & Ed).
  destruct (@collide_position c a b s ax ay bx by_
              Ha Hb Hda Hdb Hax Hay Hbx Hby) as [Pa Pb].
  { rewrite <- Ed. lra. }
  rewrite <- Ed in Pa, Pb. fold r in Pa, Pb. rewrite Pa, Pb.
  subst half nx ny. rewrite Hd. subst dx dy. rewrite Hax, Hay, Hbx, Hby.
  simpl. repeat rcmp. auto.
Qed.

(** A cell at (400, 300) and a bug 10 to its right: the cell is moved to
    x = 393 and the bug to x = 417. *)
Lemma collide_separates_witness :
  let a := Sample.resting_cell 400 300 0 in
  let b := Scene.bug_at 410 300 0 0 in
  let r := fst (Evolution.collide Sample.controller a b Sample.half_stream) in
  position (fst r) = (Fin 393, Fin 300)
  /\ position (snd r) = (Fin 417, Fin 300).
Proof.
  intros a b r.
  assert (D : Math.hypot (Entity.x b - Entity.x a)%js
                (Entity.y b - Entity.y a)%js = Fin 10).
  { simpl. f_equal.
    replace ((410 - 400) * (410 - 400) + (300 - 300) * (300 - 300))
      with (10 * 10) by lra. apply sqrt_square. lra. }
  assert (H0 : (Fin 0 <? Math.hypot (Entity.x b - Entity.x a)%js
                           (Entity.y b - Entity.y a)%js)%js = true)
    by (rewrite D; apply Rltb_true; lra).
  assert (H24 : (Math.hypot (Entity.x b - Entity.x a)%js
                   (Entity.y b - Entity.y a)%js
                 <? DEFAULTS.COLLISION_DIAMETER)%js = true)
    by (rewrite D; apply Rltb_true; simpl; lra).
  destruct (collide_separates Sample.controller a b Sample.half_stream
              eq_refl eq_refl eq_refl eq_refl H0 H24) as [Pa Pb].
  fold r in Pa, Pb. rewrite Pa, Pb, D.
  unfold a, b, Sample.resting_cell, Scene.bug_at. entity_fields.
  simpl. repeat rcmp. simpl.
  split; f_equal; f_equal; lra.
Defined.

(** ** Entities that do not touch *)

Lemma list_set_same {A} (l : list A) (i : nat) (a : A) :
  nth_error l i = Some a -> list_set l i a = l.
Proof.
  revert i. induction l as [|x rest IH]; intros [|i] H; simpl in *;
    try discriminate.
  - now injection H as ->.
  - f_equal. now apply IH.
Qed.

Lemma collisions_inner_apart (c : Evolution.Controller) (i : nat)
    (es : list Entity.t) (js : list nat) :
  (forall j a b, In j js -> nth_error es i = Some a ->
     nth_error es j = Some b -> apart a b) ->
  Evolution.collisions_inner c i js es = ret es.
Proof.
  induction js as [|j js' IH]; intros H; simpl; [reflexivity|].
  assert (IH' : Evolution.collisions_inner c i js' es = ret es)
    by (apply IH; intros; eapply H; eauto; now right).
  destruct (nth_error es i) as [a|] eqn:Ea; [|exact IH'].
  destruct (nth_error es j) as [b|] eqn:Eb; [|exact IH'].
  rewrite (@collide_apart c a b) by (eapply H; eauto; now left).
  unfold bind, ret. cbn [fst snd].
  rewrite (list_set_same _ _ Ea), (list_set_same _ _ Eb). exact IH'.
Qed.

Lemma collisions_outer_apart (c : Evolution.Controller)
    (es : list Entity.t) (indices : list nat) :
  (forall i j a b, (i < j)%nat -> nth_error es i = Some a ->
     nth_error es j = Some b -> apart a b) ->
  Evolution.collisions_outer c indices es = ret es.
Proof.
  intros H. induction indices as [|i rest IH]; simpl; [reflexivity|].
  rewrite collisions_inner_apart.
  - unfold bind, ret. exact IH.
  - intros j a b Hj. apply H. apply in_seq in Hj. lia.
Qed.

(** X14.  When every two entities of the list are at least a collision
    diameter apart, [#checkCollisions] returns the list unchanged and draws
    no random number. *)
Theorem checkCollisions_apart (c : Evolution.Controller)
    (es : list Entity.t) :
  (forall i j a b, (i < j)%nat -> nth_error es i = Some a ->
     nth_error es j = Some b -> apart a b) ->
  Evolution.checkCollisions c es = ret es.
Proof. intros H. now apply collisions_outer_apart. Qed.

Lemma far_cell_apart : apart Sample.shielded_cell Scene.far_cell.
Proof.
  eexists. split; [reflexivity|].
  left. apply sqrt_gt_bound; lra.
Qed.

Lemma checkCollisions_apart_witness :
  Evolution.checkCollisions Sample.controller
    [Sample.shielded_cell; Scene.far_cell]
  = ret [Sample.shielded_cell; Scene.far_cell].
Proof.
  apply checkCollisions_apart.
  intros [|[|i]] [|[|j]] a b Hij Ha Hb; simpl in Ha, Hb; try lia;
    try discriminate;
    try match goal with
        | H : nth_error [] ?k = Some _ |- _ => destruct k; discriminate H
        end.
  injection Ha as <-. injection Hb as <-. exact far_cell_apart.
Defined.

(** ** What a pass of the collision check keeps *)

Lemma infectWith_alive (e : Entity.t) (icon : string) (force : bool)
    (d : option DNA.t) :
  life (Entity.infectWith e icon force d) = life e.
Proof.
  unfold Entity.infectWith.
  destruct (_ || _); [reflexivity|]. destruct (_ && _); [reflexivity|].
  now destruct d.
Qed.

Lemma impulse_life (a b : Entity.t) (nx ny : number) (ba bb : bool) :
  life (fst (Evolution.impulse a b nx ny ba bb)) = life a
  /\ life (snd (Evolution.impulse a b nx ny ba bb)) = life b.
Proof.
  unfold Evolution.impulse.
  destruct (_ >? _)%js; [|auto]. destruct ba, bb; simpl; auto.
Qed.

Lemma feedback_life (a b : Entity.t) (ba bb : bool) :
  life (fst (Evolution.feedback a b ba bb)) = life a
  /\ life (snd (Evolution.feedback a b ba bb)) = life b.
Proof.
  unfold Evolution.feedback, Entity.onHit.
  destruct ba, bb; cbn [negb andb fst snd];
    repeat match goal with
           | |- context [if ?c then _ else _] => destruct c
           end; auto.
Qed.

Lemma infection_life (a b : Entity.t) :
  life (fst (Evolution.infection a b)) = life a
  /\ life (snd (Evolution.infection a b)) = life b.
Proof.
  unfold Evolution.infection.
  repeat match goal with
         | |- context [if ?c then _ else _] => destruct c
         end; simpl; auto using infectWith_alive.
Qed.

Lemma die_life (e : Entity.t) : life (Entity.die e) = life e.
Proof. unfold Entity.die. now destruct (_ || _). Qed.

Lemma resolveVirusContact_life (c : Evolution.Controller)
    (virus target : Entity.t) (angle : number) (s : RNG) :
  life (fst (Evolution.resolveVirusContact c virus target angle s))
  = life target.
Proof.
  unfold Evolution.resolveVirusContact.
  destruct (Evolution.shield_blocks target angle); [reflexivity|].
  rewrite bind_run. destruct (_ <? _)%js; [apply die_life | reflexivity].
Qed.

Lemma virus_contact_life (c : Evolution.Controller) (a b : Entity.t)
    (nx ny : number) (s : RNG) :
  life (fst (fst (Evolution.virus_contact c a b nx ny s))) = life a
  /\ life (snd (fst (Evolution.virus_contact c a b nx ny s))) = life b.
Proof.
  unfold Evolution.virus_contact.
  destruct (_ && _).
  - rewrite bind_run. simpl. auto using resolveVirusContact_life.
  - destruct (_ && _); [|auto].
    rewrite bind_run. simpl. auto using resolveVirusContact_life.
Qed.

Lemma collide_life (c : Evolution.Controller) (a b : Entity.t) (s : RNG) :
  life (fst (fst (Evolution.collide c a b s))) = life a
  /\ life (snd (fst (Evolution.collide c a b s))) = life b.
Proof.
  unfold Evolution.collide.
  destruct (_ || _); [auto|]. destruct (_ || _); [auto|].
  match goal with
  | |- context [Evolution.impulse ?u ?v ?nx ?ny ?ba ?bb] =>
      destruct (impulse_life u v nx ny ba bb) as [Ia Ib];
      destruct (Evolution.impulse u v nx ny ba bb) as [a1 b1]
  end.
  cbn [fst snd] in Ia, Ib. unfold Evolution.separate.
  match goal with
  | |- context [Evolution.feedback ?u ?v ?ba ?bb] =>
      destruct (feedback_life u v ba bb) as [Fa Fb];
      destruct (Evolution.feedback u v ba bb) as [a2 b2]
  end.
  cbn [fst snd] in Fa, Fb. unfold life in Fa, Fb. entity_fields.
  fold (life a1) in Fa. fold (life b1) in Fb.
  fold (life a2) in Fa. fold (life b2) in Fb.
  rewrite Ia in Fa. rewrite Ib in Fb.
  destruct (negb (Evolution.iconsData c)); [simpl; auto|].
  destruct (infection_life a2 b2) as [Ja Jb].
  destruct (Evolution.infection a2 b2) as [a3 b3]. cbn [fst snd] in Ja, Jb.
  cbv beta iota.
  match goal with
  | |- context [Evolution.virus_contact c a3 b3 ?nx ?ny s] =>
      destruct (virus_contact_life c a3 b3 nx ny s) as [Va Vb]
  end.
  rewrite Va, Vb, Ja, Jb. auto.
Qed.

Lemma list_set_map {A B} (f : A -> B) (l : list A) (i : nat) (a a' : A) :
  nth_error l i = Some a -> f a' = f a ->
  map f (list_set l i a') = map f l.
Proof.
  revert i. induction l as [|x rest IH]; intros [|i] H E; simpl in *;
    try discriminate.
  - injection H as ->. now rewrite E.
  - f_equal. now apply IH.
Qed.

Lemma nth_error_list_set_same {A} (l : list A) (i : nat) (a a' : A) :
  nth_error l i = Some a -> nth_error (list_set l i a') i = Some a'.
Proof.
  revert i. induction l as [|x rest IH]; intros [|i] H; simpl in *;
    try discriminate; auto.
Qed.

Lemma nth_error_list_set_other {A} (l : list A) (i j : nat) (a' : A) :
  i <> j -> nth_error (list_set l i a') j = nth_error l j.
Proof.
  revert i j. induction l as [|x rest IH]; intros [|i] [|j] H; simpl;
    auto; try congruence.
Qed.

Lemma collisions_inner_life (c : Evolution.Controller) (i : nat)
    (js : list nat) :
  forall (es : list Entity.t) (s : RNG),
    map life (fst (Evolution.collisions_inner c i js es s)) = map life es.
Proof.
  induction js as [|j js' IH]; intros es s; simpl; [reflexivity|].
  destruct (nth_error es i) as [a|] eqn:Ea; [|apply IH].
  destruct (nth_error es j) as [b|] eqn:Eb; [|apply IH].
  rewrite bind_run, IH.
  destruct (collide_life c a b s) as [La Lb].
  destruct (Nat.eq_dec i j) as [<-|Hij].
  - rewrite (list_set_map life _ _
               (a := fst (fst (Evolution.collide c a b s)))).
    + now apply list_set_map with a.
    + now apply nth_error_list_set_same with a.
    + rewrite Ea in Eb. injection Eb as <-. congruence.
  - rewrite (list_set_map life _ _ (a := b)).
    + now apply list_set_map with a.
    + rewrite nth_error_list_set_other; assumption.
    + assumption.
Qed.

Lemma collisions_outer_life (c : Evolution.Controller) (indices : list nat) :
  forall (es : list Entity.t) (s : RNG),
    map life (fst (Evolution.collisions_outer c indices es s)) = map life es.
Proof.
  induction indices as [|i rest IH]; intros es s; simpl; [reflexivity|].
  rewrite bind_run, IH. apply collisions_inner_life.
Qed.

(** X15.  A pass of [#checkCollisions] keeps the number and the order of the
    entities and, for each of them, its name, its node and its [alive] flag:
    a kill starts the death sequence, it neither removes an entity nor marks
    it as not alive. *)
Theorem checkCollisions_keeps_entities (c : Evolution.Controller)
    (es : list Entity.t) (s : RNG) :
  let es' := fst (Evolution.checkCollisions c es s) in
  length es' = length es
  /\ map life es' = map life es.
Proof.
  cbv zeta. unfold Evolution.checkCollisions.
  pose proof (collisions_outer_life c (seq 0 (length es)) es s) as H.
  split; [|exact H].
  apply (f_equal (@length _)) in H. now rewrite !length_map in H.
Qed.

(** ** Who can be killed *)

Lemma infectWith_dying (e : Entity.t) (icon : string) (force : bool)
    (d : option DNA.t) :
  Entity.dying (Entity.infectWith e icon force d) = Entity.dying e.
Proof.
  unfold Entity.infectWith.
  destruct (_ || _); [reflexivity|]. destruct (_ && _); [reflexivity|].
  now destruct d.
Qed.

(** After the infection step of a pair without a virus, a virus in the
    pair faces the bug that made it. *)
Lemma infection_virus_faces_bug (a b : Entity.t) :
  String.eqb (Entity.entityKey a) "virus-filled" = false ->
  String.eqb (Entity.entityKey b) "virus-filled" = false ->
  let r := Evolution.infection a b in
  Entity.dying (fst r) = Entity.dying a
  /\ Entity.dying (snd r) = Entity.dying b
  /\ (String.eqb (Entity.entityKey (fst r)) "virus-filled" = true ->
      Entity.entityKey (snd r) = "bug"%string)
  /\ (String.eqb (Entity.entityKey (snd r)) "virus-filled" = true ->
      Entity.entityKey (fst r) = "bug"%string).
Proof.
  intros Ha Hb. unfold Evolution.infection. rewrite Ha, Hb.
  destruct (String.eqb (Entity.entityKey a) "bug") eqn:Ba.
  - apply String.eqb_eq in Ba.
    destruct (negb (Evolution.bugImmune (Entity.entityKey b)));
      cbn [fst snd]; rewrite ?infectWith_dying; rewrite ?Ha, ?Hb;
      repeat split; auto; discriminate.
  - destruct (String.eqb (Entity.entityKey b) "bug") eqn:Bb.
    + apply String.eqb_eq in Bb.
      destruct (negb (Evolution.bugImmune (Entity.entityKey a)));
        cbn [fst snd]; rewrite ?infectWith_dying; rewrite ?Ha, ?Hb;
        repeat split; auto; discriminate.
    + cbn [fst snd]. rewrite Ha, Hb. repeat split; auto; discriminate.
Qed.

Lemma impulse_key (a b : Entity.t) (nx ny : number) (ba bb : bool) :
  fate (fst (Evolution.impulse a b nx ny ba bb)) = fate a
  /\ fate (snd (Evolution.impulse a b nx ny ba bb)) = fate b.
Proof.
  unfold Evolution.impulse.
  destruct (_ >? _)%js; [|auto]. destruct ba, bb; simpl; auto.
Qed.

Lemma feedback_key (a b : Entity.t) (ba bb : bool) :
  fate (fst (Evolution.feedback a b ba bb)) = fate a
  /\ fate (snd (Evolution.feedback a b ba bb)) = fate b.
Proof.
  unfold Evolution.feedback, Entity.onHit.
  destruct ba, bb; cbn [negb andb fst snd];
    repeat match goal with
           | |- context [if ?c then _ else _] => destruct c
           end; auto.
Qed.

(** X16.  A collision between two entities neither of which is virus-filled
    at its start begins no death sequence, for any draws: an entity that a
    bug infects in this very collision only faces the bug, which is immune. *)
Theorem collide_kills_only_by_virus (c : Evolution.Controller)
    (a b : Entity.t) (s : RNG) :
  String.eqb (Entity.entityKey a) "virus-filled" = false ->
  String.eqb (Entity.entityKey b) "virus-filled" = false ->
  let r := fst (Evolution.collide c a b s) in
  Entity.dying (fst r) = Entity.dying a
  /\ Entity.dying (snd r) = Entity.dying b.
Proof.
  intros Ka Kb. cbv zeta. unfold Evolution.collide.
  destruct (_ || _); [auto|]. destruct (_ || _); [auto|].
  match goal with
  | |- context [Evolution.impulse ?u ?v ?nx ?ny ?ba ?bb] =>
      destruct (impulse_key u v nx ny ba bb) as [Ia Ib];
      destruct (Evolution.impulse u v nx ny ba bb) as [a1 b1]
  end.
  cbn [fst snd] in Ia, Ib. unfold Evolution.separate.
  match goal with
  | |- context [Evolution.feedback ?u ?v ?ba ?bb] =>
      destruct (feedback_key u v ba bb) as [Fa Fb];
      destruct (Evolution.feedback u v ba bb) as [a2 b2]
  end.
  cbn [fst snd] in Fa, Fb. unfold fate in Fa, Fb, Ia, Ib. entity_fields.
  injection Ia as Ia1 Ia2. injection Ib as Ib1 Ib2.
  injection Fa as Fa1 Fa2. injection Fb as Fb1 Fb2.
  rewrite Ia1 in Fa1. rewrite Ia2 in Fa2.
  rewrite Ib1 in Fb1. rewrite Ib2 in Fb2.
  destruct (negb (Evolution.iconsData c)); [simpl; auto|].
  rewrite <- Fa1 in Ka. rewrite <- Fb1 in Kb.
  destruct (infection_virus_faces_bug a2 b2 Ka Kb) as (Da & Db & Va & Vb).
  destruct (Evolution.infection a2 b2) as [a3 b3].
  cbn [fst snd] in Da, Db, Va, Vb. cbv beta iota.
  unfold Evolution.virus_contact.
  destruct (String.eqb (Entity.entityKey a3) "virus-filled") eqn:E3.
  - rewrite (Va eq_refl). cbn [Evolution.virusImmune String.eqb Ascii.eqb
                                 Bool.eqb orb negb andb].
    simpl. split; congruence.
  - cbn [andb].
    destruct (String.eqb (Entity.entityKey b3) "virus-filled") eqn:E4.
    + rewrite (Vb eq_refl). simpl. split; congruence.
    + simpl. split; congruence.
Qed.

Lemma collide_kills_only_by_virus_witness :
  let r := fst (Evolution.collide Sample.controller Sample.shielded_cell
                  Scene.near_bug Sample.zero_stream) in
  Entity.dying (fst r) = false /\ Entity.dying (snd r) = false.
Proof.
  exact (@collide_kills_only_by_virus Sample.controller
           Sample.shielded_cell Scene.near_bug Sample.zero_stream
           eq_refl eq_refl).
Defined.

(** ** The contact with a bug *)

Lemma collide_overlap (c : Evolution.Controller) (a b : Entity.t) (s : RNG)
    (d : R) :
  Entity.alive a = true -> Entity.alive b = true ->
  Entity.dying a = false -> Entity.dying b = false ->
  Math.hypot (Entity.x b - Entity.x a)%js (Entity.y b - Entity.y a)%js
  = Fin d ->
  0 < d < 24 ->
  exists nx ny half : number,
    Evolution.collide c a b s
    = (let ba := String.eqb (Entity.entityKey a) "bug" in
       let bb := String.eqb (Entity.entityKey b) "bug" in
       let '(a1, b1) := Evolution.impulse a b nx ny ba bb in
       let '(a2, b2) :=
         (Entity.set_y (Entity.set_x a1 (Entity.x a1 - half * nx)%js)
            (Entity.y a1 - half * ny)%js,
          Entity.set_y (Entity.set_x b1 (Entity.x b1 + half * nx)%js)
            (Entity.y b1 + half * ny)%js) in
       let '(a3, b3) := Evolution.feedback a2 b2 ba bb in
       if negb (Evolution.iconsData c) then ret (a3, b3)
       else
         let '(a4, b4) := Evolution.infection a3 b3 in
         Evolution.virus_contact c a4 b4 nx ny) s.
Proof.
  intros Ha Hb Hda Hdb Hd Hr. unfold Evolution.collide.
  rewrite Ha, Hb, Hda, Hdb, Hd. cbn [negb orb].
  replace (Fin d >=? DEFAULTS.COLLISION_DIAMETER)%js with false
    by (symmetry; simpl; apply Rleb_false; lra).
  replace (Fin d === Fin 0)%js with false
    by (symmetry; simpl; apply Reqb_false; lra).
  cbn [orb]. unfold Evolution.separate.
  do 3 eexists. reflexivity.
Qed.

Lemma onHit_fields (e : Entity.t) :
  Entity.entityKey (Entity.onHit e) = Entity.entityKey e
  /\ Entity.onHit_calls (Entity.onHit e) = S (Entity.onHit_calls e).
Proof. unfold Entity.onHit. destruct (_ || _); auto. Qed.

Lemma impulse_bug (a b : Entity.t) (nx ny : number) (bb : bool) :
  exists a1,
    Evolution.impulse a b nx ny true bb = (a1, b)
    /\ Entity.entityKey a1 = Entity.entityKey a
    /\ Entity.onHit_calls a1 = Entity.onHit_calls a.
Proof.
  unfold Evolution.impulse. destruct (_ >? _)%js; cbn [orb]; eauto.
Qed.

(** X17.  A bug that overlaps a mounted entity, with the icon data loaded:
    only the bug receives [onHit]; the velocity of the other is unchanged
    and it does not die; a virus-filled entity is cured (its key becomes
    cell, its trait-set stays); an entity that is neither immune nor
    infected yet becomes virus-filled with the trait-set that [forVirus]
    derives from its own; no random number is drawn. *)
Theorem bug_contact (c : Evolution.Controller) (a b : Entity.t) (s : RNG)
    (d : R) :
  Evolution.iconsData c = true ->
  Entity.alive a = true -> Entity.alive b = true ->
  Entity.dying a = false -> Entity.dying b = false ->
  Entity.bodyEl b = true ->
  Entity.entityKey a = "bug"%string ->
  Math.hypot (Entity.x b - Entity.x a)%js (Entity.y b - Entity.y a)%js
  = Fin d ->
  0 < d < 24 ->
  let r := fst (Evolution.collide c a b s) in
  (Entity.onHit_calls (fst r) = S (Entity.onHit_calls a)
   /\ Entity.onHit_calls (snd r) = Entity.onHit_calls b)
  /\ (Entity.vx (snd r) = Entity.vx b /\ Entity.vy (snd r) = Entity.vy b
      /\ Entity.dying (snd r) = false)
  /\ (Entity.entityKey b = "virus-filled"%string ->
      Entity.entityKey (snd r) = "cell"%string
      /\ Entity.dna (snd r) = Entity.dna b)
  /\ (Evolution.bugImmune (Entity.entityKey b) = false ->
      Entity.entityKey b <> "virus-filled"%string ->
      Entity.infected b = false ->
      Entity.entityKey (snd r) = "virus-filled"%string
      /\ Entity.dna (snd r) = DNA.forVirus (Some (Entity.dna b)))
  /\ snd (Evolution.collide c a b s) = s.
Proof.
  intros Hc Ha Hb Hda Hdb Hbody Hkey Hd Hr r. subst r.
  destruct (collide_overlap c a b s Ha Hb Hda Hdb Hd Hr)
    as (nx & ny & half & ->).
  rewrite Hkey. cbn [String.eqb Ascii.eqb Bool.eqb]. cbv zeta.
  destruct (impulse_bug a b nx ny (String.eqb (Entity.entityKey b) "bug"))
    as (a1 & -> & K1 & O1).
  unfold Evolution.feedback. cbn [negb andb]. rewrite Hc. cbn [negb].
  set (a2 := Entity.set_y _ _).
  set (b2 := Entity.set_y _ _).
  destruct (onHit_fields a2) as [K3 O3].
  assert (K2 : Entity.entityKey a2 = "bug"%string)
    by (unfold a2; entity_fields; congruence).
  assert (O2 : Entity.onHit_calls a2 = Entity.onHit_calls a)
    by (unfold a2; entity_fields; congruence).
  set (a3 := Entity.onHit a2) in *.
  rewrite K2 in K3. rewrite O2 in O3.
  unfold Evolution.infection. rewrite K3.
  cbn [String.eqb Ascii.eqb Bool.eqb].
  assert (B2 : Entity.entityKey b2 = Entity.entityKey b
               /\ Entity.dna b2 = Entity.dna b
               /\ Entity.infected b2 = Entity.infected b
               /\ Entity.dying b2 = false /\ Entity.bodyEl b2 = true
               /\ Entity.alive b2 = true
               /\ Entity.vx b2 = Entity.vx b /\ Entity.vy b2 = Entity.vy b
               /\ Entity.onHit_calls b2 = Entity.onHit_calls b)
    by (unfold b2; entity_fields; auto 10).
  clearbody b2 a3. clear a2 K2 O2 a1 K1 O1.
  destruct B2 as (Bk & Bd & Bi & Bdy & Bb & Bal & Bvx & Bvy & Bo).
  assert (V : forall b4,
            Evolution.virus_contact c a3 b4 nx ny s = ((a3, b4), s)).
  { intros b4. unfold Evolution.virus_contact. rewrite K3.
    cbn [String.eqb Ascii.eqb Bool.eqb Evolution.virusImmune orb negb andb].
    now rewrite andb_false_r. }
  rewrite Bk.
  destruct (String.eqb (Entity.entityKey b) "virus-filled") eqn:Ev.
  - rewrite V. cbn [fst snd]. unfold Entity.infectWith.
    rewrite Bdy, Bb, Bal. cbn [negb orb andb]. entity_fields.
    apply String.eqb_eq in Ev.
    repeat split; auto; try congruence; try (intros; contradiction).
  - apply String.eqb_neq in Ev.
    destruct (Evolution.bugImmune (Entity.entityKey b)) eqn:Im; cbn [negb].
    + rewrite V. cbn [fst snd].
      repeat split; auto; try congruence; try discriminate;
        try (intros; contradiction).
    + rewrite V. cbn [fst snd]. unfold Entity.infectWith.
      rewrite Bdy, Bb, Bal, Bi. cbn [negb orb andb].
      destruct (Entity.infected b); entity_fields;
        repeat split; auto; try congruence; try discriminate;
        try (intros; contradiction); try (intros; now rewrite Bd).
Qed.

Lemma bug_contact_witness :
  let r := fst (Evolution.collide Sample.controller Scene.near_bug
                  Sample.shielded_cell Sample.half_stream) in
  Entity.entityKey (snd r) = "virus-filled"%string
  /\ Entity.dna (snd r)
     = DNA.forVirus (Some (Entity.dna Sample.shielded_cell)).
Proof.
  assert (D : 0 < sqrt ((400 - 403) * (400 - 403) + (300 - 304) * (300 - 304))
              < 24).
  { split; [apply sqrt_lt_R0; lra|].
    apply Rle_lt_trans with 5; [|lra]. apply sqrt_le_bound; lra. }
  refine (proj1 (proj2 (proj2 (proj2
            (@bug_contact Sample.controller Scene.near_bug
               Sample.shielded_cell Sample.half_stream _
               eq_refl eq_refl eq_refl eq_refl eq_refl eq_refl eq_refl
               eq_refl D)))) eq_refl _ eq_refl).
  discriminate.
Defined.

(** ** Resistance against the kill roll *)

(** X18.  When the resistance of the target is at least the kill chance of
    the controller and the virus has no lethality, [#resolveVirusContact]
    returns the target unchanged for every draw; one draw is consumed,
    unless the shield blocked the attack. *)
Theorem resistance_defeats_kill_roll (c : Evolution.Controller)
    (virus target : Entity.t) (approachAngle : number) (s : RNG)
    (k r l : R) :
  rng_ok s ->
  Evolution.virusKillChance c = Fin k ->
  DNA.get (Entity.dna target) "resistance" = Fin r ->
  DNA.get (Entity.dna virus) "lethality" = Fin l ->
  k <= r -> l <= 0 ->
  Evolution.resolveVirusContact c virus target approachAngle s
  = (target,
     if Evolution.shield_blocks target approachAngle then s
     else rng_tail s).
Proof.
  intros Hs Hk Hr Hl Hle Hz. unfold Evolution.resolveVirusContact.
  destruct (Evolution.shield_blocks target approachAngle); [reflexivity|].
  rewrite bind_run, Hk, Hr, Hl.
  cbn [Num.sub Num.add Num.lift2 Math.max Math.min].
  assert (E : Rmin 1 (Rmax 0 (k - r) + l) <= 0).
  { rewrite Rmax_left by lra. rewrite Rmin_right by lra. lra. }
  unfold Math.random. cbn [fst snd].
  rewrite (random_not_below_zero Hs E). reflexivity.
Qed.

Lemma resistance_defeats_kill_roll_witness :
  fst (Evolution.resolveVirusContact Scene.mild_controller
         (Sample.virus_at 403 304 0 0) Scene.resistant_cell (Fin 0)
         Sample.zero_stream)
  = Scene.resistant_cell.
Proof.
  rewrite (@resistance_defeats_kill_roll Scene.mild_controller
             (Sample.virus_at 403 304 0 0) Scene.resistant_cell (Fin 0)
             Sample.zero_stream 0.3 0.4 0.0 zero_stream_ok eq_refl eq_refl
             eq_refl ltac:(lra) ltac:(lra)).
  reflexivity.
Defined.

(** ** The normalisation of an angle *)

Lemma while_sub_turns (n : nat) :
  forall r : R,
    r - PI <= 2 * PI * INR n ->
    exists k : nat,
      Evolution.while_ n (fun d => (d >? Math.PI)%js)
        (fun d => (d - Math.PI * Fin 2)%js) (Fin r)
      = Fin (r - 2 * PI * INR k)
      /\ r - 2 * PI * INR k <= PI
      /\ (PI < r -> - PI < r - 2 * PI * INR k)
      /\ (r <= PI -> k = 0%nat).
Proof.
  pose proof PI_RGT_0 as Hpi.
  induction n as [|n IH]; intros r H.
  - simpl in H. exists 0%nat. simpl. rewrite Rmult_0_r, Rminus_0_r.
    repeat split; auto; lra.
  - cbn [Evolution.while_]. cbn [Math.PI Num.gt Num.lt Num.cmp].
    unfold Num.Rltb. destruct (Rlt_dec PI r) as [Hgt|Hle].
    + cbn [Num.mul Num.sub Num.lift2].
      destruct (IH (r - PI * 2)) as (k & E & B1 & B2 & B3).
      { rewrite S_INR in H. lra. }
      exists (S k). rewrite S_INR.
      replace (r - 2 * PI * (INR k + 1)) with (r - PI * 2 - 2 * PI * INR k)
        by ring.
      repeat split; auto; try lra.
      intros _. destruct (Rlt_dec PI (r - PI * 2)) as [G|G]; [auto|].
      rewrite B3 by lra. simpl. lra.
    + exists 0%nat. simpl. rewrite Rmult_0_r, Rminus_0_r.
      repeat split; auto; lra.
Qed.

Lemma while_add_turns (n : nat) :
  forall r : R,
    - PI - r <= 2 * PI * INR n ->
    exists k : nat,
      Evolution.while_ n (fun d => (d <? - Math.PI)%js)
        (fun d => (d + Math.PI * Fin 2)%js) (Fin r)
      = Fin (r + 2 * PI * INR k)
      /\ - PI <= r + 2 * PI * INR k
      /\ (r < - PI -> r + 2 * PI * INR k < PI)
      /\ (- PI <= r -> k = 0%nat).
Proof.
  pose proof PI_RGT_0 as Hpi.
  induction n as [|n IH]; intros r H.
  - simpl in H. exists 0%nat. simpl. rewrite Rmult_0_r, Rplus_0_r.
    repeat split; auto; lra.
  - cbn [Evolution.while_]. cbn [Math.PI Num.neg Num.lift1 Num.lt Num.cmp].
    unfold Num.Rltb. destruct (Rlt_dec r (- PI)) as [Hlt|Hge].
    + cbn [Num.mul Num.add Num.lift2].
      destruct (IH (r + PI * 2)) as (k & E & B1 & B2 & B3).
      { rewrite S_INR in H. lra. }
      exists (S k). rewrite S_INR.
      replace (r + 2 * PI * (INR k + 1)) with (r + PI * 2 + 2 * PI * INR k)
        by ring.
      repeat split; auto; try lra.
      intros _. destruct (Rlt_dec (r + PI * 2) (- PI)) as [G|G]; [auto|].
      rewrite B3 by lra. simpl. lra.
    + exists 0%nat. simpl. rewrite Rmult_0_r, Rplus_0_r.
      repeat split; auto; lra.
Qed.

(** The results of [Math.atan2] lie between -PI and PI, so the difference
    of two of them is at most 2 PI in absolute value. *)
Lemma Ratan2_range (y x : R) : - PI <= Math.Ratan2 y x <= PI.
Proof.
  pose proof PI_RGT_0 as Hpi. unfold Math.Ratan2.
  pose proof (atan_bound (y / x)) as [A1 A2].
  destruct (Rlt_dec 0 x) as [Hx|Hx]; [lra|].
  destruct (Rlt_dec x 0) as [Hn|Hn].
  - assert (Hi : / x < 0) by now apply Rinv_lt_0_compat.
    destruct (Rle_dec 0 y) as [Hy|Hy].
    + assert (y / x <= 0) by (unfold Rdiv; nra).
      assert (atan (y / x) <= 0).
      { rewrite <- atan_0. destruct (Req_dec (y / x) 0) as [->|Hne];
          [lra|]. left. apply atan_increasing. lra. }
      lra.
    + assert (0 < y / x) by (unfold Rdiv; nra).
      assert (0 < atan (y / x))
        by (rewrite <- atan_0; now apply atan_increasing).
      lra.
  - destruct (Rlt_dec 0 y); [lra|]. destruct (Rlt_dec y 0); lra.
Qed.

(** X19.  The two loops that normalise the difference of two angles.  For a
    difference of at most 2 PI in absolute value, which is what the
    difference of two results of [Math.atan2] is, each loop runs at most
    once: a difference above PI is reduced by 2 PI, one below -PI is raised
    by 2 PI, any other is left as it is, and the result lies between -PI
    and PI. *)
Theorem normalise_angle (d : R) :
  Rabs d <= 2 * PI ->
  exists r : R,
    Evolution.normalise (Fin d) = Fin r
    /\ - PI <= r <= PI
    /\ (PI < d -> r = d - 2 * PI)
    /\ (d < - PI -> r = d + 2 * PI)
    /\ (- PI <= d <= PI -> r = d).
Proof.
  intros Hd.
  assert (Hd' : - (2 * PI) <= d <= 2 * PI).
  { pose proof (Rle_abs d). pose proof (Rle_abs (- d)).
    rewrite Rabs_Ropp in *. lra. }
  pose proof PI_RGT_0 as Hpi. unfold Evolution.normalise.
  destruct (@while_sub_turns (Evolution.turns (Fin d)) d)
    as (k1 & -> & A1 & A2 & A3).
  { pose proof (turns_enough d). pose proof (Rle_abs d). lra. }
  set (d1 := d - 2 * PI * INR k1) in *.
  destruct (@while_add_turns (Evolution.turns (Fin d1)) d1)
    as (k2 & -> & B1 & B2 & B3).
  { pose proof (turns_enough d1). pose proof (Rle_abs (- d1)).
    rewrite Rabs_Ropp in *. lra. }
  assert (K1 : (PI < d -> k1 = 1%nat) /\ (d <= PI -> k1 = 0%nat)).
  { split; [|exact A3]. intros Hgt. specialize (A2 Hgt). unfold d1 in *.
    destruct k1 as [|[|k]]; [simpl in A1; lra | reflexivity |].
    rewrite !S_INR in A2. pose proof (pos_INR k). nra. }
  assert (K2 : (d1 < - PI -> k2 = 1%nat) /\ (- PI <= d1 -> k2 = 0%nat)).
  { split; [|exact B3]. intros Hlt. specialize (B2 Hlt).
    assert (d1 = d).
    { unfold d1 in *. destruct (Rlt_dec PI d) as [G|G].
      - destruct K1 as [K1 _]. rewrite (K1 G) in Hlt. simpl in Hlt. lra.
      - destruct K1 as [_ K1]. rewrite K1 by lra. simpl. lra. }
    destruct k2 as [|[|k]]; [simpl in B1; lra | reflexivity |].
    rewrite !S_INR in B2. pose proof (pos_INR k). nra. }
  exists (d1 + 2 * PI * INR k2). split; [reflexivity|].
  destruct K1 as [K1a K1b]. destruct K2 as [K2a K2b].
  destruct (Rlt_dec PI d) as [G|G].
  - assert (E1 : d1 = d - 2 * PI) by (unfold d1; rewrite (K1a G); simpl; lra).
    rewrite K2b by lra. simpl. repeat split; intros; lra.
  - assert (E1 : d1 = d) by (unfold d1; rewrite K1b by lra; simpl; lra).
    destruct (Rlt_dec d (- PI)) as [L|L].
    + rewrite K2a by lra. simpl. repeat split; intros; lra.
    + rewrite K2b by lra. simpl. repeat split; intros; lra.
Qed.

(** A virus that arrives from the left (the angle PI) at a target that
    moves downward on the screen's axis (the angle -PI/2): the difference
    3 PI/2 is normalised to -PI/2. *)
Lemma normalise_angle_witness :
  Rabs (Math.Ratan2 0 (-1) - Math.Ratan2 (-1) 0) <= 2 * PI
  /\ exists r : R,
       Evolution.normalise
         (Math.atan2 (Fin 0) (Fin (-1)) - Math.atan2 (Fin (-1)) (Fin 0))%js
       = Fin r
       /\ - PI <= r <= PI.
Proof.
  pose proof PI_RGT_0 as Hpi.
  assert (Hd : Rabs (Math.Ratan2 0 (-1) - Math.Ratan2 (-1) 0) <= 2 * PI).
  { apply Rabs_le. pose proof (Ratan2_range 0 (-1)).
    pose proof (Ratan2_range (-1) 0). lra. }
  split; [exact Hd|].
  destruct (normalise_angle _ Hd) as (r & E & B & _).
  exists r. split; [exact E | exact B].
Defined.

(** ** The flight of an ejected letter *)










(** ** The word and its letters *)

Section Word_update.

Variable bd : Logo.Bounds.
Variable vp : Viewport.
Hypothesis bounds_ordered :
  (Logo.LOGO_BUMP_THRESHOLD_MIN bd <=? Logo.LOGO_BUMP_THRESHOLD_MAX bd)%js
  = true.





End Word_update.

(** ** The word stays in the viewport *)




Section Word_in_viewport.

Variable bd : Logo.Bounds.
Variable vp : Viewport.
Variables vw vh : R.
Hypothesis width : innerWidth vp = Fin vw.
Hypothesis height : innerHeight vp = Fin vh.
Hypothesis wide : 324 <= vw.
Hypothesis high : 36 <= vh.




End Word_in_viewport.





(** ** An entity against a letter *)

Lemma bump_keeps (bd : Logo.Bounds) (letter : Logo.Letter)
    (nx ny : number) (s : RNG) :
  let l' := fst (Logo.bump bd letter nx ny s) in
  Logo.slotIndex l' = Logo.slotIndex letter
  /\ Logo.x l' = Logo.x letter /\ Logo.y l' = Logo.y letter
  /\ Logo.mounted l' = Logo.mounted letter
  /\ Logo.totalHits l' = (Logo.totalHits letter + Fin 1)%js.
Proof.
  cbv zeta. unfold Logo.bump, Logo.onBump.
  destruct (_ && _).
  - rewrite bind_run. cbn. auto.
  - cbn. auto.
Qed.

Lemma hit_entity (bd : Logo.Bounds) (entity : Entity.t)
    (letter : Logo.Letter) (s : RNG) (d : R) :
  Logo.mounted letter = true ->
  let dx := (Entity.x entity - Logo.x letter)%js in
  let dy := (Entity.y entity - Logo.y letter)%js in
  Math.hypot dx dy = Fin d ->
  0 < d < 30 ->
  let nx := (dx / Fin d)%js in
  let ny := (dy / Fin d)%js in
  let dot := ((Entity.vx entity - Logo.vx letter) * nx
              + (Entity.vy entity - Logo.vy letter) * ny)%js in
  let e1 :=
    if (dot <? Fin 0)%js then
      Entity.set_vy
        (Entity.set_vx entity (Entity.vx entity - Fin 2 * dot * nx)%js)
        (Entity.vy entity - Fin 2 * dot * ny)%js
    else entity in
  fst (fst (Logo.hit bd entity letter s))
  = Entity.onHit
      (Entity.set_y
         (Entity.set_x e1 (Entity.x e1 + (Fin 30 - Fin d) * nx)%js)
         (Entity.y e1 + (Fin 30 - Fin d) * ny)%js).
Proof.
  intros Hm dx dy Hd Hr nx ny dot e1. unfold Logo.hit. rewrite Hm.
  cbn [negb]. fold dx dy. rewrite Hd.
  replace (Fin d >=? DEFAULTS.LOGO_COLLISION_DIAMETER)%js with false
    by (symmetry; simpl; apply Rleb_false; lra).
  replace (Fin d === Fin 0)%js with false
    by (symmetry; simpl; apply Reqb_false; lra).
  cbn [orb]. rewrite bind_run. reflexivity.
Qed.

Lemma onHit_phys (e : Entity.t) :
  phys (Entity.onHit e) = phys e
  /\ Entity.onHit_calls (Entity.onHit e) = S (Entity.onHit_calls e).
Proof. unfold Entity.onHit. destruct (_ || _); auto. Qed.

(** X23.  An entity that overlaps a mounted letter, at a distance strictly
    between 0 and LOGO_COLLISION_DIAMETER.  The letter is not moved and
    counts one more hit.  The entity alone is moved, by the whole overlap
    (the diameter minus the distance) along the normal from the letter to
    the entity, and receives [onHit].  Its velocity is reflected along the
    normal (v - 2 * dot * n) only when it approaches the letter (dot < 0);
    otherwise it is left as it is.  The normal, the overlap and the dot
    product are the ones the code computes. *)
Theorem hit_pushes_entity_out (bd : Logo.Bounds) (entity : Entity.t)
    (letter : Logo.Letter) (s : RNG) :
  Logo.mounted letter = true ->
  let dx := (Entity.x entity - Logo.x letter)%js in
  let dy := (Entity.y entity - Logo.y letter)%js in
  let dist := Math.hypot dx dy in
  (Fin 0 <? dist)%js = true ->
  (dist <? DEFAULTS.LOGO_COLLISION_DIAMETER)%js = true ->
  let nx := (dx / dist)%js in
  let ny := (dy / dist)%js in
  let dot := ((Entity.vx entity - Logo.vx letter) * nx
              + (Entity.vy entity - Logo.vy letter) * ny)%js in
  let overlap := (DEFAULTS.LOGO_COLLISION_DIAMETER - dist)%js in
  let e' := fst (fst (Logo.hit bd entity letter s)) in
  let l' := snd (fst (Logo.hit bd entity letter s)) in
  (Logo.x l' = Logo.x letter /\ Logo.y l' = Logo.y letter
   /\ Logo.totalHits l' = (Logo.totalHits letter + Fin 1)%js)
  /\ Entity.onHit_calls e' = S (Entity.onHit_calls entity)
  /\ Entity.x e' = (Entity.x entity + overlap * nx)%js
  /\ Entity.y e' = (Entity.y entity + overlap * ny)%js
  /\ ((dot <? Fin 0)%js = true ->
      Entity.vx e' = (Entity.vx entity - Fin 2 * dot * nx)%js
      /\ Entity.vy e' = (Entity.vy entity - Fin 2 * dot * ny)%js)
  /\ ((dot <? Fin 0)%js = false ->
      Entity.vx e' = Entity.vx entity /\ Entity.vy e' = Entity.vy entity).
Proof.
  intros Hm dx dy dist H0 Hlt nx ny dot overlap e' l'.
  split.
  - unfold l'. rewrite (hit_letter bd entity letter s Hm H0 Hlt).
    destruct (bump_keeps bd letter nx ny s) as (_ & Bx & By & _ & Bt).
    auto.
  - apply lt_true_inv in H0. destruct H0 as (? & d & [= <-] & Hd & H0).
    apply lt_true_inv in Hlt. destruct Hlt as (d' & ? & Hd' & [= <-] & Hlt).
    assert (d' = d) by congruence. subst d'. clear Hd'.
    fold dx dy in Hd. fold dist in Hd.
    unfold e'.
    rewrite (@hit_entity bd entity letter s d Hm Hd ltac:(simpl in Hlt; lra)).
    subst overlap dot nx ny. rewrite Hd. fold dx dy.
    set (nx := (dx / Fin d)%js). set (ny := (dy / Fin d)%js).
    set (dot := ((Entity.vx entity - Logo.vx letter) * nx
                 + (Entity.vy entity - Logo.vy letter) * ny)%js).
    match goal with
    | |- context [Entity.onHit ?e] =>
        destruct (onHit_phys e) as [Hp Hc]; set (moved := e) in *
    end.
    apply phys_eq in Hp. destruct Hp as (Px & Py & Pvx & Pvy).
    rewrite Px, Py, Pvx, Pvy, Hc. unfold moved. entity_fields.
    destruct (dot <? Fin 0)%js; entity_fields.
    + repeat split; try reflexivity; discriminate.
    + repeat split; try reflexivity; discriminate.
Qed.

(** A cell 20 to the left of the letter [a], moving to the right and
    downward: it is pushed 10 further to the left, to x = 390, and its
    velocity along x is reversed. *)
Lemma hit_pushes_entity_out_witness :
  let r := fst (Logo.hit Sample.bounds Sample.shielded_cell Sample.letter_a
                  Sample.half_stream) in
  (Logo.x (snd r) = Fin 420 /\ Logo.y (snd r) = Fin 300)
  /\ Entity.onHit_calls (fst r) = 1%nat
  /\ Entity.x (fst r) = Fin 390 /\ Entity.y (fst r) = Fin 300
  /\ Entity.vx (fst r) = Fin (-0.3) /\ Entity.vy (fst r) = Fin 0.4.
Proof.
  intros r.
  assert (D : Math.hypot (Entity.x Sample.shielded_cell
                          - Logo.x Sample.letter_a)%js
                (Entity.y Sample.shielded_cell - Logo.y Sample.letter_a)%js
              = Fin 20).
  { simpl. f_equal.
    replace ((400 - 420) * (400 - 420) + (300 - 300) * (300 - 300))
      with (20 * 20) by lra. apply sqrt_square. lra. }
  assert (H0 : (Fin 0 <? Math.hypot (Entity.x Sample.shielded_cell
                                     - Logo.x Sample.letter_a)%js
                           (Entity.y Sample.shielded_cell
                            - Logo.y Sample.letter_a)%js)%js = true)
    by (rewrite D; apply Rltb_true; lra).
  assert (Hlt : (Math.hypot (Entity.x Sample.shielded_cell
                             - Logo.x Sample.letter_a)%js
                   (Entity.y Sample.shielded_cell
                    - Logo.y Sample.letter_a)%js
                 <? DEFAULTS.LOGO_COLLISION_DIAMETER)%js = true)
    by (rewrite D; apply Rltb_true; simpl; lra).
  destruct (@hit_pushes_entity_out Sample.bounds Sample.shielded_cell
              Sample.letter_a Sample.half_stream eq_refl H0 Hlt)
    as ((Lx & Ly & _) & Hc & Ex & Ey & Hrefl & _).
  fold r in Lx, Ly, Hc, Ex, Ey, Hrefl.
  rewrite D in Ex, Ey, Hrefl.
  split; [split; [exact Lx | exact Ly]|]. split; [exact Hc|].
  assert (Hdot : ((Entity.vx Sample.shielded_cell - Logo.vx Sample.letter_a)
                  * ((Entity.x Sample.shielded_cell - Logo.x Sample.letter_a)
                     / Fin 20)
                  + (Entity.vy Sample.shielded_cell
                     - Logo.vy Sample.letter_a)
                    * ((Entity.y Sample.shielded_cell
                        - Logo.y Sample.letter_a) / Fin 20) <? Fin 0)%js
                 = true).
  { simpl. repeat rcmp. simpl. apply Rltb_true. lra. }
  destruct (Hrefl Hdot) as [Vx Vy].
  rewrite Ex, Ey, Vx, Vy. simpl. repeat rcmp. simpl.
  repeat split; f_equal; lra.
Defined.

(** ** The lifetime hit counter *)

(** X24.  After any run of n bumps the lifetime hit counter of a letter has
    grown by exactly n, whatever ejections happened in between; the bumps
    move neither the letter nor its slot. *)
Theorem bumps_count_every_hit (bd : Logo.Bounds)
    (normals : list (number * number)) :
  forall (letter : Logo.Letter) (s : RNG) (t : R),
    Logo.totalHits letter = Fin t ->
    let l' := fst (bumps bd letter normals s) in
    Logo.totalHits l' = Fin (t + INR (length normals))
    /\ Logo.slotIndex l' = Logo.slotIndex letter
    /\ Logo.x l' = Logo.x letter /\ Logo.y l' = Logo.y letter
    /\ Logo.mounted l' = Logo.mounted letter.
Proof.
  induction normals as [|[nx ny] rest IH]; intros letter s t Ht.
  - simpl. rewrite Ht, Rplus_0_r. auto.
  - cbn [bumps]. rewrite bind_run.
    destruct (bump_keeps bd letter nx ny s) as (B1 & B2 & B3 & B4 & B5).
    rewrite Ht in B5. cbn [Num.add Num.lift2] in B5.
    destruct (IH _ (snd (Logo.bump bd letter nx ny s)) _ B5)
      as (I1 & I2 & I3 & I4 & I5).
    cbv zeta in *. rewrite I1, I2, I3, I4, I5, B1, B2, B3, B4.
    cbn [length]. rewrite S_INR.
    repeat split; auto. f_equal. ring.
Qed.

Lemma bumps_count_every_hit_witness :
  Logo.totalHits Sample.letter_a = Fin 4000
  /\ Logo.totalHits
       (fst (bumps Sample.bounds Sample.letter_a
               [(Fin 1, Fin 0); (Fin 0, Fin 1)] Sample.half_stream))
     = Fin (4000 + INR 2).
Proof.
  split; [reflexivity|].
  exact (proj1 (@bumps_count_every_hit Sample.bounds
                  [(Fin 1, Fin 0); (Fin 0, Fin 1)] Sample.letter_a
                  Sample.half_stream 4000 eq_refl)).
Defined.

(** ** The saved bump counts *)

Lemma setHitCounts_loop_length (cs : list (option number))
    (ls : list Logo.Letter) :
  forall i, length (LogoController.setHitCounts_loop cs i ls) = length ls.
Proof. induction ls as [|l rest IH]; intros i; simpl; auto. Qed.

Lemma setHitCounts_loop_nth (cs : list (option number))
    (ls : list Logo.Letter) :
  forall i k l,
    nth_error ls k = Some l ->
    nth_error (LogoController.setHitCounts_loop cs i ls) k
    = Some (LogoLetter.set_bumpCount l
              (LogoController.nullish
                 (match nth_error cs (i + k) with
                  | Some c => c
                  | None => None
                  end) (Fin 0))).
Proof.
  induction ls as [|l0 rest IH]; intros i [|k] l H; simpl in *;
    try discriminate.
  - injection H as ->. now rewrite Nat.add_0_r.
  - rewrite (IH (S i) k l H). now rewrite Nat.add_succ_r.
Qed.

Lemma setHitCounts_loop_same (ls all : list Logo.Letter) :
  forall i,
    (forall k, nth_error ls k = nth_error all (i + k)) ->
    LogoController.setHitCounts_loop
      (map (fun l => Some (Logo.bumpCount l)) all) i ls = ls.
Proof.
  induction ls as [|l rest IH]; intros i H; simpl; [reflexivity|].
  f_equal.
  - specialize (H 0%nat). simpl in H. rewrite Nat.add_0_r in H.
    rewrite nth_error_map, <- H. simpl. now destruct l.
  - apply IH. intros k. specialize (H (S k)). simpl in H.
    now rewrite Nat.add_succ_r in H.
Qed.

(** X25.  [setHitCounts] followed by [getHitCounts] returns, for each
    letter, the count given at its index, and 0 where the array is shorter
    or holds null; the result has one count per letter; writing back the
    counts just read changes nothing, and an argument that is no array is
    ignored. *)
Theorem hit_counts_round_trip (w : LogoController.t)
    (counts : list (option number)) :
  let w' := LogoController.setHitCounts w (Some counts) in
  (forall k,
     (k < length (LogoController.letters w))%nat ->
     nth_error (LogoController.getHitCounts w') k
     = Some (match nth_error counts k with
             | Some (Some c) => c
             | _ => Fin 0
             end))
  /\ length (LogoController.getHitCounts w')
     = length (LogoController.letters w)
  /\ LogoController.setHitCounts w
       (Some (map Some (LogoController.getHitCounts w))) = w
  /\ LogoController.setHitCounts w None = w.
Proof.
  cbv zeta. unfold LogoController.setHitCounts, LogoController.getHitCounts,
    LogoController.with_letters.
  cbn [LogoController.letters]. repeat split.
  - intros k Hk.
    destruct (nth_error (LogoController.letters w) k) as [l|] eqn:E.
    + rewrite nth_error_map, (setHitCounts_loop_nth counts _ 0 _ E).
      simpl. destruct (nth_error counts k) as [[c|]|]; reflexivity.
    + apply nth_error_None in E. lia.
  - now rewrite length_map, setHitCounts_loop_length.
  - rewrite map_map.
    rewrite (@setHitCounts_loop_same (LogoController.letters w)
               (LogoController.letters w) 0) by reflexivity.
    now destruct w.
Qed.

(** ** Clearing the evolution *)




(** ** The saved state of the word *)

Section Restore.

Variable bd : Logo.Bounds.
Hypothesis bounds_ordered :
  (Logo.LOGO_BUMP_THRESHOLD_MIN bd <=? Logo.LOGO_BUMP_THRESHOLD_MAX bd)%js
  = true.







End Restore.



(** ** The spawner *)

Lemma Rpower_pos (x y : R) : 0 < Rpower x y.
Proof. unfold Rpower. apply exp_pos. Qed.

Lemma Rpower_one (y : R) : Rpower 1 y = 1.
Proof. unfold Rpower. now rewrite ln_1, Rmult_0_r, exp_0. Qed.

(** The power 1.5 of a positive number is the number times its square
    root. *)
Lemma Rpower_three_halves (x : R) : 0 < x -> Rpower x 1.5 = x * sqrt x.
Proof.
  intros Hx. replace 1.5 with (1 + / 2) by lra.
  rewrite Rpower_plus, Rpower_1, Rpower_sqrt by assumption. reflexivity.
Qed.

Lemma Rpower_three_halves_mono (x y : R) :
  0 < x <= y -> Rpower x 1.5 <= Rpower y 1.5.
Proof. intros H. apply Rle_Rpower_l; lra. Qed.

(** X28.  For a spawn rate within its documented range, from 1 to 10, the
    delay of [#scheduleNextSpawn] is a finite number of milliseconds, at
    least 300 and at most 224000.  It is at least 3000 for the rates up to
    the default 5, at most 20000 for the rates from 5 on, and below 20000
    at the rate 5. *)
Theorem spawn_delay_bounds (st : Spawner.Settings) (rate : R) :
  Spawner.spawnRate st = Fin rate -> 1 <= rate <= 10 ->
  rand_post (Spawner.scheduleNextSpawn st)
    (fun delay =>
       exists d,
         delay = Fin d /\ 300 <= d <= 224000
         /\ (rate <= 5 -> 3000 <= d)
         /\ (5 <= rate -> d <= 20000)
         /\ (rate = 5 -> d < 20000)).
Proof.
  intros Hrate Hrange. unfold Spawner.scheduleNextSpawn. rewrite Hrate.
  unfold DEFAULTS_more.SPAWN_DELAY_MIN, DEFAULTS_more.SPAWN_DELAY_MAX.
  assert (Hq : 0.2 <= rate / 5 <= 2) by (unfold Rdiv; lra).
  set (f := Rpower (rate / 5) 1.5).
  pose proof (Rpower_pos (rate / 5) 1.5) as Hf. fold f in Hf.
  assert (Flo : 0.0894 <= f).
  { apply Rle_trans with (Rpower 0.2 1.5);
      [|apply Rpower_three_halves_mono; lra].
    rewrite Rpower_three_halves by lra.
    assert (0.447 <= sqrt 0.2).
    { rewrite <- (sqrt_square 0.447) by lra. apply sqrt_le_1_alt. lra. }
    nra. }
  assert (F1 : Rpower 1 1.5 = 1) by apply Rpower_one.
  assert (Fle : rate <= 5 -> f <= 1).
  { intros H. rewrite <- F1. apply Rpower_three_halves_mono. lra. }
  assert (Fge : 5 <= rate -> 1 <= f).
  { intros H. rewrite <- F1. apply Rpower_three_halves_mono. lra. }
  assert (Ediv : (Fin rate / Fin 5)%js = Fin (rate / 5))
    by (simpl; rcmp; reflexivity).
  assert (Ef : Math_pow (Fin (rate / 5)) (Fin 1.5) = Fin f)
    by (unfold Math_pow; repeat rcmp; reflexivity).
  assert (Emin : (Fin 3000 / Fin f)%js = Fin (3000 / f))
    by (simpl; rcmp; reflexivity).
  assert (Emax : (Fin 20000 / Fin f)%js = Fin (20000 / f))
    by (simpl; rcmp; reflexivity).
  cbv zeta. rewrite Ediv, Ef, Emin, Emax.
  cbn [Math.round Math.max Num.lift1 Num.lift2].
  set (a := IZR (Zfloor (3000 / f + 1 / 2))).
  set (b := IZR (Zfloor (20000 / f + 1 / 2))).
  assert (Hif : 0 < / f) by now apply Rinv_0_lt_compat.
  assert (Hab : a <= b).
  { unfold a, b. apply IZR_le, Zfloor_mono. unfold Rdiv. nra. }
  assert (Hb : b <= 224000).
  { unfold b. pose proof (Zfloor_bound (20000 / f + 1 / 2)) as [B1 _].
    assert (20000 / f <= 20000 / 0.0894).
    { unfold Rdiv. apply Rmult_le_compat_l; [lra|].
      apply Rinv_le_contravar; lra. }
    lra. }
  assert (Ha : rate <= 5 -> 3000 <= a).
  { intros H. specialize (Fle H). unfold a.
    apply (IZR_le 3000). apply Zfloor_lub.
    assert (3000 <= 3000 / f).
    { apply Rmult_le_reg_r with f; [assumption|].
      unfold Rdiv. rewrite Rmult_assoc, Rinv_l by lra. nra. }
    lra. }
  assert (Hb5 : 5 <= rate -> b <= 20000).
  { intros H. specialize (Fge H). unfold b.
    pose proof (Zfloor_bound (20000 / f + 1 / 2)) as [B1 _].
    assert (20000 / f <= 20000).
    { apply Rmult_le_reg_r with f; [assumption|].
      unfold Rdiv. rewrite Rmult_assoc, Rinv_l by lra. nra. }
    assert (Hz : (Zfloor (20000 / f + 1 / 2) <= 20000)%Z).
    { apply Z.lt_succ_r. apply lt_IZR. rewrite succ_IZR. lra. }
    now apply IZR_le in Hz. }
  assert (Hlo : 300 <= Rmax 300 a) by apply Rmax_l.
  assert (Hlh : Rmax 300 a <= Rmax 1500 b).
  { apply Rmax_lub.
    - apply Rle_trans with 1500; [lra | apply Rmax_l].
    - apply Rle_trans with b; [exact Hab | apply Rmax_r]. }
  assert (Hhi : Rmax 1500 b <= 224000) by (apply Rmax_lub; lra).
  eapply rand_post_bind; [apply rand_post_random|].
  intros r (x & -> & Hx). apply rand_post_ret.
  cbn [Num.add Num.sub Num.mul Num.lift2]. cbv zeta. fold f. fold a b.
  eexists. split; [reflexivity|]. split; [nra|].
  split; [|split].
  - intros H. specialize (Ha H).
    assert (3000 <= Rmax 300 a)
      by (apply Rle_trans with a; [assumption | apply Rmax_r]).
    nra.
  - intros H. specialize (Hb5 H).
    assert (Rmax 1500 b <= 20000) by (apply Rmax_lub; lra).
    nra.
  - intros ->.
    assert (Ef1 : f = 1).
    { unfold f. replace (5 / 5) with 1 by field. apply Rpower_one. }
    assert (Ea : a = 3000).
    { unfold a. rewrite Ef1.
      replace (3000 / 1 + 1 / 2) with (IZR 3000 + 1 / 2) by (simpl; field).
      f_equal. apply Zfloor_eq. simpl. lra. }
    assert (Eb : b = 20000).
    { unfold b. rewrite Ef1.
      replace (20000 / 1 + 1 / 2) with (IZR 20000 + 1 / 2) by (simpl; field).
      f_equal. apply Zfloor_eq. simpl. lra. }
    rewrite Ea, Eb. rewrite (Rmax_right 300 3000) by lra.
    rewrite (Rmax_right 1500 20000) by lra. nra.
Qed.

Lemma spawn_delay_bounds_witness :
  exists d,
    fst (Spawner.scheduleNextSpawn Scene.settings Sample.half_stream) = Fin d
    /\ 3000 <= d < 20000.
Proof.
  destruct (proj1 (@spawn_delay_bounds Scene.settings 5 eq_refl ltac:(lra)
                     Sample.half_stream half_stream_ok))
    as (d & Hd & _ & Hlo & _ & Hhi).
  exists d. split; [exact Hd|].
  split; [apply Hlo; lra | exact (Hhi eq_refl)].
Defined.

(** X29.  The choice of [#spawnEntity].  A chosen name is never empty; it is
    the rare name only when fewer bugs than the maximum are in the list, and
    otherwise the initial name, and only when fewer than MIN_CELL_COUNT
    cells are.  With fewer than MIN_CELL_COUNT cells something is always
    spawned, if the initial name is not empty; with at least that many cells
    and the bugs at their maximum, nothing is. *)
Theorem spawn_choice (st : Spawner.Settings) (entities : list Entity.t)
    (s : RNG) :
  let choice := fst (Spawner.choose st entities s) in
  let bugs := Spawner.count_key "bug" entities in
  let cells := Spawner.count_key "cell" entities in
  (forall name,
     choice = Some name ->
     Spawner.truthy name = true
     /\ ((Spawner.rare st = Some name
          /\ (Num.of_nat bugs <? Spawner.bugMaxCount st)%js = true)
         \/ (name = Spawner.initial st
             /\ (cells < DEFAULTS.MIN_CELL_COUNT)%nat)))
  /\ ((cells < DEFAULTS.MIN_CELL_COUNT)%nat ->
      Spawner.truthy (Spawner.initial st) = true ->
      choice <> None)
  /\ ((DEFAULTS.MIN_CELL_COUNT <= cells)%nat ->
      (Num.of_nat bugs <? Spawner.bugMaxCount st)%js = false ->
      choice = None).
Proof.
  cbv zeta. unfold Spawner.choose. rewrite bind_run.
  set (roll :=
         if negb (Spawner.falsy (Spawner.rare st)) then _ else _).
  assert (Hroll : fst (roll s) = None
                  \/ (fst (roll s) = Spawner.rare st
                      /\ Spawner.falsy (Spawner.rare st) = false
                      /\ (Num.of_nat (Spawner.count_key "bug" entities)
                          <? Spawner.bugMaxCount st)%js = true)).
  { unfold roll. destruct (Spawner.falsy (Spawner.rare st)) eqn:F;
      cbn [negb]; [now left|].
    rewrite bind_run. destruct (_ <? Spawner.bugSpawnChance st)%js;
      [|now left].
    destruct (_ <? Spawner.bugMaxCount st)%js eqn:B; [|now left].
    right. auto. }
  clearbody roll. cbv zeta.
  change (Spawner.count_key "cell" entities <? DEFAULTS.MIN_CELL_COUNT)%nat
    with (Spawner.count_key "cell" entities <? 2)%nat.
  unfold DEFAULTS.MIN_CELL_COUNT.
  destruct Hroll as [->|(-> & F & B)].
  - cbn [Spawner.falsy].
    destruct (Nat.ltb_spec (Spawner.count_key "cell" entities) 2) as [Hc|Hc].
    + cbn [Spawner.falsy].
      destruct (Spawner.truthy (Spawner.initial st)) eqn:T; cbn [negb fst ret].
      * split; [|split].
        -- intros name [= <-]. auto.
        -- discriminate.
        -- lia.
      * split; [|split].
        -- discriminate.
        -- intros _ N. discriminate.
        -- reflexivity.
    + cbn [Spawner.falsy fst ret]. split; [|split].
      * discriminate.
      * lia.
      * reflexivity.
  - rewrite F. rewrite F. cbn [fst ret]. rewrite B.
    unfold Spawner.falsy in F.
    destruct (Spawner.rare st) as [n|]; [|discriminate].
    apply negb_false_iff in F. split; [|split].
    + intros name [= <-]. auto.
    + discriminate.
    + intros _ N. discriminate.
Qed.


